(** * Diagram editor core: entity model, command history, interaction state

    A shallow embedding of the editing engine of the diagram editor
    (geometry.js, Shape.js, Connection.js, Diagram.js, CommandManager.js,
    Commands.js, SelectionManager.js, InteractionController.js,
    ResizeHandleManager.js, SVGCanvas.js, PropertiesPanel.js,
    ShapeFactory.js) together with the properties the specification
    states about it and further properties of the code.

    Conventions.
    - JavaScript numbers are modelled as exact rationals [Q]; equality of
      computed numbers is [Qeq] ([==]). The code computes in IEEE
      doubles, which agree with the exact computation where no operation
      rounds: in comparisons, [Math.min] and [Math.max], assignments, and
      in sums, differences and products of integers that stay below
      [2^53] in absolute value. A statement that depends on the result of
      arithmetic takes its numbers from this range ([integral]); the
      statements without such a hypothesis only compare numbers the code
      has computed or stored.
    - JavaScript objects with identity (shapes, connections) live in a
      store indexed by references; a [Map] keeps its insertion order.
    - A method that can throw returns an [Outcome]: the state reached so
      far is kept in both cases, as no JavaScript statement is rolled back.
    - DOM rendering ([element], [updateElement], cursors, preview lines) and
      the listeners of the event bus that only redraw are left out. *)

From Stdlib Require Import QArith Qround Lqa Lia String List Bool.
From stdpp Require Import base option gmap strings list pretty.

Local Open Scope string_scope.
Local Open Scope list_scope.

(* ===================================================================== *)
(** ** JavaScript preliminaries *)
(* ===================================================================== *)

(** The value thrown by a [throw] statement or a failing property access. *)
Definition Error := string.

(** Result of running a method on a state of type [W]. *)
Inductive Outcome (W A : Type) : Type :=
| Return (a : A) (w : W)
| Throw (e : Error) (w : W).
Arguments Return {W A} a w.
Arguments Throw {W A} e w.

Definition bindO {W A B} (m : W -> Outcome W A) (k : A -> W -> Outcome W B)
  : W -> Outcome W B :=
  fun w => match m w with
           | Return a w' => k a w'
           | Throw e w' => Throw e w'
           end.

Definition retO {W A} (a : A) : W -> Outcome W A := fun w => Return a w.

Definition stateOf {W A} (o : Outcome W A) : W :=
  match o with Return _ w => w | Throw _ w => w end.


(** [Array.prototype.push], [pop] and [shift] on an array kept in index
    order (index 0 first, the top of a stack last). *)
Definition push {A} (l : list A) (a : A) : list A := l ++ [a].
Definition shift {A} (l : list A) : list A := tail l.
Definition pop {A} (l : list A) : option (A * list A) :=
  match rev l with
  | [] => None
  | a :: r => Some (a, rev r)
  end.
Definition top {A} (l : list A) : option A := fst <$> pop l.

(** The last [n] elements of an array. *)
Definition lastN {A} (n : nat) (l : list A) : list A := drop (length l - n) l.


Notation "'let*' x ':=' m 'in' k" := (bindO m (fun x => k))
  (at level 10, x name, m at level 100, k at level 200).

(** Object references. Shapes and connections are objects with identity:
    the same object is reachable from the diagram, from the selection and
    from the commands that captured it. *)
Abbreviation ref := positive.

(** Property values. Compound values are held by reference. *)
Inductive JsValue : Type :=
| VUndefined
| VNull
| VBool (b : bool)
| VNum (q : Q)
| VStr (s : string)
| VObj (r : ref).

(** A plain object used as a dictionary. *)
Abbreviation JsObject := (gmap string JsValue).

(** [obj[key]]: a missing key reads as [undefined]. *)
Definition getProp (obj : JsObject) (key : string) : JsValue :=
  default VUndefined (obj !! key).

(** [{...a, ...b}] and [Object.assign(a, b)]: the keys of [b] win. *)
Definition assign (a b : JsObject) : JsObject := b ∪ a.

(** Truthiness, as [||] and [if] test it. *)
Definition truthy_str (s : string) : bool := negb (String.eqb s "").
Definition truthy_num (q : Q) : bool := negb (Qeq_bool q 0).
Definition truthy (v : JsValue) : bool :=
  match v with
  | VUndefined | VNull => false
  | VBool b => b
  | VNum q => truthy_num q
  | VStr s => truthy_str s
  | VObj _ => true
  end.

(** [o || d] where [o] is a possibly missing option field. *)
Definition or_str (o : option string) (d : string) : string :=
  match o with Some s => if truthy_str s then s else d | None => d end.
Definition or_num (o : option Q) (d : Q) : Q :=
  match o with Some q => if truthy_num q then q else d | None => d end.
Definition or_val (o : option JsValue) (d : JsValue) : JsValue :=
  match o with Some v => if truthy v then v else d | None => d end.
(** [o || null] for an id. *)
Definition or_null (o : option string) : option string :=
  match o with Some s => if truthy_str s then Some s else None | None => None end.

Definition Qltb (a b : Q) : bool := negb (Qle_bool b a).
Definition Math_max (a b : Q) : Q := if Qle_bool a b then b else a.
Definition Math_min (a b : Q) : Q := if Qle_bool a b then a else b.
(** [Math.round]: to the nearest integer, halves upwards. *)
Definition Math_round (a : Q) : Q := inject_Z (Qfloor (a + (1 # 2))).

(** The numbers on which the arithmetic of the code is exact: integers of
    absolute value at most [2^50]. Sums and differences of a few of them
    stay below [2^53], where every integer is a double and no addition,
    subtraction or product rounds. *)
Definition integral (q : Q) : Prop :=
  exists n : Z, (q == inject_Z n)%Q /\ (Z.abs n <= 2 ^ 50)%Z.

(** The same as a test, on a fraction with denominator 1. *)
Definition integralb (q : Q) : bool :=
  Pos.eqb (Qden q) 1 && (Z.abs (Qnum q) <=? 2 ^ 50)%Z.

(** A JavaScript [Map] with string keys: [set] on a present key keeps the
    entry in place, on a new key appends; iteration is in insertion order. *)
Module JsMap.
Definition t (V : Type) := list (string * V).

Definition empty {V} : t V := [].

Fixpoint get {V} (k : string) (m : t V) : option V :=
  match m with
  | [] => None
  | (k', v) :: m' => if String.eqb k' k then Some v else get k m'
  end.

Fixpoint set {V} (k : string) (v : V) (m : t V) : t V :=
  match m with
  | [] => [(k, v)]
  | (k', v') :: m' =>
      if String.eqb k' k then (k, v) :: m' else (k', v') :: set k v m'
  end.

Fixpoint delete {V} (k : string) (m : t V) : t V :=
  match m with
  | [] => []
  | (k', v) :: m' =>
      if String.eqb k' k then delete k m' else (k', v) :: delete k m'
  end.

Definition has {V} (k : string) (m : t V) : bool :=
  match get k m with Some _ => true | None => false end.

Definition keys {V} (m : t V) : list string := map fst m.
Definition values {V} (m : t V) : list V := map snd m.
Definition size {V} (m : t V) : nat := length m.
End JsMap.

(** A JavaScript [Set] of object references, in insertion order. *)
Module JsSet.
Definition t := list ref.
Definition empty : t := [].
Definition has (r : ref) (s : t) : bool := existsb (Pos.eqb r) s.
Definition add (r : ref) (s : t) : t := if has r s then s else s ++ [r].
Definition delete (r : ref) (s : t) : t := filter (fun r' => negb (Pos.eqb r r')) s.
Definition size (s : t) : nat := length s.
End JsSet.

(* ===================================================================== *)
(** ** geometry.js *)
(* ===================================================================== *)

Module Geometry.
Local Open Scope Q_scope.

Record Point := mkPoint { x : Q; y : Q }.

(** The value of [Math.sqrt(r)] kept symbolically, and [Infinity].
    Distances are only ever compared, and the square root is strictly
    increasing on the non-negative numbers. *)
Inductive Distance := Sqrt (radicand : Q) | Infinity.

Definition dist_ltb (a b : Distance) : bool :=
  match a, b with
  | Sqrt p, Sqrt q => Qltb p q
  | Sqrt _, Infinity => true
  | Infinity, _ => false
  end.

Definition clone (p : Point) : Point := mkPoint (x p) (y p).
Definition add (p other : Point) : Point := mkPoint (x p + x other) (y p + y other).
Definition subtract (p other : Point) : Point := mkPoint (x p - x other) (y p - y other).
Definition multiply (p : Point) (scalar : Q) : Point := mkPoint (x p * scalar) (y p * scalar).

Definition distanceTo (p other : Point) : Distance :=
  let dx := x p - x other in
  let dy := y p - y other in
  Sqrt (dx * dx + dy * dy).

Definition equals (p other : Point) : bool :=
  Qeq_bool (x p) (x other) && Qeq_bool (y p) (y other).

Record Rectangle := mkRectangle { rx : Q; ry : Q; rwidth : Q; rheight : Q }.

Definition left (r : Rectangle) : Q := rx r.
Definition right (r : Rectangle) : Q := rx r + rwidth r.
Definition top (r : Rectangle) : Q := ry r.
Definition bottom (r : Rectangle) : Q := ry r + rheight r.
Definition centerX (r : Rectangle) : Q := rx r + rwidth r / 2.
Definition centerY (r : Rectangle) : Q := ry r + rheight r / 2.
Definition center (r : Rectangle) : Point := mkPoint (centerX r) (centerY r).

Definition contains (r : Rectangle) (point : Point) : bool :=
  Qle_bool (left r) (x point) && Qle_bool (x point) (right r) &&
  Qle_bool (top r) (y point) && Qle_bool (y point) (bottom r).

Definition intersects (r other : Rectangle) : bool :=
  negb (Qltb (right r) (left other) || Qltb (right other) (left r) ||
        Qltb (bottom r) (top other) || Qltb (bottom other) (top r)).

Definition union (r other : Rectangle) : Rectangle :=
  let x0 := Math_min (rx r) (rx other) in
  let y0 := Math_min (ry r) (ry other) in
  let right0 := Math_max (right r) (right other) in
  let bottom0 := Math_max (bottom r) (bottom other) in
  mkRectangle x0 y0 (right0 - x0) (bottom0 - y0).

Definition expand (r : Rectangle) (amount : Q) : Rectangle :=
  mkRectangle (rx r - amount) (ry r - amount)
              (rwidth r + amount * 2) (rheight r + amount * 2).

Definition getConnectionPoint (r : Rectangle) (side : string) : Point :=
  if String.eqb side "top" then mkPoint (centerX r) (top r)
  else if String.eqb side "right" then mkPoint (right r) (centerY r)
  else if String.eqb side "bottom" then mkPoint (centerX r) (bottom r)
  else if String.eqb side "left" then mkPoint (left r) (centerY r)
  else center r.

(** The [for ... of Object.entries(points)] loop, one iteration. *)
Definition nearer (point : Point) (acc : string * Distance) (entry : string * Point)
  : string * Distance :=
  let '(nearest, minDist) := acc in
  let '(side, p) := entry in
  let dist := distanceTo point p in
  if dist_ltb dist minDist then (side, dist) else (nearest, minDist).

Definition getNearestConnectionPoint (r : Rectangle) (point : Point) : string * Point :=
  let points :=
    [("top", getConnectionPoint r "top");
     ("right", getConnectionPoint r "right");
     ("bottom", getConnectionPoint r "bottom");
     ("left", getConnectionPoint r "left")] in
  let nearest := fst (fold_left (nearer point) points ("top", Infinity)) in
  (nearest, default (center r) (JsMap.get nearest points)).

(** [snapToGrid(value, gridSize)]; every call site passes 20. *)
Definition snapToGrid (value gridSize : Q) : Q :=
  Math_round (value / gridSize) * gridSize.

Definition snapPointToGrid (point : Point) (gridSize : Q) : Point :=
  mkPoint (snapToGrid (x point) gridSize) (snapToGrid (y point) gridSize).

Definition clamp (value min max : Q) : Q := Math_min (Math_max value min) max.

(** [dist <= threshold] for a distance [Math.sqrt(r)]: the square root of
    a non-negative [r] is at most [threshold] exactly when [threshold] is
    non-negative and [r] is at most its square; of a negative [r] it is
    [NaN], which compares [false]. *)
Definition dist_leb (a : Distance) (threshold : Q) : bool :=
  match a with
  | Sqrt r => Qle_bool 0 r && Qle_bool 0 threshold && Qle_bool r (threshold * threshold)
  | Infinity => false
  end.

End Geometry.

(* ===================================================================== *)
(** ** Shape.js *)
(* ===================================================================== *)

Module Shape.
Local Open Scope Q_scope.

Record t := mk {
  id : string;
  type : string;
  diagramType : string;
  x : Q;
  y : Q;
  width : Q;
  height : Q;
  properties : JsObject;
  style : JsObject;
  selected : bool;
  hovered : bool;
  editing : bool;
  minWidth : Q;
  minHeight : Q;
  resizable : bool
}.

(** The [options] argument of the constructor: every field may be
    missing. [resizable] is only compared with [false]. *)
Record Options := mkOptions {
  o_id : option string;
  o_type : option string;
  o_diagramType : option string;
  o_x : option Q;
  o_y : option Q;
  o_width : option Q;
  o_height : option Q;
  o_name : option JsValue;
  o_stereotype : option JsValue;
  o_properties : option JsObject;
  o_style : option JsObject;
  o_minWidth : option Q;
  o_minHeight : option Q;
  o_resizable : option bool
}.

Definition noOptions : Options :=
  mkOptions None None None None None None None None None None None None None None.

Definition defaultStyle : JsObject :=
  {[ "fill" := VStr "#FFFFFF"; "stroke" := VStr "#333333";
     "strokeWidth" := VNum (3 # 2) ]}.

(** [new Shape(options)]; [fresh] is what [generateId('shape')] returns. *)
Definition new (fresh : string) (options : Options) : t :=
  {| id := or_str (o_id options) fresh;
     type := or_str (o_type options) "rectangle";
     diagramType := or_str (o_diagramType options) "generic";
     x := or_num (o_x options) 0;
     y := or_num (o_y options) 0;
     width := or_num (o_width options) 120;
     height := or_num (o_height options) 60;
     properties :=
       assign {[ "name" := or_val (o_name options) (VStr "");
                 "stereotype" := or_val (o_stereotype options) (VStr "") ]}
              (default ∅ (o_properties options));
     style := assign defaultStyle (default ∅ (o_style options));
     selected := false;
     hovered := false;
     editing := false;
     minWidth := or_num (o_minWidth options) 40;
     minHeight := or_num (o_minHeight options) 30;
     resizable := default true (o_resizable options) |}.

Definition getBounds (s : t) : Geometry.Rectangle :=
  Geometry.mkRectangle (x s) (y s) (width s) (height s).

Definition setPosition (x' y' : Q) (s : t) : t :=
  {| id := id s; type := type s; diagramType := diagramType s;
     x := x'; y := y'; width := width s; height := height s;
     properties := properties s; style := style s;
     selected := selected s; hovered := hovered s; editing := editing s;
     minWidth := minWidth s; minHeight := minHeight s; resizable := resizable s |}.

Definition setSize (width' height' : Q) (s : t) : t :=
  {| id := id s; type := type s; diagramType := diagramType s;
     x := x s; y := y s;
     width := Math_max width' (minWidth s);
     height := Math_max height' (minHeight s);
     properties := properties s; style := style s;
     selected := selected s; hovered := hovered s; editing := editing s;
     minWidth := minWidth s; minHeight := minHeight s; resizable := resizable s |}.

Definition move (dx dy : Q) (s : t) : t :=
  {| id := id s; type := type s; diagramType := diagramType s;
     x := x s + dx; y := y s + dy; width := width s; height := height s;
     properties := properties s; style := style s;
     selected := selected s; hovered := hovered s; editing := editing s;
     minWidth := minWidth s; minHeight := minHeight s; resizable := resizable s |}.

(** [doResize] assigns the four fields directly. *)
Definition assignBounds (x' y' width' height' : Q) (s : t) : t :=
  {| id := id s; type := type s; diagramType := diagramType s;
     x := x'; y := y'; width := width'; height := height';
     properties := properties s; style := style s;
     selected := selected s; hovered := hovered s; editing := editing s;
     minWidth := minWidth s; minHeight := minHeight s; resizable := resizable s |}.

(** [shape.diagramType = ...], as [Diagram.addShape] does. *)
Definition setDiagramType (dt : string) (s : t) : t :=
  {| id := id s; type := type s; diagramType := dt;
     x := x s; y := y s; width := width s; height := height s;
     properties := properties s; style := style s;
     selected := selected s; hovered := hovered s; editing := editing s;
     minWidth := minWidth s; minHeight := minHeight s; resizable := resizable s |}.

Definition containsPoint (s : t) (point : Geometry.Point) : bool :=
  Geometry.contains (getBounds s) point.

Definition getConnectionPoints (s : t) : JsMap.t Geometry.Point :=
  let bounds := getBounds s in
  [("top", Geometry.getConnectionPoint bounds "top");
   ("right", Geometry.getConnectionPoint bounds "right");
   ("bottom", Geometry.getConnectionPoint bounds "bottom");
   ("left", Geometry.getConnectionPoint bounds "left");
   ("center", Geometry.center bounds)].

Definition getNearestConnectionPoint (s : t) (point : Geometry.Point)
  : string * Geometry.Point :=
  Geometry.getNearestConnectionPoint (getBounds s) point.

Definition setSelected (b : bool) (s : t) : t :=
  {| id := id s; type := type s; diagramType := diagramType s;
     x := x s; y := y s; width := width s; height := height s;
     properties := properties s; style := style s;
     selected := b; hovered := hovered s; editing := editing s;
     minWidth := minWidth s; minHeight := minHeight s; resizable := resizable s |}.

Definition setHovered (b : bool) (s : t) : t :=
  {| id := id s; type := type s; diagramType := diagramType s;
     x := x s; y := y s; width := width s; height := height s;
     properties := properties s; style := style s;
     selected := selected s; hovered := b; editing := editing s;
     minWidth := minWidth s; minHeight := minHeight s; resizable := resizable s |}.

Definition setProperty (key : string) (value : JsValue) (s : t) : t :=
  {| id := id s; type := type s; diagramType := diagramType s;
     x := x s; y := y s; width := width s; height := height s;
     properties := <[key := value]> (properties s); style := style s;
     selected := selected s; hovered := hovered s; editing := editing s;
     minWidth := minWidth s; minHeight := minHeight s; resizable := resizable s |}.

Definition setStyle (style' : JsObject) (s : t) : t :=
  {| id := id s; type := type s; diagramType := diagramType s;
     x := x s; y := y s; width := width s; height := height s;
     properties := properties s; style := assign (style s) style';
     selected := selected s; hovered := hovered s; editing := editing s;
     minWidth := minWidth s; minHeight := minHeight s; resizable := resizable s |}.

(** The object [toJSON()] returns. *)
Record JSON := mkJSON {
  j_id : string;
  j_type : string;
  j_diagramType : string;
  j_x : Q;
  j_y : Q;
  j_width : Q;
  j_height : Q;
  j_properties : JsObject;
  j_style : JsObject
}.

Definition toJSON (s : t) : JSON :=
  {| j_id := id s; j_type := type s; j_diagramType := diagramType s;
     j_x := x s; j_y := y s; j_width := width s; j_height := height s;
     j_properties := properties s; j_style := style s |}.

(** A serialized shape read as constructor options: the fields the
    constructor looks up and [toJSON] does not write are missing. *)
Definition optionsOfJSON (data : JSON) : Options :=
  {| o_id := Some (j_id data);
     o_type := Some (j_type data);
     o_diagramType := Some (j_diagramType data);
     o_x := Some (j_x data);
     o_y := Some (j_y data);
     o_width := Some (j_width data);
     o_height := Some (j_height data);
     o_name := None;
     o_stereotype := None;
     o_properties := Some (j_properties data);
     o_style := Some (j_style data);
     o_minWidth := None;
     o_minHeight := None;
     o_resizable := None |}.

(** [Shape.fromJSON(data)] is [new Shape(data)]. *)
Definition fromJSON (fresh : string) (data : JSON) : t :=
  new fresh (optionsOfJSON data).
End Shape.

(* ===================================================================== *)
(** ** Connection.js *)
(* ===================================================================== *)

Module Connection.
Local Open Scope Q_scope.

(** [{shapeId, anchor}]; [shapeId] is [null] until connected. *)
Record Endpoint := mkEndpoint { shapeId : option string; anchor : string }.

Record t := mk {
  id : string;
  type : string;
  diagramType : string;
  source : Endpoint;
  target : Endpoint;
  waypoints : list Geometry.Point;
  properties : JsObject;
  style : JsObject;
  selected : bool;
  hovered : bool;
  (** Shape references, set by the diagram; [None] is [null] or
      [undefined]. *)
  sourceShape : option ref;
  targetShape : option ref
}.

Record Options := mkOptions {
  o_id : option string;
  o_type : option string;
  o_diagramType : option string;
  o_sourceId : option string;
  o_sourceAnchor : option string;
  o_targetId : option string;
  o_targetAnchor : option string;
  o_waypoints : option (list Geometry.Point);
  o_label : option JsValue;
  o_properties : option JsObject;
  o_style : option JsObject
}.

Definition noOptions : Options :=
  mkOptions None None None None None None None None None None None.

Definition defaultStyle : JsObject :=
  {[ "stroke" := VStr "#333333"; "strokeWidth" := VNum (3 # 2);
     "lineStyle" := VStr "solid"; "sourceArrow" := VStr "none";
     "targetArrow" := VStr "filled" ]}.

(** [new Connection(options)]; [fresh] is what [generateId('conn')]
    returns. *)
Definition new (fresh : string) (options : Options) : t :=
  {| id := or_str (o_id options) fresh;
     type := or_str (o_type options) "association";
     diagramType := or_str (o_diagramType options) "generic";
     source := {| shapeId := or_null (o_sourceId options);
                  anchor := or_str (o_sourceAnchor options) "auto" |};
     target := {| shapeId := or_null (o_targetId options);
                  anchor := or_str (o_targetAnchor options) "auto" |};
     waypoints := default [] (o_waypoints options);
     properties :=
       assign {[ "label" := or_val (o_label options) (VStr "") ]}
              (default ∅ (o_properties options));
     style := assign defaultStyle (default ∅ (o_style options));
     selected := false;
     hovered := false;
     sourceShape := None;
     targetShape := None |}.

Definition setDiagramType (dt : string) (c : t) : t :=
  {| id := id c; type := type c; diagramType := dt;
     source := source c; target := target c; waypoints := waypoints c;
     properties := properties c; style := style c;
     selected := selected c; hovered := hovered c;
     sourceShape := sourceShape c; targetShape := targetShape c |}.

Definition setSourceShape (r : option ref) (c : t) : t :=
  {| id := id c; type := type c; diagramType := diagramType c;
     source := source c; target := target c; waypoints := waypoints c;
     properties := properties c; style := style c;
     selected := selected c; hovered := hovered c;
     sourceShape := r; targetShape := targetShape c |}.

Definition setTargetShape (r : option ref) (c : t) : t :=
  {| id := id c; type := type c; diagramType := diagramType c;
     source := source c; target := target c; waypoints := waypoints c;
     properties := properties c; style := style c;
     selected := selected c; hovered := hovered c;
     sourceShape := sourceShape c; targetShape := r |}.

Definition setWaypoints (ws : list Geometry.Point) (c : t) : t :=
  {| id := id c; type := type c; diagramType := diagramType c;
     source := source c; target := target c; waypoints := ws;
     properties := properties c; style := style c;
     selected := selected c; hovered := hovered c;
     sourceShape := sourceShape c; targetShape := targetShape c |}.

Definition setSelected (b : bool) (c : t) : t :=
  {| id := id c; type := type c; diagramType := diagramType c;
     source := source c; target := target c; waypoints := waypoints c;
     properties := properties c; style := style c;
     selected := b; hovered := hovered c;
     sourceShape := sourceShape c; targetShape := targetShape c |}.

Definition setProperty (key : string) (value : JsValue) (c : t) : t :=
  {| id := id c; type := type c; diagramType := diagramType c;
     source := source c; target := target c; waypoints := waypoints c;
     properties := <[key := value]> (properties c); style := style c;
     selected := selected c; hovered := hovered c;
     sourceShape := sourceShape c; targetShape := targetShape c |}.

(** [setSource(shape, anchor)] and [setTarget(shape, anchor)]; the shape
    is given by its reference and its id. *)
Definition setSource (shape : option (ref * string)) (anchor' : string) (c : t) : t :=
  {| id := id c; type := type c; diagramType := diagramType c;
     source := {| shapeId := snd <$> shape; anchor := anchor' |};
     target := target c; waypoints := waypoints c;
     properties := properties c; style := style c;
     selected := selected c; hovered := hovered c;
     sourceShape := fst <$> shape; targetShape := targetShape c |}.

Definition setTarget (shape : option (ref * string)) (anchor' : string) (c : t) : t :=
  {| id := id c; type := type c; diagramType := diagramType c;
     source := source c;
     target := {| shapeId := snd <$> shape; anchor := anchor' |};
     waypoints := waypoints c;
     properties := properties c; style := style c;
     selected := selected c; hovered := hovered c;
     sourceShape := sourceShape c; targetShape := fst <$> shape |}.

Section Geometry.
(** The shape objects the references stand for. *)
Variable shapes : gmap ref Shape.t.

Definition origin : Geometry.Point := Geometry.mkPoint 0 0.

(** [getStartPoint()]. [None] stands for [undefined] (an anchor that
    names no connection point) or for a reference to no object. The
    anchors are [auto] and the five keys of [getConnectionPoints]; an
    anchor that names a method every object inherits, such as
    [toString], is not modelled. *)
Definition getStartPoint (c : t) : option Geometry.Point :=
  match sourceShape c with
  | None => Some origin
  | Some src =>
      sourceObj ← shapes !! src;
      if String.eqb (anchor (source c)) "auto" then
        targetCenter ←
          match targetShape c with
          | Some tgt => (fun o => Geometry.center (Shape.getBounds o)) <$> shapes !! tgt
          | None => Some (match waypoints c with
                          | w :: _ => w
                          | [] => origin
                          end)
          end;
        Some (snd (Shape.getNearestConnectionPoint sourceObj targetCenter))
      else JsMap.get (anchor (source c)) (Shape.getConnectionPoints sourceObj)
  end.

(** [getEndPoint()] *)
Definition getEndPoint (c : t) : option Geometry.Point :=
  match targetShape c with
  | None => Some origin
  | Some tgt =>
      targetObj ← shapes !! tgt;
      if String.eqb (anchor (target c)) "auto" then
        sourceCenter ←
          match sourceShape c with
          | Some src => (fun o => Geometry.center (Shape.getBounds o)) <$> shapes !! src
          | None => Some (match rev (waypoints c) with
                          | w :: _ => w
                          | [] => origin
                          end)
          end;
        Some (snd (Shape.getNearestConnectionPoint targetObj sourceCenter))
      else JsMap.get (anchor (target c)) (Shape.getConnectionPoints targetObj)
  end.

(** [getPath()] *)
Definition getPath (c : t) : option (list Geometry.Point) :=
  start ← getStartPoint c;
  end_ ← getEndPoint c;
  Some (start :: waypoints c ++ [end_]).
End Geometry.

(** [addWaypoint(point, index)], [moveWaypoint], [removeWaypoint];
    indices are integers. *)
Definition addWaypoint (point : Geometry.Point) (index : Z) (c : t) : t :=
  let n := length (waypoints c) in
  let index := if (index <? 0)%Z || (Z.of_nat n <? index)%Z then n else Z.to_nat index in
  setWaypoints (take index (waypoints c) ++ point :: drop index (waypoints c)) c.

Definition moveWaypoint (index : Z) (point : Geometry.Point) (c : t) : t :=
  if (0 <=? index)%Z && (index <? Z.of_nat (length (waypoints c)))%Z
  then setWaypoints (<[Z.to_nat index := point]> (waypoints c)) c
  else c.

Definition removeWaypoint (index : Z) (c : t) : t :=
  if (0 <=? index)%Z && (index <? Z.of_nat (length (waypoints c)))%Z
  then setWaypoints (take (Z.to_nat index) (waypoints c)
                       ++ drop (S (Z.to_nat index)) (waypoints c)) c
  else c.

(** The object [toJSON()] returns; a waypoint is written as [{x, y}]. *)
Record JSON := mkJSON {
  j_id : string;
  j_type : string;
  j_diagramType : string;
  j_source : Endpoint;
  j_target : Endpoint;
  j_waypoints : list (Q * Q);
  j_properties : JsObject;
  j_style : JsObject
}.

Definition toJSON (c : t) : JSON :=
  {| j_id := id c; j_type := type c; j_diagramType := diagramType c;
     j_source := source c; j_target := target c;
     j_waypoints := map (fun p => (Geometry.x p, Geometry.y p)) (waypoints c);
     j_properties := properties c; j_style := style c |}.

(** A serialized connection read as constructor options. The constructor
    looks up [sourceId], [sourceAnchor], [targetId], [targetAnchor] and
    [label]; [toJSON] writes none of them ([source] and [target] are
    written instead), so they are missing. *)
Definition optionsOfJSON (data : JSON) : Options :=
  {| o_id := Some (j_id data);
     o_type := Some (j_type data);
     o_diagramType := Some (j_diagramType data);
     o_sourceId := None;
     o_sourceAnchor := None;
     o_targetId := None;
     o_targetAnchor := None;
     o_waypoints := Some (map (fun p => Geometry.mkPoint (fst p) (snd p)) (j_waypoints data));
     o_label := None;
     o_properties := Some (j_properties data);
     o_style := Some (j_style data) |}.

(** [Connection.fromJSON(data)] *)
Definition fromJSON (fresh : string) (data : JSON) : t :=
  let conn := new fresh (optionsOfJSON data) in
  setWaypoints (map (fun p => Geometry.mkPoint (fst p) (snd p)) (j_waypoints data)) conn.

(** [pointToLineDistance(point, lineStart, lineEnd)] *)
Definition pointToLineDistance (point lineStart lineEnd : Geometry.Point)
  : Geometry.Distance :=
  let A := Geometry.x point - Geometry.x lineStart in
  let B := Geometry.y point - Geometry.y lineStart in
  let C := Geometry.x lineEnd - Geometry.x lineStart in
  let D := Geometry.y lineEnd - Geometry.y lineStart in
  let dot := A * C + B * D in
  let lenSq := C * C + D * D in
  let param := if negb (Qeq_bool lenSq 0) then dot / lenSq else - (1) in
  let '(xx, yy) :=
    if Qltb param 0 then (Geometry.x lineStart, Geometry.y lineStart)
    else if Qltb 1 param then (Geometry.x lineEnd, Geometry.y lineEnd)
    else (Geometry.x lineStart + param * C, Geometry.y lineStart + param * D) in
  let dx := Geometry.x point - xx in
  let dy := Geometry.y point - yy in
  Geometry.Sqrt (dx * dx + dy * dy).

(** The loop of [isPointNear] over the segments of a path. A point of the
    path that is [undefined] makes [pointToLineDistance] throw when its
    segment is reached: [None]. *)
Fixpoint nearPath (point : Geometry.Point) (threshold : Q)
    (path : list (option Geometry.Point)) : option bool :=
  match path with
  | a :: (b :: _) as rest =>
      lineStart ← a;
      lineEnd ← b;
      if Geometry.dist_leb (pointToLineDistance point lineStart lineEnd) threshold
      then Some true
      else nearPath point threshold rest
  | _ => Some false
  end.

(** [isPointNear(point, threshold)] *)
Definition isPointNear (shapes : gmap ref Shape.t) (point : Geometry.Point) (threshold : Q)
    (c : t) : option bool :=
  nearPath point threshold
    (getStartPoint shapes c :: map Some (waypoints c) ++ [getEndPoint shapes c]).
End Connection.

(* ===================================================================== *)
(** ** Diagram.js *)
(* ===================================================================== *)

Module Diagram.
Local Open Scope Q_scope.

Record Viewport := mkViewport { vx : Q; vy : Q; zoom : Q }.

(** The diagram object: two [Map]s from ids to objects. *)
Record t := mk {
  id : string;
  type : string;
  name : string;
  created : string;
  modified : string;
  shapes : JsMap.t ref;
  connections : JsMap.t ref;
  viewport : Viewport;
  metadata : JsObject
}.

Record ViewportOptions := mkViewportOptions {
  o_vx : option Q; o_vy : option Q; o_zoom : option Q
}.

Record Options := mkOptions {
  o_id : option string;
  o_type : option string;
  o_name : option string;
  o_created : option string;
  o_modified : option string;
  o_viewport : option ViewportOptions;
  o_metadata : option JsObject
}.

Definition defaultMetadata : JsObject :=
  {[ "author" := VStr ""; "version" := VStr "1.0" ]}.

(** [new Diagram(options)]; [fresh] is what [generateId('diagram')]
    returns and [date] what [new Date().toISOString()] returns. *)
Definition new (fresh date : string) (options : Options) : t :=
  {| id := or_str (o_id options) fresh;
     type := or_str (o_type options) "sequence";
     name := or_str (o_name options) "Untitled Diagram";
     created := or_str (o_created options) date;
     modified := or_str (o_modified options) date;
     shapes := JsMap.empty;
     connections := JsMap.empty;
     viewport := {| vx := or_num (o_viewport options ≫= o_vx) 0;
                    vy := or_num (o_viewport options ≫= o_vy) 0;
                    zoom := or_num (o_viewport options ≫= o_zoom) 1 |};
     metadata := assign defaultMetadata (default ∅ (o_metadata options)) |}.

(** The state the model code runs on: the shape and connection objects,
    the diagram that refers to them, the clock read by
    [new Date().toISOString()], and the next unused reference. *)
Record Model := mkModel {
  shapeObjs : gmap ref Shape.t;
  connObjs : gmap ref Connection.t;
  diagram : t;
  now : string;
  nextRef : ref
}.

Definition setShapeObjs (h : gmap ref Shape.t) (m : Model) : Model :=
  {| shapeObjs := h; connObjs := connObjs m; diagram := diagram m;
     now := now m; nextRef := nextRef m |}.
Definition setConnObjs (h : gmap ref Connection.t) (m : Model) : Model :=
  {| shapeObjs := shapeObjs m; connObjs := h; diagram := diagram m;
     now := now m; nextRef := nextRef m |}.
Definition setDiagram (d : t) (m : Model) : Model :=
  {| shapeObjs := shapeObjs m; connObjs := connObjs m; diagram := d;
     now := now m; nextRef := nextRef m |}.

Definition setShapes (sh : JsMap.t ref) (date : string) (d : t) : t :=
  {| id := id d; type := type d; name := name d; created := created d;
     modified := date; shapes := sh; connections := connections d;
     viewport := viewport d; metadata := metadata d |}.
Definition setConnections (cs : JsMap.t ref) (date : string) (d : t) : t :=
  {| id := id d; type := type d; name := name d; created := created d;
     modified := date; shapes := shapes d; connections := cs;
     viewport := viewport d; metadata := metadata d |}.

(** [new] objects: the object is stored under the next reference. *)
Definition allocShape (s : Shape.t) (m : Model) : ref * Model :=
  (nextRef m,
   {| shapeObjs := <[nextRef m := s]> (shapeObjs m); connObjs := connObjs m;
      diagram := diagram m; now := now m; nextRef := Pos.succ (nextRef m) |}).
Definition allocConnection (c : Connection.t) (m : Model) : ref * Model :=
  (nextRef m,
   {| shapeObjs := shapeObjs m; connObjs := <[nextRef m := c]> (connObjs m);
      diagram := diagram m; now := now m; nextRef := Pos.succ (nextRef m) |}).

(** [addShape(shape)]. A reference to no object stands for a call with
    [undefined], which throws at the first property access. *)
Definition addShape (shape : ref) (m : Model) : Outcome Model unit :=
  match shapeObjs m !! shape with
  | None => Throw "TypeError" m
  | Some s =>
      let s' := Shape.setDiagramType (type (diagram m)) s in
      Return tt
        (setDiagram
           (setShapes (JsMap.set (Shape.id s') shape (shapes (diagram m)))
                      (now m) (diagram m))
           (setShapeObjs (<[shape := s']> (shapeObjs m)) m))
  end.

(** [removeShape(shapeId)], returning the removed shape if any. *)
Definition removeShape (shapeId : string) (m : Model) : option ref * Model :=
  match JsMap.get shapeId (shapes (diagram m)) with
  | Some shape =>
      (Some shape,
       setDiagram (setShapes (JsMap.delete shapeId (shapes (diagram m)))
                             (now m) (diagram m)) m)
  | None => (None, m)
  end.

Definition getShape (shapeId : string) (m : Model) : option ref :=
  JsMap.get shapeId (shapes (diagram m)).

Definition getShapes (m : Model) : list ref :=
  JsMap.values (shapes (diagram m)).

(** "Link to shapes": [if (e.shapeId) ref = this.shapes.get(e.shapeId)] *)
Definition resolve (d : t) (e : Connection.Endpoint) (current : option ref)
  : option ref :=
  match Connection.shapeId e with
  | Some sid => if truthy_str sid then JsMap.get sid (shapes d) else current
  | None => current
  end.

Definition link (d : t) (c : Connection.t) : Connection.t :=
  let c1 := Connection.setSourceShape
              (resolve d (Connection.source c) (Connection.sourceShape c)) c in
  Connection.setTargetShape
    (resolve d (Connection.target c1) (Connection.targetShape c1)) c1.

(** [addConnection(connection)] *)
Definition addConnection (connection : ref) (m : Model) : Outcome Model unit :=
  match connObjs m !! connection with
  | None => Throw "TypeError" m
  | Some c =>
      let c' := link (diagram m) (Connection.setDiagramType (type (diagram m)) c) in
      Return tt
        (setDiagram
           (setConnections
              (JsMap.set (Connection.id c') connection (connections (diagram m)))
              (now m) (diagram m))
           (setConnObjs (<[connection := c']> (connObjs m)) m))
  end.

(** [removeConnection(connectionId)] *)
Definition removeConnection (connectionId : string) (m : Model) : option ref * Model :=
  match JsMap.get connectionId (connections (diagram m)) with
  | Some connection =>
      (Some connection,
       setDiagram (setConnections (JsMap.delete connectionId (connections (diagram m)))
                                  (now m) (diagram m)) m)
  | None => (None, m)
  end.

Definition getConnection (connectionId : string) (m : Model) : option ref :=
  JsMap.get connectionId (connections (diagram m)).

Definition getConnections (m : Model) : list ref :=
  JsMap.values (connections (diagram m)).

(** [e.shapeId === shapeId] *)
Definition endpointIs (shapeId : string) (e : Connection.Endpoint) : bool :=
  match Connection.shapeId e with
  | Some sid => String.eqb sid shapeId
  | None => false
  end.

Definition touches (shapeId : string) (c : Connection.t) : bool :=
  endpointIs shapeId (Connection.source c) || endpointIs shapeId (Connection.target c).

(** [Array.prototype.filter] over objects given by reference; [None]
    when a reference stands for no object. *)
Fixpoint filterObjs {A} (objs : gmap ref A) (p : A -> bool) (rs : list ref)
  : option (list ref) :=
  match rs with
  | [] => Some []
  | r :: rs' =>
      o ← objs !! r;
      rest ← filterObjs objs p rs';
      Some (if p o then r :: rest else rest)
  end.

(** [getConnectionsForShape(shapeId)] *)
Definition getConnectionsForShape (shapeId : string) (m : Model) : option (list ref) :=
  filterObjs (connObjs m) (touches shapeId) (getConnections m).

(** [clear()] *)
Definition clear (m : Model) : Model :=
  setDiagram (setShapes JsMap.empty (now m)
                (setConnections JsMap.empty (now m) (diagram m))) m.

(** The object [toJSON()] returns. *)
Record JSON := mkJSON {
  j_id : string;
  j_type : string;
  j_name : string;
  j_created : string;
  j_modified : string;
  j_viewport : Viewport;
  j_metadata : JsObject;
  j_shapes : list Shape.JSON;
  j_connections : list Connection.JSON
}.

Fixpoint mapObjs {A B} (objs : gmap ref A) (f : A -> B) (rs : list ref)
  : option (list B) :=
  match rs with
  | [] => Some []
  | r :: rs' =>
      o ← objs !! r;
      rest ← mapObjs objs f rs';
      Some (f o :: rest)
  end.

(** [toJSON()]; [None] when the diagram refers to no object somewhere. *)
Definition toJSON (m : Model) : option JSON :=
  let d := diagram m in
  ss ← mapObjs (shapeObjs m) Shape.toJSON (getShapes m);
  cs ← mapObjs (connObjs m) Connection.toJSON (getConnections m);
  Some {| j_id := id d; j_type := type d; j_name := name d;
          j_created := created d; j_modified := modified d;
          j_viewport := viewport d; j_metadata := metadata d;
          j_shapes := ss; j_connections := cs |}.

Definition optionsOfJSON (data : JSON) : Options :=
  {| o_id := Some (j_id data);
     o_type := Some (j_type data);
     o_name := Some (j_name data);
     o_created := Some (j_created data);
     o_modified := Some (j_modified data);
     o_viewport := Some {| o_vx := Some (vx (j_viewport data));
                           o_vy := Some (vy (j_viewport data));
                           o_zoom := Some (zoom (j_viewport data)) |};
     o_metadata := Some (j_metadata data) |}.

(** "Restore shapes": one iteration stores the created shape under its
    id directly in the [Map]. *)
Definition restoreShape (shapeFactory : Shape.JSON -> Shape.t)
    (m : Model) (shapeData : Shape.JSON) : Model :=
  let shape := shapeFactory shapeData in
  let '(r, m1) := allocShape shape m in
  setDiagram (setShapes (JsMap.set (Shape.id shape) r (shapes (diagram m1)))
                        (modified (diagram m1)) (diagram m1)) m1.

(** "Restore connections": one iteration. *)
Definition restoreConnection (connectionFactory : Connection.JSON -> Connection.t)
    (m : Model) (connData : Connection.JSON) : Model :=
  let conn := link (diagram m) (connectionFactory connData) in
  let '(r, m1) := allocConnection conn m in
  setDiagram (setConnections (JsMap.set (Connection.id conn) r (connections (diagram m1)))
                             (modified (diagram m1)) (diagram m1)) m1.

(** [Diagram.fromJSON(data, shapeFactory, connectionFactory)]: the new
    diagram with the objects the factories created. A factory may be
    missing. *)
Definition fromJSON (fresh date : string) (data : JSON)
    (shapeFactory : option (Shape.JSON -> Shape.t))
    (connectionFactory : option (Connection.JSON -> Connection.t)) : Model :=
  let m0 := {| shapeObjs := ∅; connObjs := ∅;
               diagram := new fresh date (optionsOfJSON data);
               now := date; nextRef := 1%positive |} in
  let m1 := match shapeFactory with
            | Some f => fold_left (restoreShape f) (j_shapes data) m0
            | None => m0
            end in
  match connectionFactory with
  | Some f => fold_left (restoreConnection f) (j_connections data) m1
  | None => m1
  end.

(** A [for ... of] loop that returns the first object a test accepts;
    the outer [None] when the test throws or a reference stands for no
    object. *)
Fixpoint findFirst {A} (objs : gmap ref A) (p : A -> option bool) (rs : list ref)
  : option (option ref) :=
  match rs with
  | [] => Some None
  | r :: rs' =>
      o ← objs !! r;
      b ← p o;
      if b : bool then Some (Some r) else findFirst objs p rs'
  end.

(** [findShapeAtPoint(point)]: "Search in reverse order (top-most first)" *)
Definition findShapeAtPoint (point : Geometry.Point) (m : Model) : option (option ref) :=
  findFirst (shapeObjs m) (fun s => Some (Shape.containsPoint s point)) (rev (getShapes m)).

(** [findConnectionAtPoint(point, threshold)]; the default threshold is
    10. *)
Definition findConnectionAtPoint (point : Geometry.Point) (threshold : Q) (m : Model)
  : option (option ref) :=
  findFirst (connObjs m) (Connection.isPointNear (shapeObjs m) point threshold)
            (getConnections m).

(** [findElementAtPoint(point)]: a shape ([inl]) or a connection
    ([inr]). *)
Definition findElementAtPoint (point : Geometry.Point) (m : Model)
  : option (option (ref + ref)) :=
  match findShapeAtPoint point m with
  | None => None
  | Some (Some shape) => Some (Some (inl shape))
  | Some None =>
      match findConnectionAtPoint point 10 m with
      | None => None
      | Some (Some connection) => Some (Some (inr connection))
      | Some None => Some None
      end
  end.

(** The calls that change the collections of a diagram. *)
Inductive Call :=
| AddShape (shape : ref)
| RemoveShape (shapeId : string)
| AddConnection (connection : ref)
| RemoveConnection (connectionId : string)
| Clear.

(** One call; after a call that throws the state is the one reached. *)
Definition call (m : Model) (c : Call) : Model :=
  match c with
  | AddShape shape => stateOf (addShape shape m)
  | RemoveShape shapeId => snd (removeShape shapeId m)
  | AddConnection connection => stateOf (addConnection connection m)
  | RemoveConnection connectionId => snd (removeConnection connectionId m)
  | Clear => clear m
  end.

Definition calls (cs : list Call) (m : Model) : Model := fold_left call cs m.

(** What [addConnection] makes of the connection object. *)
Definition relink (d : t) (c : Connection.t) : Connection.t :=
  link d (Connection.setDiagramType (type d) c).

(** An endpoint whose shape id names a shape of the diagram. *)
Definition present (m : Model) (e : Connection.Endpoint) : Prop :=
  exists sid, Connection.shapeId e = Some sid /\ is_Some (JsMap.get sid (shapes (diagram m))).

(** Every stored connection has both endpoints among the shapes. *)
Definition endpointsPresent (m : Model) : Prop :=
  forall k r c,
    JsMap.get k (connections (diagram m)) = Some r ->
    connObjs m !! r = Some c ->
    present m (Connection.source c) /\ present m (Connection.target c).

(** What holds of every diagram the methods above build: a [Map] has no
    key twice, and every entry refers to an object filed under its own
    id ([id] is never assigned after construction). *)
Definition filed {A} (objs : gmap ref A) (id : A -> string) (entries : JsMap.t ref) : Prop :=
  NoDup (JsMap.keys entries)
  /\ forall k r, In (k, r) entries -> exists o, objs !! r = Some o /\ id o = k.

Definition wf (m : Model) : Prop :=
  filed (shapeObjs m) Shape.id (shapes (diagram m))
  /\ filed (connObjs m) Connection.id (connections (diagram m)).
End Diagram.

(* ===================================================================== *)
(** ** CommandManager.js *)
(* ===================================================================== *)

(** The [Command] interface. Commands are objects: the history stacks hold
    references to them, and the world [W] holds the objects themselves, so
    [execute()] and [undo()] of the command behind a reference run on [W]
    and may also assign fields of the command. *)
Module Command.
Class Host (W : Type) := {
  execute : ref -> W -> Outcome W unit;
  undo : ref -> W -> Outcome W unit;
  getDescription : ref -> W -> option string
}.
End Command.

Module CommandManager.
Record t := mk {
  undoStack : list ref;
  redoStack : list ref;
  maxHistory : nat
}.

(** [new CommandManager()] *)
Definition new : t := {| undoStack := []; redoStack := []; maxHistory := 50 |}.

Definition canUndo (m : t) : bool := (0 <? length (undoStack m))%nat.
Definition canRedo (m : t) : bool := (0 <? length (redoStack m))%nat.

Record HistoryState := mkHistoryState {
  hs_canUndo : bool;
  hs_canRedo : bool;
  undoDescription : option string;
  redoDescription : option string;
  historyLength : nat
}.

(** "Limit history size": [if (length > maxHistory) shift()] *)
Definition limit (maxHistory : nat) (stack : list ref) : list ref :=
  if (maxHistory <? length stack)%nat then shift stack else stack.

(** [addToHistory(command)] *)
Definition addToHistory (command : ref) (m : t) : t :=
  {| undoStack := limit (maxHistory m) (push (undoStack m) command);
     redoStack := [];
     maxHistory := maxHistory m |}.

Section Manager.
Context {W : Type} `{Command.Host W}.

Definition getState (s : t * W) : HistoryState :=
  let '(m, w) := s in
  {| hs_canUndo := canUndo m;
     hs_canRedo := canRedo m;
     undoDescription := top (undoStack m) ≫= (fun c => Command.getDescription c w);
     redoDescription := top (redoStack m) ≫= (fun c => Command.getDescription c w);
     historyLength := length (undoStack m) |}.

(** [execute(command)]: an error of [command.execute()] is logged and
    rethrown; nothing of the manager has been assigned by then. *)
Definition execute (command : ref) (s : t * W) : Outcome (t * W) unit :=
  let '(m, w) := s in
  match Command.execute command w with
  | Return _ w' => Return tt (addToHistory command m, w')
  | Throw e w' => Throw e (m, w')
  end.

(** [undo()]: the popped command is pushed back when its [undo()]
    throws. *)
Definition undo (s : t * W) : bool * (t * W) :=
  let '(m, w) := s in
  if negb (canUndo m) then (false, s)
  else
    match pop (undoStack m) with
    | None => (false, s)
    | Some (command, rest) =>
        match Command.undo command w with
        | Return _ w' =>
            (true, ({| undoStack := rest;
                       redoStack := push (redoStack m) command;
                       maxHistory := maxHistory m |}, w'))
        | Throw _ w' =>
            (false, ({| undoStack := push rest command;
                        redoStack := redoStack m;
                        maxHistory := maxHistory m |}, w'))
        end
    end.

(** [redo()] *)
Definition redo (s : t * W) : bool * (t * W) :=
  let '(m, w) := s in
  if negb (canRedo m) then (false, s)
  else
    match pop (redoStack m) with
    | None => (false, s)
    | Some (command, rest) =>
        match Command.execute command w with
        | Return _ w' =>
            (true, ({| undoStack := push (undoStack m) command;
                       redoStack := rest;
                       maxHistory := maxHistory m |}, w'))
        | Throw _ w' =>
            (false, ({| undoStack := undoStack m;
                        redoStack := push rest command;
                        maxHistory := maxHistory m |}, w'))
        end
    end.
End Manager.

(** [clear()] *)
Definition clear (m : t) : t :=
  {| undoStack := []; redoStack := []; maxHistory := maxHistory m |}.

(** The calls a client can make, and the history they produce. *)
Inductive Call :=
| Execute (command : ref)
| AddToHistory (command : ref)
| Undo
| Redo.

Section Calls.
Context {W : Type} `{Command.Host W}.

(** One call; an error thrown by [execute] is left to the caller, the
    state is the one reached. *)
Definition call (s : t * W) (c : Call) : t * W :=
  match c with
  | Execute command => stateOf (execute command s)
  | AddToHistory command => (addToHistory command (fst s), snd s)
  | Undo => snd (undo s)
  | Redo => snd (redo s)
  end.

Definition calls (cs : list Call) (s : t * W) : t * W := fold_left call cs s.

(** A run of [execute] and [addToHistory] calls none of which throws,
    with the commands recorded in call order. *)
Fixpoint record (cs : list Call) (s : t * W) : option (list ref * (t * W)) :=
  match cs with
  | [] => Some ([], s)
  | Execute command :: cs' =>
      match execute command s with
      | Return _ s' =>
          '(done, s'') ← record cs' s';
          Some (command :: done, s'')
      | Throw _ _ => None
      end
  | AddToHistory command :: cs' =>
      '(done, s'') ← record cs' (addToHistory command (fst s), snd s);
      Some (command :: done, s'')
  | (Undo | Redo) :: _ => None
  end.
End Calls.
End CommandManager.

(* ===================================================================== *)
(** ** Commands.js *)
(* ===================================================================== *)

Module Commands.
Import Diagram.
Local Open Scope Q_scope.

(** [{x, y, width, height}] *)
Record Bounds := mkBounds { bx : Q; by_ : Q; bwidth : Q; bheight : Q }.

(** The [element] of a property or style update: a shape or a
    connection. *)
Inductive Element := ShapeElement (r : ref) | ConnectionElement (r : ref).

(** The command classes with their fields. All commands of an editor
    hold the same [diagram], the one of the model. *)
Inductive Body :=
| AddShapeCommand (shape : ref)
| RemoveShapeCommand (shape : ref) (relatedConnections : list ref)
| MoveShapesCommand (shapes : list ref) (dx dy : Q)
| ResizeShapeCommand (shape : ref) (oldBounds newBounds : Bounds)
| AddConnectionCommand (connection : ref)
| RemoveConnectionCommand (connection : ref)
| UpdatePropertyCommand (element : Element) (property : string) (oldValue newValue : JsValue)
| UpdateStyleCommand (element : Element) (oldStyle newStyle : JsObject).

(** A command object; [timestamp] is never read and left out. *)
Record t := mk { description : string; body : Body }.

(** The constructors; [None] when the argument is no object. *)
Definition newAddShapeCommand (shape : ref) (m : Model) : option t :=
  s ← shapeObjs m !! shape;
  Some (mk ("Add " ++ Shape.type s) (AddShapeCommand shape)).

Definition newRemoveShapeCommand (shape : ref) (m : Model) : option t :=
  s ← shapeObjs m !! shape;
  Some (mk ("Delete " ++ Shape.type s) (RemoveShapeCommand shape [])).

Definition newMoveShapesCommand (shapes : list ref) (dx dy : Q) (m : Model) : option t :=
  if (1 <? length shapes)%nat
  then Some (mk ("Move " ++ pretty (length shapes) ++ " shapes")
                (MoveShapesCommand shapes dx dy))
  else
    first ← head shapes;
    s ← shapeObjs m !! first;
    Some (mk ("Move " ++ Shape.type s) (MoveShapesCommand shapes dx dy)).

Definition newResizeShapeCommand (shape : ref) (oldBounds newBounds : Bounds)
    (m : Model) : option t :=
  s ← shapeObjs m !! shape;
  Some (mk ("Resize " ++ Shape.type s) (ResizeShapeCommand shape oldBounds newBounds)).

Definition newAddConnectionCommand (connection : ref) (m : Model) : option t :=
  c ← connObjs m !! connection;
  Some (mk ("Connect with " ++ Connection.type c) (AddConnectionCommand connection)).


Definition newUpdatePropertyCommand (element : Element) (property : string)
    (oldValue newValue : JsValue) : t :=
  mk ("Update " ++ property) (UpdatePropertyCommand element property oldValue newValue).

Definition newUpdateStyleCommand (element : Element) (oldStyle newStyle : JsObject) : t :=
  mk "Update style" (UpdateStyleCommand element oldStyle newStyle).

(** A method call on a shape or connection object. *)
Definition onShape (shape : ref) (f : Shape.t -> Shape.t) (m : Model)
  : Outcome Model unit :=
  match shapeObjs m !! shape with
  | Some s => Return tt (setShapeObjs (<[shape := f s]> (shapeObjs m)) m)
  | None => Throw "TypeError" m
  end.

Definition onConnection (connection : ref) (f : Connection.t -> Connection.t)
    (m : Model) : Outcome Model unit :=
  match connObjs m !! connection with
  | Some c => Return tt (setConnObjs (<[connection := f c]> (connObjs m)) m)
  | None => Throw "TypeError" m
  end.

(** [Array.prototype.forEach] with a callback that may throw. *)
Fixpoint forEach {A} (f : A -> Model -> Outcome Model unit) (l : list A)
  : Model -> Outcome Model unit :=
  match l with
  | [] => retO tt
  | a :: l' => let* _ := f a in forEach f l'
  end.

(** [this.diagram.removeShape(shape.id)] and
    [this.diagram.removeConnection(connection.id)] *)
Definition removeShapeOf (shape : ref) (m : Model) : Outcome Model unit :=
  match shapeObjs m !! shape with
  | Some s => Return tt (snd (removeShape (Shape.id s) m))
  | None => Throw "TypeError" m
  end.

Definition removeConnectionOf (connection : ref) (m : Model) : Outcome Model unit :=
  match connObjs m !! connection with
  | Some c => Return tt (snd (removeConnection (Connection.id c) m))
  | None => Throw "TypeError" m
  end.

(** [element.setProperty(key, value)] *)
Definition setProperty (element : Element) (key : string) (value : JsValue)
  : Model -> Outcome Model unit :=
  match element with
  | ShapeElement r => onShape r (Shape.setProperty key value)
  | ConnectionElement r => onConnection r (Connection.setProperty key value)
  end.

(** [element.setStyle(style)]: [Connection] has no such method. *)
Definition setStyle (element : Element) (style : JsObject)
  : Model -> Outcome Model unit :=
  match element with
  | ShapeElement r => onShape r (Shape.setStyle style)
  | ConnectionElement r => fun m => Throw "TypeError: element.setStyle is not a function" m
  end.

(** Lift a model action into the state made of the command object and
    the model. *)
Definition act (c : t) (f : Model -> Outcome Model unit) (m : Model)
  : Outcome (t * Model) unit :=
  match f m with
  | Return _ m' => Return tt (c, m')
  | Throw e m' => Throw e (c, m')
  end.

(** [execute()] of each class; the state is the command object and the
    model. *)
Definition execute (s : t * Model) : Outcome (t * Model) unit :=
  let '(c, m) := s in
  match body c with
  | AddShapeCommand shape => act c (addShape shape) m
  | RemoveShapeCommand shape _ =>
      match shapeObjs m !! shape with
      | None => Throw "TypeError" s
      | Some sh =>
          match getConnectionsForShape (Shape.id sh) m with
          | None => Throw "TypeError" s
          | Some related =>
              act (mk (description c) (RemoveShapeCommand shape related))
                  (let* _ := forEach removeConnectionOf related in
                   removeShapeOf shape) m
          end
      end
  | MoveShapesCommand shapes dx dy =>
      act c (forEach (fun shape => onShape shape (Shape.move dx dy)) shapes) m
  | ResizeShapeCommand shape _ newBounds =>
      act c (let* _ := onShape shape (Shape.setPosition (bx newBounds) (by_ newBounds)) in
             onShape shape (Shape.setSize (bwidth newBounds) (bheight newBounds))) m
  | AddConnectionCommand connection => act c (addConnection connection) m
  | RemoveConnectionCommand connection => act c (removeConnectionOf connection) m
  | UpdatePropertyCommand element property _ newValue =>
      act c (setProperty element property newValue) m
  | UpdateStyleCommand element _ newStyle => act c (setStyle element newStyle) m
  end.

(** [undo()] of each class. *)
Definition undo (s : t * Model) : Outcome (t * Model) unit :=
  let '(c, m) := s in
  match body c with
  | AddShapeCommand shape => act c (removeShapeOf shape) m
  | RemoveShapeCommand shape relatedConnections =>
      act c (let* _ := addShape shape in
             forEach addConnection relatedConnections) m
  | MoveShapesCommand shapes dx dy =>
      act c (forEach (fun shape => onShape shape (Shape.move (- dx) (- dy))) shapes) m
  | ResizeShapeCommand shape oldBounds _ =>
      act c (let* _ := onShape shape (Shape.setPosition (bx oldBounds) (by_ oldBounds)) in
             onShape shape (Shape.setSize (bwidth oldBounds) (bheight oldBounds))) m
  | AddConnectionCommand connection => act c (removeConnectionOf connection) m
  | RemoveConnectionCommand connection => act c (addConnection connection) m
  | UpdatePropertyCommand element property oldValue _ =>
      act c (setProperty element property oldValue) m
  | UpdateStyleCommand element oldStyle _ => act c (setStyle element oldStyle) m
  end.

(** The world the command manager of the editor runs on: the model and
    the command objects. *)
Record World := mkWorld {
  model : Model;
  cmdObjs : gmap ref t
}.

(** Run a method of the command object behind a reference. *)
Definition run (method : t * Model -> Outcome (t * Model) unit) (command : ref)
    (w : World) : Outcome World unit :=
  match cmdObjs w !! command with
  | None => Throw "TypeError" w
  | Some c =>
      match method (c, model w) with
      | Return _ (c', m') =>
          Return tt {| model := m'; cmdObjs := <[command := c']> (cmdObjs w) |}
      | Throw e (c', m') =>
          Throw e {| model := m'; cmdObjs := <[command := c']> (cmdObjs w) |}
      end
  end.

#[global] Instance host : Command.Host World := {
  Command.execute := run execute;
  Command.undo := run undo;
  Command.getDescription := fun command w => description <$> cmdObjs w !! command
}.

(** [new ...Command(...)]: store the command object under the next
    reference. *)
Definition alloc (c : t) (w : World) : ref * World :=
  let m := model w in
  (nextRef m,
   {| model := {| shapeObjs := shapeObjs m; connObjs := connObjs m;
                  diagram := diagram m; now := now m;
                  nextRef := Pos.succ (nextRef m) |};
      cmdObjs := <[nextRef m := c]> (cmdObjs w) |}).







(** [element.properties[key]] *)
Definition readProperty (element : Element) (key : string) (m : Model) : option JsValue :=
  match element with
  | ShapeElement r => (fun s => getProp (Shape.properties s) key) <$> shapeObjs m !! r
  | ConnectionElement r => (fun c => getProp (Connection.properties c) key) <$> connObjs m !! r
  end.

End Commands.

(* ===================================================================== *)
(** ** SelectionManager.js *)
(* ===================================================================== *)

Module SelectionManager.
Import Diagram.

Record t := mk {
  selectedShapes : JsSet.t;
  selectedConnections : JsSet.t
}.

(** [new SelectionManager()] *)
Definition new : t := {| selectedShapes := JsSet.empty; selectedConnections := JsSet.empty |}.

(** The selection manager assigns the [selected] flag of the objects, so
    its methods run on the manager and the model. *)
Definition St : Type := t * Model.

Definition onModel {A} (f : Model -> Outcome Model A) (s : St) : Outcome St A :=
  match f (snd s) with
  | Return a m' => Return a (fst s, m')
  | Throw e m' => Throw e (fst s, m')
  end.

Definition setSelectedShapes (sel : JsSet.t) (s : St) : Outcome St unit :=
  Return tt ({| selectedShapes := sel; selectedConnections := selectedConnections (fst s) |}, snd s).

Definition setSelectedConnections (sel : JsSet.t) (s : St) : Outcome St unit :=
  Return tt ({| selectedShapes := selectedShapes (fst s); selectedConnections := sel |}, snd s).

(** [clearSelection()] *)
Definition clearSelection (s : St) : Outcome St unit :=
  (let* _ := onModel (Commands.forEach
                        (fun shape => Commands.onShape shape (Shape.setSelected false))
                        (selectedShapes (fst s))) in
   let* _ := onModel (Commands.forEach
                        (fun conn => Commands.onConnection conn (Connection.setSelected false))
                        (selectedConnections (fst s))) in
   let* _ := setSelectedShapes JsSet.empty in
   setSelectedConnections JsSet.empty) s.

(** [selectShape(shape, addToSelection)] *)
Definition selectShape (shape : ref) (addToSelection : bool) : St -> Outcome St unit :=
  let* _ := (if addToSelection then retO tt else clearSelection) in
  let* _ := onModel (Commands.onShape shape (Shape.setSelected true)) in
  fun s => setSelectedShapes (JsSet.add shape (selectedShapes (fst s))) s.

(** [selectConnection(connection, addToSelection)] *)
Definition selectConnection (connection : ref) (addToSelection : bool)
  : St -> Outcome St unit :=
  let* _ := (if addToSelection then retO tt else clearSelection) in
  let* _ := onModel (Commands.onConnection connection (Connection.setSelected true)) in
  fun s => setSelectedConnections (JsSet.add connection (selectedConnections (fst s))) s.

(** [selectShapes(shapes)] *)
Fixpoint selectEach (shapes : list ref) : St -> Outcome St unit :=
  match shapes with
  | [] => retO tt
  | shape :: rest =>
      let* _ := onModel (Commands.onShape shape (Shape.setSelected true)) in
      let* _ := (fun s => setSelectedShapes (JsSet.add shape (selectedShapes (fst s))) s) in
      selectEach rest
  end.

Definition selectShapes (shapes : list ref) : St -> Outcome St unit :=
  let* _ := clearSelection in selectEach shapes.

(** [deselectShape(shape)] *)
Definition deselectShape (shape : ref) : St -> Outcome St unit :=
  let* _ := onModel (Commands.onShape shape (Shape.setSelected false)) in
  fun s => setSelectedShapes (JsSet.delete shape (selectedShapes (fst s))) s.

(** [toggleShape(shape)] *)
Definition toggleShape (shape : ref) (s : St) : Outcome St unit :=
  if JsSet.has shape (selectedShapes (fst s))
  then deselectShape shape s
  else selectShape shape true s.

Definition hasSelection (sm : t) : bool :=
  (0 <? JsSet.size (selectedShapes sm))%nat || (0 <? JsSet.size (selectedConnections sm))%nat.

Definition getSelectedShapes (sm : t) : list ref := selectedShapes sm.
Definition getSelectedConnections (sm : t) : list ref := selectedConnections sm.

Definition getAllSelected (sm : t) : list Commands.Element :=
  map Commands.ShapeElement (getSelectedShapes sm)
  ++ map Commands.ConnectionElement (getSelectedConnections sm).

(** [getPrimarySelection()] *)
Definition getPrimarySelection (sm : t) : option Commands.Element :=
  match selectedShapes sm with
  | shape :: _ => Some (Commands.ShapeElement shape)
  | [] => match selectedConnections sm with
          | conn :: _ => Some (Commands.ConnectionElement conn)
          | [] => None
          end
  end.

Definition isSelected (shape : ref) (sm : t) : bool := JsSet.has shape (selectedShapes sm).

(** [getSelectionBounds()]; the outer [None] stands for a reference to no
    object, the inner one for [null]. *)
Definition getSelectionBounds (s : St) : option (option Geometry.Rectangle) :=
  match getSelectedShapes (fst s) with
  | [] => Some None
  | first :: rest =>
      b0 ← Shape.getBounds <$> shapeObjs (snd s) !! first;
      Some <$> foldl (fun acc shape =>
                        bounds ← acc;
                        b ← Shape.getBounds <$> shapeObjs (snd s) !! shape;
                        Some (Geometry.union bounds b))
                     (Some b0) rest
  end.

(** The calls that change the selection. *)
Inductive Call :=
| SelectShape (shape : ref) (addToSelection : bool)
| SelectConnection (connection : ref) (addToSelection : bool)
| SelectShapes (shapes : list ref)
| DeselectShape (shape : ref)
| ToggleShape (shape : ref)
| ClearSelection.

(** One call; after a call that throws the state is the one reached. *)
Definition call (s : St) (c : Call) : St :=
  stateOf
    match c with
    | SelectShape shape addToSelection => selectShape shape addToSelection s
    | SelectConnection connection addToSelection =>
        selectConnection connection addToSelection s
    | SelectShapes shapes => selectShapes shapes s
    | DeselectShape shape => deselectShape shape s
    | ToggleShape shape => toggleShape shape s
    | ClearSelection => clearSelection s
    end.

Definition calls (cs : list Call) (s : St) : St := fold_left call cs s.
End SelectionManager.

(* ===================================================================== *)
(** ** ResizeHandleManager.js *)
(* ===================================================================== *)

Module ResizeHandleManager.
Import Commands.
Local Open Scope Q_scope.

(** [handleId.includes(part)] *)
Definition includes (handleId part : string) : bool :=
  match String.index 0 part handleId with Some _ => true | None => false end.

(** [calculateNewBounds(originalBounds, handleId, dx, dy)] *)
Definition calculateNewBounds (originalBounds : Bounds) (handleId : string) (dx dy : Q)
  : Bounds :=
  let '(mkBounds x y width height) := originalBounds in
  let '(x, y, width, height) :=
    if String.eqb handleId "nw" then (x + dx, y + dy, width - dx, height - dy)
    else if String.eqb handleId "n" then (x, y + dy, width, height - dy)
    else if String.eqb handleId "ne" then (x, y + dy, width + dx, height - dy)
    else if String.eqb handleId "e" then (x, y, width + dx, height)
    else if String.eqb handleId "se" then (x, y, width + dx, height + dy)
    else if String.eqb handleId "s" then (x, y, width, height + dy)
    else if String.eqb handleId "sw" then (x + dx, y, width - dx, height + dy)
    else if String.eqb handleId "w" then (x + dx, y, width - dx, height)
    else (x, y, width, height) in
  (* Enforce minimum size *)
  let minWidth := 40 in
  let minHeight := 30 in
  let '(x, width) :=
    if Qltb width minWidth
    then (if includes handleId "w" then x - (minWidth - width) else x, minWidth)
    else (x, width) in
  let '(y, height) :=
    if Qltb height minHeight
    then (if includes handleId "n" then y - (minHeight - height) else y, minHeight)
    else (y, height) in
  mkBounds x y width height.

(** The eight handles of [getHandlePositions]. *)
Definition handleIds : list string := ["nw"; "n"; "ne"; "e"; "se"; "s"; "sw"; "w"].

(** The edges of a rectangle, their absolute positions, and the edges a
    handle drags: those named by the compass letters of its id. *)
Inductive Edge := North | East | South | West.

Definition edge (e : Edge) (b : Bounds) : Q :=
  match e with
  | North => by_ b
  | East => bx b + bwidth b
  | South => by_ b + bheight b
  | West => bx b
  end.

Definition adjusts (handleId : string) (e : Edge) : bool :=
  match e with
  | North => includes handleId "n"
  | East => includes handleId "e"
  | South => includes handleId "s"
  | West => includes handleId "w"
  end.

(** [getHandlePositions(bounds)]: the id and the position of each
    handle. *)
Definition getHandlePositions (bounds : Geometry.Rectangle) : list (string * Geometry.Point) :=
  let x := Geometry.rx bounds in
  let y := Geometry.ry bounds in
  let width := Geometry.rwidth bounds in
  let height := Geometry.rheight bounds in
  [("nw", Geometry.mkPoint x y);
   ("n", Geometry.mkPoint (x + width / 2) y);
   ("ne", Geometry.mkPoint (x + width) y);
   ("e", Geometry.mkPoint (x + width) (y + height / 2));
   ("se", Geometry.mkPoint (x + width) (y + height));
   ("s", Geometry.mkPoint (x + width / 2) (y + height));
   ("sw", Geometry.mkPoint x (y + height));
   ("w", Geometry.mkPoint x (y + height / 2))].
End ResizeHandleManager.

(* ===================================================================== *)
(** ** SVGCanvas.js: viewport *)
(* ===================================================================== *)

Module SVGCanvas.
Local Open Scope Q_scope.

Record ViewBox := mkViewBox { vb_x : Q; vb_y : Q; vb_width : Q; vb_height : Q }.

(** What [getBoundingClientRect()] returns for an element of the page. *)
Record ClientRect := mkClientRect { left : Q; top : Q; width : Q; height : Q }.

(** The viewport fields of the canvas; [lastMousePosition] is only
    written and left out. *)
Record t := mk {
  viewBox : ViewBox;
  zoom : Q;
  minZoom : Q;
  maxZoom : Q;
  isPanning : bool;
  panStart : option (Q * Q)
}.

(** [updateViewBox()]; [container] is the client rectangle of the canvas
    container at the time of the call. *)
Definition updateViewBox (container : ClientRect) (c : t) : t :=
  {| viewBox := {| vb_x := vb_x (viewBox c); vb_y := vb_y (viewBox c);
                   vb_width := width container / zoom c;
                   vb_height := height container / zoom c |};
     zoom := zoom c; minZoom := minZoom c; maxZoom := maxZoom c;
     isPanning := isPanning c; panStart := panStart c |}.

(** The constructor, which ends with [init()]. *)
Definition new (container : ClientRect) : t :=
  updateViewBox container
    {| viewBox := mkViewBox 0 0 2000 2000; zoom := 1;
       minZoom := 1 # 10; maxZoom := 3;
       isPanning := false; panStart := None |}.

(** [screenToSVG(screenX, screenY)]; [svg] is the client rectangle of the
    SVG element. *)
Definition screenToSVG (svg : ClientRect) (c : t) (screenX screenY : Q) : Geometry.Point :=
  Geometry.mkPoint ((screenX - left svg) / zoom c + vb_x (viewBox c))
                   ((screenY - top svg) / zoom c + vb_y (viewBox c)).

(** [startPan(e)], [doPan(e)], [endPan()]; the event is given by
    [clientX] and [clientY]. *)
Definition startPan (clientX clientY : Q) (c : t) : t :=
  {| viewBox := viewBox c; zoom := zoom c; minZoom := minZoom c; maxZoom := maxZoom c;
     isPanning := true; panStart := Some (clientX, clientY) |}.

Definition doPan (container : ClientRect) (clientX clientY : Q) (c : t) : t :=
  match panStart c with
  | None => c
  | Some (startX, startY) =>
      let dx := (clientX - startX) / zoom c in
      let dy := (clientY - startY) / zoom c in
      updateViewBox container
        {| viewBox := {| vb_x := vb_x (viewBox c) - dx; vb_y := vb_y (viewBox c) - dy;
                         vb_width := vb_width (viewBox c);
                         vb_height := vb_height (viewBox c) |};
           zoom := zoom c; minZoom := minZoom c; maxZoom := maxZoom c;
           isPanning := isPanning c; panStart := Some (clientX, clientY) |}
  end.

Definition endPan (c : t) : t :=
  {| viewBox := viewBox c; zoom := zoom c; minZoom := minZoom c; maxZoom := maxZoom c;
     isPanning := false; panStart := None |}.

(** [zoomAtPoint(delta, point)] *)
Definition zoomAtPoint (container : ClientRect) (delta : Q) (point : Geometry.Point)
    (c : t) : t :=
  let oldZoom := zoom c in
  let zoom' := Geometry.clamp (zoom c + delta) (minZoom c) (maxZoom c) in
  if Qeq_bool zoom' oldZoom then
    {| viewBox := viewBox c; zoom := zoom'; minZoom := minZoom c; maxZoom := maxZoom c;
       isPanning := isPanning c; panStart := panStart c |}
  else
    let scale := oldZoom / zoom' in
    updateViewBox container
      {| viewBox :=
           {| vb_x := Geometry.x point - (Geometry.x point - vb_x (viewBox c)) * scale;
              vb_y := Geometry.y point - (Geometry.y point - vb_y (viewBox c)) * scale;
              vb_width := vb_width (viewBox c); vb_height := vb_height (viewBox c) |};
         zoom := zoom'; minZoom := minZoom c; maxZoom := maxZoom c;
         isPanning := isPanning c; panStart := panStart c |}.

(** [zoomBy(delta)]: towards the centre of the view box. *)
Definition zoomBy (container : ClientRect) (delta : Q) (c : t) : t :=
  let center :=
    Geometry.mkPoint (vb_x (viewBox c) + vb_width (viewBox c) / 2)
                     (vb_y (viewBox c) + vb_height (viewBox c) / 2) in
  zoomAtPoint container delta center c.

(** [setZoom(zoom)] *)
Definition setZoom (container : ClientRect) (zoom' : Q) (c : t) : t :=
  updateViewBox container
    {| viewBox := viewBox c; zoom := Geometry.clamp zoom' (minZoom c) (maxZoom c);
       minZoom := minZoom c; maxZoom := maxZoom c;
       isPanning := isPanning c; panStart := panStart c |}.

(** [fitToContent()] *)
Definition fitToContent (container : ClientRect) (c : t) : t :=
  updateViewBox container
    {| viewBox := {| vb_x := 0; vb_y := 0;
                     vb_width := vb_width (viewBox c); vb_height := vb_height (viewBox c) |};
       zoom := 1; minZoom := minZoom c; maxZoom := maxZoom c;
       isPanning := isPanning c; panStart := panStart c |}.

(** [handleWheel(e)]: [e] is given by [deltaY], [clientX] and
    [clientY]. *)
Definition handleWheel (container svg : ClientRect) (deltaY clientX clientY : Q) (c : t) : t :=
  let delta := - deltaY * (1 # 1000) in
  zoomAtPoint container delta (screenToSVG svg c clientX clientY) c.

(** The calls that change the viewport: the zoom buttons, the wheel,
    [setZoom], the pan gesture and a resize of the window. The client
    rectangles are those of the page at the time of each call. *)
Inductive Call :=
| ZoomBy (delta : Q)
| Wheel (deltaY clientX clientY : Q)
| SetZoom (zoom : Q)
| FitToContent
| StartPan (clientX clientY : Q)
| DoPan (clientX clientY : Q)
| EndPan
| HandleResize.

Definition call (c : t) (step : ClientRect * ClientRect * Call) : t :=
  let '(container, svg, op) := step in
  match op with
  | ZoomBy delta => zoomBy container delta c
  | Wheel deltaY clientX clientY => handleWheel container svg deltaY clientX clientY c
  | SetZoom z => setZoom container z c
  | FitToContent => fitToContent container c
  | StartPan clientX clientY => startPan clientX clientY c
  | DoPan clientX clientY => doPan container clientX clientY c
  | EndPan => endPan c
  | HandleResize => updateViewBox container c
  end.

Definition calls (steps : list (ClientRect * ClientRect * Call)) (c : t) : t :=
  fold_left call steps c.
End SVGCanvas.

(* ===================================================================== *)
(** ** PropertiesPanel.js: edits that go through the history *)
(* ===================================================================== *)

Module PropertiesPanel.
Import Diagram Commands.

(** The panel runs on the command manager and its world. *)
Definition St : Type := CommandManager.t * World.

(** [oldValue === value] for the string [value] of an input element. *)
Definition isString (v : JsValue) (value : string) : bool :=
  match v with
  | VStr s => String.eqb s value
  | _ => false
  end.

(** [element.style] *)
Definition readStyle (element : Element) (m : Model) : option JsObject :=
  match element with
  | ShapeElement r => Shape.style <$> shapeObjs m !! r
  | ConnectionElement r => Connection.style <$> connObjs m !! r
  end.

(** [handleSelectionChanged({primary, count})]: the new
    [currentElement]. *)
Definition handleSelectionChanged (primary : option Element) (count : nat)
  : option Element :=
  if (count =? 0)%nat then None else primary.

(** [updateProperty(key, value)] *)
Definition updateProperty (currentElement : option Element) (key value : string) (s : St)
  : Outcome St unit :=
  match currentElement with
  | None => Return tt s
  | Some element =>
      match readProperty element key (model (snd s)) with
      | None => Throw "TypeError" s
      | Some oldValue =>
          if isString oldValue value then Return tt s
          else
            let '(command, w) :=
              alloc (newUpdatePropertyCommand element key oldValue (VStr value)) (snd s) in
            CommandManager.execute command (fst s, w)
      end
  end.

(** [updateStyle(key, value)] *)
Definition updateStyle (currentElement : option Element) (key value : string) (s : St)
  : Outcome St unit :=
  match currentElement with
  | None => Return tt s
  | Some element =>
      match readStyle element (model (snd s)) with
      | None => Throw "TypeError" s
      | Some oldStyle =>
          let newStyle := <[key := VStr value]> oldStyle in
          let '(command, w) :=
            alloc (newUpdateStyleCommand element oldStyle newStyle) (snd s) in
          CommandManager.execute command (fst s, w)
      end
  end.
End PropertiesPanel.

(* ===================================================================== *)
(** ** PluginRegistry.js and ShapeFactory.js, as the controller uses them *)
(* ===================================================================== *)

Module Plugin.
(** What [validateConnection] may return: a boolean, or an object with
    [valid] and an optional [message]. *)
Inductive Validation :=
| Plain (b : bool)
| Verdict (valid : bool) (message : option string).

(** [validationResult === true || (validationResult && validationResult.valid)] *)
Definition isValid (v : Validation) : bool :=
  match v with
  | Plain b => b
  | Verdict valid _ => valid
  end.

Record ShapeDefinition := mkShapeDefinition {
  defaultWidth : Q;
  defaultHeight : Q;
  minWidth : Q;
  minHeight : Q;
  resizable : bool
}.

(** The part of a [DiagramPlugin] the controller consults. *)
Record t := mk {
  id : string;
  getShapeTools : list string;
  getShapeDefinitions : gmap string ShapeDefinition;
  getConnectorTypes : list string;
  validateConnection : Shape.t -> Shape.t -> string -> Validation
}.
End Plugin.

Module ShapeFactory.
(** A registered class: its constructor, given the id [generateId] would
    return and the options. *)
Definition ShapeClass : Type := string -> Shape.Options -> Shape.t.

Record t := mk {
  shapeClasses : gmap string ShapeClass;
  shapeDefaults : gmap string Shape.Options
}.

(** [{...a, ...b}] on option records: a field present in [b] wins. *)
Definition spread (a b : Shape.Options) : Shape.Options :=
  let pick {A} (f : Shape.Options -> option A) : option A :=
    match f b with Some v => Some v | None => f a end in
  Shape.mkOptions
    (pick Shape.o_id) (pick Shape.o_type) (pick Shape.o_diagramType)
    (pick Shape.o_x) (pick Shape.o_y) (pick Shape.o_width) (pick Shape.o_height)
    (pick Shape.o_name) (pick Shape.o_stereotype)
    (pick Shape.o_properties) (pick Shape.o_style)
    (pick Shape.o_minWidth) (pick Shape.o_minHeight) (pick Shape.o_resizable).

Definition typeOnly (type : string) : Shape.Options :=
  Shape.mkOptions None (Some type) None None None None None None None None None None None None.

(** [create(type, options)] *)
Definition create (f : t) (fresh : string) (type : string) (options : Shape.Options)
  : Shape.t :=
  let ShapeClass := default Shape.new (shapeClasses f !! type) in
  let defaults := default Shape.noOptions (shapeDefaults f !! type) in
  ShapeClass fresh (spread (spread (typeOnly type) defaults) options).

Definition has (f : t) (type : string) : bool :=
  match shapeClasses f !! type with Some _ => true | None => false end.

(** [new ShapeFactoryClass()] and [register(type, ShapeClass, defaults)] *)
Definition empty : t := {| shapeClasses := ∅; shapeDefaults := ∅ |}.

Definition register (type : string) (ShapeClass0 : ShapeClass) (defaults : Shape.Options)
    (f : t) : t :=
  {| shapeClasses := <[type := ShapeClass0]> (shapeClasses f);
     shapeDefaults := <[type := defaults]> (shapeDefaults f) |}.

(** The factory as ShapeFactory.js leaves it: the base shape registered. *)
Definition base : t :=
  {| shapeClasses := {[ "rectangle" := Shape.new ]};
     shapeDefaults :=
       {[ "rectangle" :=
            Shape.mkOptions None None None None None (Some 120%Q) (Some 60%Q)
                            None None None None None None None ]} |}.
End ShapeFactory.

(* ===================================================================== *)
(** ** InteractionController.js *)
(* ===================================================================== *)

Module InteractionController.
Import Diagram Commands.
Local Open Scope Q_scope.

(** The values of [this.state]. *)
Inductive State := idle | dragging | connecting | drawing | resizing.

#[global] Instance State_eq_dec : EqDecision State.
Proof. solve_decision. Defined.

(** The fields of the controller. *)
Record t := mk {
  currentTool : string;
  state : State;
  dragStartPoint : option Geometry.Point;
  isDragging : bool;
  isResizing : bool;
  resizeHandle : option string;
  resizeStartBounds : option Bounds;
  connectionSource : option ref;
  resizingShape : option ref
}.

(** The constructor. *)
Definition new : t :=
  {| currentTool := "select"; state := idle;
     dragStartPoint := None; isDragging := false;
     isResizing := false; resizeHandle := None; resizeStartBounds := None;
     connectionSource := None; resizingShape := None |}.

(** What the controller reads from the clicked DOM element:
    [target.closest('.resize-handle')] with its [dataset.handle],
    [target.closest('.shape')] and [target.closest('.connector')] with
    their [dataset.id]. *)
Record Target := mkTarget {
  resizeHandleElement : option string;
  shapeElement : option string;
  connectorElement : option string
}.

Definition emptyCanvas : Target := mkTarget None None None.
Definition onShapeElement (shapeId : string) : Target := mkTarget None (Some shapeId) None.
Definition onResizeHandle (handleId : string) : Target := mkTarget (Some handleId) None None.

(** The input events. *)
Inductive Event :=
| ToolSelected (toolId : string)
| CanvasClicked (point : Geometry.Point) (target : Target) (shiftKey ctrlKey : bool)
| CanvasMouseMove (point : Geometry.Point) (target : Target)
| ToolDropped (toolId : string) (x y : Q)
| KeyDown (key : string) (ctrlKey metaKey shiftKey altKey : bool)
| MouseUp.

(** The editor: the controller with the components it was constructed
    with. The registry's active plugin, the shape factory and the id
    generator are not changed by any event. *)
Record Editor := mkEditor {
  world : World;
  commandManager : CommandManager.t;
  selectionManager : SelectionManager.t;
  controller : t;
  activePlugin : option Plugin.t;
  shapeFactory : ShapeFactory.t;
  (** [generateId(prefix)], by the number of objects created so far *)
  generateId : string -> ref -> string
}.

Definition setController (c : t) (e : Editor) : Editor :=
  {| world := world e; commandManager := commandManager e;
     selectionManager := selectionManager e; controller := c;
     activePlugin := activePlugin e; shapeFactory := shapeFactory e;
     generateId := generateId e |}.

Definition setWorld (w : World) (e : Editor) : Editor :=
  {| world := w; commandManager := commandManager e;
     selectionManager := selectionManager e; controller := controller e;
     activePlugin := activePlugin e; shapeFactory := shapeFactory e;
     generateId := generateId e |}.

Definition setModel (m : Model) (e : Editor) : Editor :=
  setWorld {| model := m; cmdObjs := cmdObjs (world e) |} e.

Definition getModel (e : Editor) : Model := model (world e).

(** Lifting the methods of the components to the editor. *)
Definition onModel {A} (f : Model -> Outcome Model A) (e : Editor) : Outcome Editor A :=
  match f (getModel e) with
  | Return a m' => Return a (setModel m' e)
  | Throw err m' => Throw err (setModel m' e)
  end.

Definition putSelection (s : SelectionManager.St) (e : Editor) : Editor :=
  {| world := {| model := snd s; cmdObjs := cmdObjs (world e) |};
     commandManager := commandManager e;
     selectionManager := fst s; controller := controller e;
     activePlugin := activePlugin e; shapeFactory := shapeFactory e;
     generateId := generateId e |}.

Definition onSelection {A} (f : SelectionManager.St -> Outcome SelectionManager.St A)
    (e : Editor) : Outcome Editor A :=
  match f (selectionManager e, getModel e) with
  | Return a s' => Return a (putSelection s' e)
  | Throw err s' => Throw err (putSelection s' e)
  end.

Definition putHistory (s : CommandManager.t * World) (e : Editor) : Editor :=
  {| world := snd s; commandManager := fst s;
     selectionManager := selectionManager e; controller := controller e;
     activePlugin := activePlugin e; shapeFactory := shapeFactory e;
     generateId := generateId e |}.

(** [this.commandManager.execute(command)] *)
Definition commandManager_execute (command : ref) (e : Editor) : Outcome Editor unit :=
  match CommandManager.execute command (commandManager e, world e) with
  | Return a s' => Return a (putHistory s' e)
  | Throw err s' => Throw err (putHistory s' e)
  end.

Definition commandManager_undo (e : Editor) : Outcome Editor bool :=
  let '(b, s') := CommandManager.undo (commandManager e, world e) in
  Return b (putHistory s' e).

Definition commandManager_redo (e : Editor) : Outcome Editor bool :=
  let '(b, s') := CommandManager.redo (commandManager e, world e) in
  Return b (putHistory s' e).

Definition commandManager_addToHistory (command : ref) (e : Editor) : Outcome Editor unit :=
  Return tt (putHistory (CommandManager.addToHistory command (commandManager e), world e) e).

(** [new XCommand(...)]: the constructor may throw; the object is stored. *)
Definition newCommand (c : option Commands.t) (e : Editor) : Outcome Editor ref :=
  match c with
  | None => Throw "TypeError" e
  | Some c =>
      let '(r, w') := Commands.alloc c (world e) in
      Return r (setWorld w' e)
  end.

Definition update (f : t -> t) (e : Editor) : Outcome Editor unit :=
  Return tt (setController (f (controller e)) e).

(** [resetConnectionState()] *)
Definition resetConnectionState : Editor -> Outcome Editor unit :=
  update (fun c =>
    {| currentTool := currentTool c; state := idle;
       dragStartPoint := dragStartPoint c; isDragging := isDragging c;
       isResizing := isResizing c; resizeHandle := resizeHandle c;
       resizeStartBounds := resizeStartBounds c;
       connectionSource := None; resizingShape := resizingShape c |}).

(** [resetState()] *)
Definition resetState : Editor -> Outcome Editor unit :=
  let* _ := update (fun c =>
    {| currentTool := currentTool c; state := idle;
       dragStartPoint := None; isDragging := false;
       isResizing := isResizing c; resizeHandle := resizeHandle c;
       resizeStartBounds := resizeStartBounds c;
       connectionSource := connectionSource c; resizingShape := resizingShape c |}) in
  resetConnectionState.

(** [handleToolSelected({toolId})] *)
Definition handleToolSelected (toolId : string) : Editor -> Outcome Editor unit :=
  let* _ := update (fun c =>
    {| currentTool := toolId; state := state c;
       dragStartPoint := dragStartPoint c; isDragging := isDragging c;
       isResizing := isResizing c; resizeHandle := resizeHandle c;
       resizeStartBounds := resizeStartBounds c;
       connectionSource := connectionSource c; resizingShape := resizingShape c |}) in
  resetState.

(** [startResize(shape, handleId, point)] *)
Definition startResize (shape : ref) (handleId : string) (point : Geometry.Point)
  : Editor -> Outcome Editor unit :=
  let* _ := update (fun c =>
    {| currentTool := currentTool c; state := resizing;
       dragStartPoint := dragStartPoint c; isDragging := isDragging c;
       isResizing := true; resizeHandle := Some handleId;
       resizeStartBounds := resizeStartBounds c;
       connectionSource := connectionSource c; resizingShape := resizingShape c |}) in
  fun e =>
    match shapeObjs (getModel e) !! shape with
    | None => Throw "TypeError" e
    | Some s =>
        update (fun c =>
          {| currentTool := currentTool c; state := state c;
             dragStartPoint := Some (Geometry.mkPoint (Geometry.x point) (Geometry.y point));
             isDragging := isDragging c;
             isResizing := isResizing c; resizeHandle := resizeHandle c;
             resizeStartBounds :=
               Some (mkBounds (Shape.x s) (Shape.y s) (Shape.width s) (Shape.height s));
             connectionSource := connectionSource c; resizingShape := Some shape |}) e
    end.

(** [calculateNewBounds(original, handleId, dx, dy)] *)
Definition calculateNewBounds (original : Bounds) (handleId : string) (dx dy : Q)
  : Bounds :=
  let '(mkBounds x y width height) := original in
  let '(x, y, width, height) :=
    if String.eqb handleId "nw" then (x + dx, y + dy, width - dx, height - dy)
    else if String.eqb handleId "n" then (x, y + dy, width, height - dy)
    else if String.eqb handleId "ne" then (x, y + dy, width + dx, height - dy)
    else if String.eqb handleId "e" then (x, y, width + dx, height)
    else if String.eqb handleId "se" then (x, y, width + dx, height + dy)
    else if String.eqb handleId "s" then (x, y, width, height + dy)
    else if String.eqb handleId "sw" then (x + dx, y, width - dx, height + dy)
    else if String.eqb handleId "w" then (x + dx, y, width - dx, height)
    else (x, y, width, height) in
  (* Enforce minimum size *)
  let minW := 40 in
  let minH := 30 in
  let '(x, width) :=
    if Qltb width minW
    then (if ResizeHandleManager.includes handleId "w" then x - (minW - width) else x, minW)
    else (x, width) in
  let '(y, height) :=
    if Qltb height minH
    then (if ResizeHandleManager.includes handleId "n" then y - (minH - height) else y, minH)
    else (y, height) in
  mkBounds x y width height.

(** [doResize(point)] *)
Definition doResize (point : Geometry.Point) (e : Editor) : Outcome Editor unit :=
  let c := controller e in
  match resizingShape c, dragStartPoint c with
  | Some shape, Some start =>
      let dx := Geometry.x point - Geometry.x start in
      let dy := Geometry.y point - Geometry.y start in
      match resizeStartBounds c, resizeHandle c with
      | Some original, Some handleId =>
          let newBounds := calculateNewBounds original handleId dx dy in
          onModel (onShape shape
                     (Shape.assignBounds (bx newBounds) (by_ newBounds)
                                         (bwidth newBounds) (bheight newBounds))) e
      | _, _ => Throw "TypeError" e
      end
  | _, _ => Return tt e
  end.

(** [a !== b] on bounds, field by field *)
Definition boundsDiffer (a b : Bounds) : bool :=
  negb (Qeq_bool (bx a) (bx b)) || negb (Qeq_bool (by_ a) (by_ b))
  || negb (Qeq_bool (bwidth a) (bwidth b)) || negb (Qeq_bool (bheight a) (bheight b)).

(** [endResize()] *)
Definition endResize : Editor -> Outcome Editor unit :=
  let* _ := (fun e =>
    let c := controller e in
    match resizingShape c, resizeStartBounds c with
    | Some shape, Some start =>
        match shapeObjs (getModel e) !! shape with
        | None => Throw "TypeError" e
        | Some s =>
            let newBounds := mkBounds (Shape.x s) (Shape.y s) (Shape.width s) (Shape.height s) in
            if boundsDiffer newBounds start
            then (let* command :=
                    newCommand (newResizeShapeCommand shape start newBounds (getModel e)) in
                  commandManager_addToHistory command) e
            else Return tt e
        end
    | _, _ => Return tt e
    end) in
  update (fun c =>
    {| currentTool := currentTool c; state := idle;
       dragStartPoint := dragStartPoint c; isDragging := isDragging c;
       isResizing := false; resizeHandle := None; resizeStartBounds := None;
       connectionSource := connectionSource c; resizingShape := None |}).

(** [startDrag(point, originalEvent)] *)
Definition startDrag (point : Geometry.Point) (e : Editor) : Outcome Editor unit :=
  match SelectionManager.getSelectedShapes (selectionManager e) with
  | [] => Return tt e
  | _ :: _ =>
      update (fun c =>
        {| currentTool := currentTool c; state := dragging;
           dragStartPoint := Some (Geometry.clone point); isDragging := true;
           isResizing := isResizing c; resizeHandle := resizeHandle c;
           resizeStartBounds := resizeStartBounds c;
           connectionSource := connectionSource c; resizingShape := resizingShape c |}) e
  end.

(** [doDrag(point)] *)
Definition doDrag (point : Geometry.Point) (e : Editor) : Outcome Editor unit :=
  match dragStartPoint (controller e) with
  | None => Return tt e
  | Some start =>
      let dx := Geometry.x point - Geometry.x start in
      let dy := Geometry.y point - Geometry.y start in
      (let* _ := onModel (forEach (fun shape => onShape shape (Shape.move dx dy))
                            (SelectionManager.getSelectedShapes (selectionManager e))) in
       update (fun c =>
         {| currentTool := currentTool c; state := state c;
            dragStartPoint := Some (Geometry.clone point); isDragging := isDragging c;
            isResizing := isResizing c; resizeHandle := resizeHandle c;
            resizeStartBounds := resizeStartBounds c;
            connectionSource := connectionSource c; resizingShape := resizingShape c |})) e
  end.

(** [endDrag()] *)
Definition endDrag : Editor -> Outcome Editor unit :=
  update (fun c =>
    {| currentTool := currentTool c; state := idle;
       dragStartPoint := None; isDragging := false;
       isResizing := isResizing c; resizeHandle := resizeHandle c;
       resizeStartBounds := resizeStartBounds c;
       connectionSource := connectionSource c; resizingShape := resizingShape c |}).

(** The handle group in the page. [ResizeHandleManager.onSelectionChanged],
    which every change of the selection ends with, removes the group and
    renders it again when exactly one shape is selected, with the id of
    that shape as [data-shape-id]: the [dataset.shapeId] of the group, if
    the group is there. *)
Definition handleGroup (e : Editor) : option string :=
  match SelectionManager.getSelectedShapes (selectionManager e) with
  | [shape] => Shape.id <$> shapeObjs (getModel e) !! shape
  | _ => None
  end.

(** "Check for resize handle click first": the shape and the handle id
    of the resize to start, if a handle of the group was clicked. The
    primary selection is read for a group without shape id; the group
    being there, it is the selected shape. *)
Definition clickedHandle (target : Target) (e : Editor) : option (ref * string) :=
  handleId ← resizeHandleElement target;
  shapeId ← handleGroup e;
  shape ← (if truthy_str shapeId then getShape shapeId (getModel e)
           else match SelectionManager.getPrimarySelection (selectionManager e) with
                | Some (ShapeElement r) => Some r
                | _ => None
                end);
  if truthy_str handleId then Some (shape, handleId) else None.

(** [handleSelectClick(point, target, shiftKey, ctrlKey, originalEvent)] *)
Definition handleSelectClick (point : Geometry.Point) (target : Target)
    (shiftKey ctrlKey : bool) (e : Editor) : Outcome Editor unit :=
  match clickedHandle target e with
  | Some (shape, handleId) => startResize shape handleId point e
  | None =>
      match shapeElement target with
      | Some shapeId =>
          match getShape shapeId (getModel e) with
          | Some shape =>
              (let* _ := onSelection
                           (if shiftKey || ctrlKey
                            then SelectionManager.toggleShape shape
                            else SelectionManager.selectShape shape false) in
               startDrag point) e
          | None => Return tt e
          end
      | None =>
          match connectorElement target with
          | Some connId =>
              match getConnection connId (getModel e) with
              | Some connection =>
                  onSelection (SelectionManager.selectConnection connection false) e
              | None => Return tt e
              end
          | None =>
              if negb shiftKey && negb ctrlKey
              then onSelection SelectionManager.clearSelection e
              else Return tt e
          end
      end
  end.

(** [handleDeleteClick(point, target)] *)
Definition handleDeleteClick (target : Target) (e : Editor) : Outcome Editor unit :=
  match shapeElement target with
  | Some shapeId =>
      match getShape shapeId (getModel e) with
      | Some shape =>
          (let* command := newCommand (newRemoveShapeCommand shape (getModel e)) in
           commandManager_execute command) e
      | None => Return tt e
      end
  | None => Return tt e
  end.

(** [ShapeFactory.create(type, options)] followed by the storing of the
    new object. *)
Definition createShape (type : string) (options : Shape.Options) (e : Editor)
  : Outcome Editor ref :=
  let m := getModel e in
  let shape := ShapeFactory.create (shapeFactory e) (generateId e "shape" (nextRef m))
                                   type options in
  let '(r, m') := allocShape shape m in
  Return r (setModel m' e).

Definition shapeOptions (x y width height : Q) (diagramType : string) : Shape.Options :=
  Shape.mkOptions None None (Some diagramType) (Some x) (Some y) (Some width) (Some height)
                  None None None None None None None.

(** [handleShapeToolClick(point)] *)
Definition handleShapeToolClick (point : Geometry.Point) (e : Editor) : Outcome Editor unit :=
  let snappedPoint := Geometry.mkPoint (Geometry.snapToGrid (Geometry.x point) 20)
                                       (Geometry.snapToGrid (Geometry.y point) 20) in
  match activePlugin e with
  | None => Throw "TypeError" e
  | Some plugin =>
      match Plugin.getShapeDefinitions plugin !! currentTool (controller e) with
      | Some shapeDef =>
          (let* shape :=
             createShape (currentTool (controller e))
               (shapeOptions
                  (Geometry.x snappedPoint - Plugin.defaultWidth shapeDef / 2)
                  (Geometry.y snappedPoint - Plugin.defaultHeight shapeDef / 2)
                  (Plugin.defaultWidth shapeDef) (Plugin.defaultHeight shapeDef)
                  (Plugin.id plugin)) in
           let* command := (fun e' => newCommand (newAddShapeCommand shape (getModel e')) e') in
           let* _ := commandManager_execute command in
           let* _ := onSelection (SelectionManager.selectShape shape false) in
           (* this.eventBus.emit(Events.TOOL_SELECTED, { toolId: 'select' }) *)
           handleToolSelected "select") e
      | None => Return tt e
      end
  end.

(** [handleConnectorToolClick(point, target)] *)
Definition handleConnectorToolClick (target : Target) (e : Editor) : Outcome Editor unit :=
  match shapeElement target with
  | None => resetConnectionState e
  | Some shapeId =>
      match getShape shapeId (getModel e) with
      | None => Return tt e
      | Some shape =>
          match connectionSource (controller e) with
          | None =>
              update (fun c =>
                {| currentTool := currentTool c; state := connecting;
                   dragStartPoint := dragStartPoint c; isDragging := isDragging c;
                   isResizing := isResizing c; resizeHandle := resizeHandle c;
                   resizeStartBounds := resizeStartBounds c;
                   connectionSource := Some shape;
                   resizingShape := resizingShape c |}) e
          | Some source =>
              match shapeObjs (getModel e) !! source, shapeObjs (getModel e) !! shape,
                    activePlugin e with
              | Some sourceObj, Some shapeObj, Some plugin =>
                  if negb (String.eqb (Shape.id sourceObj) (Shape.id shapeObj)) then
                    let validationResult :=
                      Plugin.validateConnection plugin sourceObj shapeObj
                                                (currentTool (controller e)) in
                    (let* _ :=
                       (if Plugin.isValid validationResult then
                          fun e =>
                            let m := getModel e in
                            let connection :=
                              Connection.new (generateId e "conn" (nextRef m))
                                (Connection.mkOptions None (Some (currentTool (controller e)))
                                   (Some (Plugin.id plugin))
                                   (Some (Shape.id sourceObj)) None
                                   (Some (Shape.id shapeObj)) None
                                   None None None None) in
                            let connection :=
                              Connection.setTargetShape (Some shape)
                                (Connection.setSourceShape (Some source) connection) in
                            let '(r, m') := allocConnection connection m in
                            (let* command :=
                               (fun e' => newCommand (newAddConnectionCommand r (getModel e')) e') in
                             commandManager_execute command) (setModel m' e)
                        else retO tt) in
                     resetConnectionState) e
                  else Return tt e
              | _, _, _ => Throw "TypeError" e
              end
          end
      end
  end.

(** [handleCanvasClicked({point, target, shiftKey, ctrlKey, originalEvent})] *)
Definition handleCanvasClicked (point : Geometry.Point) (target : Target)
    (shiftKey ctrlKey : bool) (e : Editor) : Outcome Editor unit :=
  let tool := currentTool (controller e) in
  if String.eqb tool "select" then handleSelectClick point target shiftKey ctrlKey e
  else if String.eqb tool "delete" then handleDeleteClick target e
  else
    match activePlugin e with
    | Some plugin =>
        match Plugin.getShapeDefinitions plugin !! tool with
        | Some _ => handleShapeToolClick point e
        | None =>
            if existsb (String.eqb tool) (Plugin.getConnectorTypes plugin)
            then handleConnectorToolClick target e
            else Return tt e
        end
    | None => Return tt e
    end.

(** [handleCanvasMouseMove({point, target})]; the preview line of a
    pending connection is only drawn. *)
Definition handleCanvasMouseMove (point : Geometry.Point) : Editor -> Outcome Editor unit :=
  let* _ := (fun e =>
    if isDragging (controller e) && bool_decide (state (controller e) = dragging)
    then doDrag point e else Return tt e) in
  fun e =>
    if isResizing (controller e) && bool_decide (state (controller e) = resizing)
    then doResize point e else Return tt e.

(** [handleMouseUp(e)] *)
Definition handleMouseUp : Editor -> Outcome Editor unit :=
  let* _ := (fun e =>
    if isDragging (controller e) && bool_decide (state (controller e) = dragging)
    then endDrag e else Return tt e) in
  fun e =>
    if isResizing (controller e) && bool_decide (state (controller e) = resizing)
    then endResize e else Return tt e.

(** [handleKeyDown(e)] *)
Definition handleKeyDown (key : string) (ctrlKey metaKey shiftKey altKey : bool)
  : Editor -> Outcome Editor unit :=
  (* Delete selected *)
  let* _ := (fun e =>
    if String.eqb key "Delete" || String.eqb key "Backspace" then
      (let* _ :=
         (fix each (shapes : list ref) : Editor -> Outcome Editor unit :=
            match shapes with
            | [] => retO tt
            | shape :: rest =>
                let* command :=
                  (fun e' => newCommand (newRemoveShapeCommand shape (getModel e')) e') in
                let* _ := commandManager_execute command in
                each rest
            end) (SelectionManager.getSelectedShapes (selectionManager e)) in
       onSelection SelectionManager.clearSelection) e
    else Return tt e) in
  (* Undo *)
  let* _ := (fun e =>
    if String.eqb key "z" && (ctrlKey || metaKey) then
      (if shiftKey
       then (let* _ := commandManager_redo in retO tt) e
       else (let* _ := commandManager_undo in retO tt) e)
    else Return tt e) in
  (* Redo (Ctrl+Y) *)
  let* _ := (fun e =>
    if String.eqb key "y" && (ctrlKey || metaKey)
    then (let* _ := commandManager_redo in retO tt) e
    else Return tt e) in
  (* Escape - cancel current action *)
  let* _ := (fun e =>
    if String.eqb key "Escape"
    then (let* _ := resetState in onSelection SelectionManager.clearSelection) e
    else Return tt e) in
  (* Tool shortcuts *)
  fun e =>
    if negb ctrlKey && negb metaKey && negb altKey then
      if String.eqb key "v" || String.eqb key "V" then handleToolSelected "select" e
      else if String.eqb key "h" || String.eqb key "H" then handleToolSelected "pan" e
      else Return tt e
    else Return tt e.

(** [handleToolDropped({toolId, toolType, x, y})] *)
Definition handleToolDropped (toolId : string) (x y : Q) (e : Editor) : Outcome Editor unit :=
  match activePlugin e with
  | None => Return tt e
  | Some plugin =>
      let shapeTool := existsb (String.eqb toolId) (Plugin.getShapeTools plugin) in
      let shapeDef := Plugin.getShapeDefinitions plugin !! toolId in
      let isConnector := existsb (String.eqb toolId) (Plugin.getConnectorTypes plugin) in
      if isConnector then Return tt e
      else if shapeTool || bool_decide (is_Some shapeDef) then
        let snappedX := Geometry.snapToGrid x 20 in
        let snappedY := Geometry.snapToGrid y 20 in
        let '(defaultWidth, defaultHeight) :=
          match shapeDef with
          | Some d => (or_num (Some (Plugin.defaultWidth d)) 100,
                       or_num (Some (Plugin.defaultHeight d)) 60)
          | None =>
              if ShapeFactory.has (shapeFactory e) toolId then
                let tempShape :=
                  ShapeFactory.create (shapeFactory e)
                    (generateId e "shape" (nextRef (getModel e))) toolId
                    (Shape.mkOptions None None None (Some 0) (Some 0) None None
                                     None None None None None None None) in
                (or_num (Some (Shape.width tempShape)) 100,
                 or_num (Some (Shape.height tempShape)) 60)
              else (100, 60)
          end in
        (let* shape :=
           createShape toolId
             (shapeOptions (snappedX - defaultWidth / 2) (snappedY - defaultHeight / 2)
                           defaultWidth defaultHeight (Plugin.id plugin)) in
         let* command := (fun e' => newCommand (newAddShapeCommand shape (getModel e')) e') in
         let* _ := commandManager_execute command in
         onSelection (SelectionManager.selectShape shape false)) e
      else Return tt e
  end.

(** One input event. An error that leaves a handler is reported by the
    event bus or the browser; the editor continues from the state
    reached. *)
Definition handle (ev : Event) : Editor -> Outcome Editor unit :=
  match ev with
  | ToolSelected toolId => handleToolSelected toolId
  | CanvasClicked point target shiftKey ctrlKey =>
      handleCanvasClicked point target shiftKey ctrlKey
  | CanvasMouseMove point _ => handleCanvasMouseMove point
  | ToolDropped toolId x y => handleToolDropped toolId x y
  | KeyDown key ctrlKey metaKey shiftKey altKey =>
      handleKeyDown key ctrlKey metaKey shiftKey altKey
  | MouseUp => handleMouseUp
  end.

Definition step (e : Editor) (ev : Event) : Editor := stateOf (handle ev e).

Definition run (evs : list Event) (e : Editor) : Editor := fold_left step evs e.

(** The gestures whose flags are set. *)
Definition draggingFlag (c : t) : bool := isDragging c.
Definition resizingFlag (c : t) : bool := isResizing c.
Definition connectingFlag (c : t) : bool :=
  match connectionSource c with Some _ => true | None => false end.

(** The gestures the handlers act on: a flag together with the matching
    [state], as [handleCanvasMouseMove] and [handleMouseUp] test them. *)
Definition draggingActive (c : t) : bool := isDragging c && bool_decide (state c = dragging).
Definition resizingActive (c : t) : bool := isResizing c && bool_decide (state c = resizing).
Definition connectingActive (c : t) : bool :=
  bool_decide (state c = connecting) && connectingFlag c.
End InteractionController.

(* ===================================================================== *)
(** ** A small diagram: two shapes and a connector *)
(* ===================================================================== *)

Module Scenario.
Import Diagram.
Local Open Scope Q_scope.

Definition at_ (id : string) (x y width height : Q) : Shape.Options :=
  Shape.mkOptions (Some id) None None (Some x) (Some y) (Some width) (Some height)
                  None None None None None None None.

(** Shape A at (0,0,100,60) and shape B at (300,0,100,60). *)
Definition shapeA : Shape.t := Shape.new "shape-0" (at_ "A" 0 0 100 60).
Definition shapeB : Shape.t := Shape.new "shape-1" (at_ "B" 300 0 100 60).

(** A shape with a minimum width of its own, and one smaller than the
    default minimum, as the state plugin registers its initial state. *)
Definition shapeWide : Shape.t :=
  Shape.new "shape-2"
    (Shape.mkOptions (Some "Wide") None None (Some 0) (Some 200) (Some 120) (Some 60)
                     None None None None (Some 100) None None).
Definition shapeSmall : Shape.t := Shape.new "shape-3" (at_ "Small" 200 200 30 30).

(** A connector from A to B; both anchors default to [auto]. *)
Definition connAB : Connection.t :=
  Connection.new "conn-0"
    (Connection.mkOptions (Some "AB") None None (Some "A") None (Some "B") None
                          None None None None).

Definition a : ref := 1%positive.
Definition b : ref := 2%positive.
Definition wide : ref := 3%positive.
Definition small : ref := 4%positive.
Definition ab : ref := 5%positive.

(** The objects exist; the diagram is still empty. *)
Definition objects : Model :=
  {| shapeObjs := {[ a := shapeA; b := shapeB; wide := shapeWide; small := shapeSmall ]};
     connObjs := {[ ab := connAB ]};
     diagram := new "diagram-0" "2024-01-01T00:00:00.000Z"
                    (mkOptions None None (Some "My Diagram") None None None None);
     now := "2024-01-01T00:00:01.000Z";
     nextRef := 6%positive |}.

(** [addShape(A); addShape(B); addConnection(AB)] and the other two
    shapes. *)
Definition connected : Model :=
  stateOf ((let* _ := addShape a in
            let* _ := addShape b in
            let* _ := addConnection ab in
            let* _ := addShape wide in
            addShape small) objects).

(** Command objects over the diagram: a move of A, which always
    succeeds, and a style update of the connector, whose body throws
    because connections have no [setStyle]. *)
Definition moveA : ref := 6%positive.
Definition restyleAB : ref := 7%positive.

Definition world : Commands.World :=
  {| Commands.model :=
       {| shapeObjs := shapeObjs connected; connObjs := connObjs connected;
          diagram := diagram connected; now := now connected;
          nextRef := 8%positive |};
     Commands.cmdObjs :=
       {[ moveA := Commands.mk "Move rectangle" (Commands.MoveShapesCommand [a] 10 5);
          restyleAB := Commands.newUpdateStyleCommand (Commands.ConnectionElement ab)
                         ∅ {[ "stroke" := VStr "#FF0000" ]} ]} |}.


(** A history with the move on top of the undo stack. *)
Definition moved : CommandManager.t :=
  {| CommandManager.undoStack := [restyleAB; moveA];
     CommandManager.redoStack := [];
     CommandManager.maxHistory := 50 |}.

(** A history with the throwing command on top of both stacks. *)
Definition history : CommandManager.t :=
  {| CommandManager.undoStack := [moveA; restyleAB];
     CommandManager.redoStack := [moveA; restyleAB];
     CommandManager.maxHistory := 50 |}.

(** A plugin with one shape tool and one connector type, accepting every
    connection as [DiagramPlugin.validateConnection] does. *)
Definition plugin : Plugin.t :=
  {| Plugin.id := "sequence";
     Plugin.getShapeTools := ["rectangle"];
     Plugin.getShapeDefinitions :=
       {[ "rectangle" := Plugin.mkShapeDefinition 120 60 40 30 true ]};
     Plugin.getConnectorTypes := ["association"];
     Plugin.validateConnection := fun _ _ _ => Plugin.Plain true |}.

(** The editor right after start, showing the diagram above. *)
Definition editor : InteractionController.Editor :=
  {| InteractionController.world :=
       {| Commands.model := Commands.model world; Commands.cmdObjs := ∅ |};
     InteractionController.commandManager := CommandManager.new;
     InteractionController.selectionManager := SelectionManager.new;
     InteractionController.controller := InteractionController.new;
     InteractionController.activePlugin := Some plugin;
     InteractionController.shapeFactory := ShapeFactory.base;
     InteractionController.generateId := fun prefix n => (prefix +:+ "-" +:+ pretty n)%string |}.

(** Loading a serialized diagram with the factories of the repository,
    [Shape.fromJSON] and [Connection.fromJSON]. *)
Definition reload (data : JSON) : Model :=
  fromJSON "diagram-1" "2024-01-02T00:00:00.000Z" data
           (Some (Shape.fromJSON "shape-9")) (Some (Connection.fromJSON "conn-9")).

(** The [source] and [target] of the serialized connections. *)
Definition endpoints (data : JSON) : list (Connection.Endpoint * Connection.Endpoint) :=
  map (fun c => (Connection.j_source c, Connection.j_target c)) (j_connections data).
End Scenario.

(* ===================================================================== *)
(** ** Invariants *)
(* ===================================================================== *)

(** The history invariant: the two stacks together never hold more than
    [maxHistory] commands. *)
Definition bounded (m : CommandManager.t) : Prop :=
  length (CommandManager.undoStack m) + length (CommandManager.redoStack m)
  <= CommandManager.maxHistory m.

(** What each event preserves: dragging is only flagged under the select
    tool, a connection source is only pending under another tool and
    while [state] is [connecting], and [state] names a gesture only when
    that gesture's flag is set. *)
Definition consistent (c : InteractionController.t) : Prop :=
  (InteractionController.isDragging c = true -> InteractionController.currentTool c = "select")
  /\ (InteractionController.connectingFlag c = true ->
      InteractionController.currentTool c <> "select"
      /\ InteractionController.state c = InteractionController.connecting)
  /\ (InteractionController.state c = InteractionController.dragging ->
      InteractionController.isDragging c = true)
  /\ (InteractionController.state c = InteractionController.resizing ->
      InteractionController.isResizing c = true)
  /\ (InteractionController.state c = InteractionController.connecting ->
      InteractionController.connectingFlag c = true)
  /\ InteractionController.state c <> InteractionController.drawing.

(** A handler takes controllers satisfying [P] to controllers satisfying
    [Q], whether it returns or throws. *)
Definition hoare {A} (P : InteractionController.t -> Prop)
    (m : InteractionController.Editor -> Outcome InteractionController.Editor A)
    (Q : InteractionController.t -> Prop) : Prop :=
  forall e, P (InteractionController.controller e) ->
            Q (InteractionController.controller (stateOf (m e))).

(** A handler that leaves the controller's fields alone. *)
Definition frames {A}
    (m : InteractionController.Editor -> Outcome InteractionController.Editor A) : Prop :=
  forall e, InteractionController.controller (stateOf (m e)) = InteractionController.controller e.


(** The gestures that are active, in the order dragging, resizing,
    connecting. *)
Definition activeGestures (c : InteractionController.t) : list InteractionController.State :=
  (if InteractionController.draggingActive c then [InteractionController.dragging] else [])
  ++ (if InteractionController.resizingActive c then [InteractionController.resizing] else [])
  ++ (if InteractionController.connectingActive c then [InteractionController.connecting] else []).

(** The gestures whose flag alone is set: [isDragging], [isResizing], a
    pending [connectionSource]. *)
Definition flaggedGestures (c : InteractionController.t) : list InteractionController.State :=
  (if InteractionController.draggingFlag c then [InteractionController.dragging] else [])
  ++ (if InteractionController.resizingFlag c then [InteractionController.resizing] else [])
  ++ (if InteractionController.connectingFlag c then [InteractionController.connecting] else []).

(** What [resetState] assigns. *)
Definition cleared (c : InteractionController.t) : Prop :=
  InteractionController.state c = InteractionController.idle
  /\ InteractionController.isDragging c = false
  /\ InteractionController.connectionSource c = None.

(** The events that cancel the gesture in progress: a tool change and the
    Escape key. *)
Definition cancels (ev : InteractionController.Event) : bool :=
  match ev with
  | InteractionController.ToolSelected _ => true
  | InteractionController.KeyDown key _ _ _ _ => String.eqb key "Escape"
  | _ => false
  end.

(** Starting a resize or a drag happens under the select tool, where no
    connection source is pending. *)
Definition selecting (c : InteractionController.t) : Prop :=
  consistent c /\ InteractionController.currentTool c = "select".

(** A connector tool is never the select tool. *)
Definition linking (c : InteractionController.t) : Prop :=
  consistent c /\ InteractionController.currentTool c <> "select".

(** Points, rectangles and bounds whose numbers are [integral]. *)
Definition integralPoint (p : Geometry.Point) : Prop :=
  integral (Geometry.x p) /\ integral (Geometry.y p).

Definition integralRectangle (r : Geometry.Rectangle) : Prop :=
  integral (Geometry.rx r) /\ integral (Geometry.ry r)
  /\ integral (Geometry.rwidth r) /\ integral (Geometry.rheight r).


Definition integralRectangleb (r : Geometry.Rectangle) : bool :=
  integralb (Geometry.rx r) && integralb (Geometry.ry r)
  && integralb (Geometry.rwidth r) && integralb (Geometry.rheight r).



(** The selection and the [selected] flags of the objects agree: what is
    in a selection set is an object flagged selected, and an object
    flagged selected is in its selection set. *)
Definition tracked (s : SelectionManager.St) : Prop :=
  (forall r, In r (SelectionManager.selectedShapes (fst s)) ->
             exists o, Diagram.shapeObjs (snd s) !! r = Some o /\ Shape.selected o = true)
  /\ (forall r o, Diagram.shapeObjs (snd s) !! r = Some o -> Shape.selected o = true ->
                  In r (SelectionManager.selectedShapes (fst s)))
  /\ (forall r, In r (SelectionManager.selectedConnections (fst s)) ->
                exists o, Diagram.connObjs (snd s) !! r = Some o
                          /\ Connection.selected o = true)
  /\ (forall r o, Diagram.connObjs (snd s) !! r = Some o -> Connection.selected o = true ->
                  In r (SelectionManager.selectedConnections (fst s))).

(** The zoom factor stays within the limits the constructor sets. *)
Definition zoomInRange (c : SVGCanvas.t) : Prop :=
  (SVGCanvas.minZoom c = 1 # 10 /\ SVGCanvas.maxZoom c = 3
   /\ 1 # 10 <= SVGCanvas.zoom c /\ SVGCanvas.zoom c <= 3)%Q.

(** A drag in progress from [start]: the flag and the state say so, and
    the selected shapes are distinct objects of the model. *)
Definition draggingFrom (start : Geometry.Point) (e : InteractionController.Editor) : Prop :=
  InteractionController.isDragging (InteractionController.controller e) = true
  /\ InteractionController.state (InteractionController.controller e)
     = InteractionController.dragging
  /\ InteractionController.dragStartPoint (InteractionController.controller e) = Some start
  /\ NoDup (SelectionManager.getSelectedShapes (InteractionController.selectionManager e))
  /\ forall r, In r (SelectionManager.getSelectedShapes (InteractionController.selectionManager e)) ->
               is_Some (Diagram.shapeObjs (InteractionController.getModel e) !! r).

(** A shape is where another was, moved by [(dx, dy)]. *)
Definition movedBy (dx dy : Q) (s s' : Shape.t) : Prop :=
  (Shape.x s' == Shape.x s + dx /\ Shape.y s' == Shape.y s + dy
   /\ Shape.width s' = Shape.width s /\ Shape.height s' = Shape.height s)%Q.

(** No stored connection leads from a shape to itself. *)
Definition noSelfLoops (m : Diagram.Model) : Prop :=
  forall k r c,
    Diagram.getConnection k m = Some r ->
    Diagram.connObjs m !! r = Some c ->
    Connection.shapeId (Connection.source c) <> Connection.shapeId (Connection.target c).

(* ===================================================================== *)
(** * Properties *)
(* ===================================================================== *)

(** ** Arrays used as stacks *)

Lemma pop_push {A} (l : list A) (a : A) : pop (push l a) = Some (a, l).
Proof. unfold pop, push. rewrite rev_app_distr. simpl. by rewrite rev_involutive. Qed.

Lemma pop_Some {A} (l r : list A) (a : A) : pop l = Some (a, r) -> l = push r a.
Proof.
  unfold pop, push. intros Hp.
  destruct (rev l) as [|b t] eqn:E; [discriminate|].
  injection Hp as -> <-.
  rewrite <- (rev_involutive l), E. reflexivity.
Qed.

Lemma pop_nil {A} (l : list A) : pop l = None -> l = [].
Proof.
  unfold pop. destruct (rev l) eqn:E; [|discriminate].
  intros _. rewrite <- (rev_involutive l), E. reflexivity.
Qed.

Lemma top_push {A} (l : list A) (a : A) : top (push l a) = Some a.
Proof. unfold top. by rewrite pop_push. Qed.

Lemma length_push {A} (l : list A) (a : A) : length (push l a) = S (length l).
Proof. unfold push. rewrite length_app. simpl. lia. Qed.

Lemma lastN_all {A} (n : nat) (l : list A) : length l <= n -> lastN n l = l.
Proof. intros Hl. unfold lastN. replace (length l - n) with 0 by lia. reflexivity. Qed.

Lemma length_lastN {A} (n : nat) (l : list A) : n <= length l -> length (lastN n l) = n.
Proof. intros Hl. unfold lastN. rewrite length_drop. lia. Qed.

Lemma lastN_app_lastN {A} (n : nat) (a b : list A) :
  lastN n (lastN n a ++ b) = lastN n (a ++ b).
Proof.
  destruct (decide (length a <= n)) as [Hle|Hgt].
  - by rewrite (lastN_all n a).
  - unfold lastN at 1 3. rewrite !length_app, length_lastN by lia.
    replace (n + length b - n) with (length b) by lia.
    replace (length a + length b - n) with ((length a - n) + length b) by lia.
    rewrite <- drop_drop. f_equal.
    unfold lastN. rewrite drop_app_le by lia. reflexivity.
Qed.

Lemma lastN_app_long {A} (n : nat) (a b : list A) :
  n <= length b -> lastN n (a ++ b) = lastN n b.
Proof.
  intros Hl. unfold lastN. rewrite length_app.
  rewrite drop_app_ge by lia. f_equal. lia.
Qed.

Lemma limit_lastN (n : nat) (l : list ref) (a : ref) :
  length l <= n -> CommandManager.limit n (push l a) = lastN n (push l a).
Proof.
  intros Hl. unfold CommandManager.limit. rewrite length_push.
  destruct (Nat.ltb_spec n (S (length l))) as [Hlt|Hge].
  - unfold lastN, shift. rewrite length_push.
    replace (S (length l) - n) with 1 by lia. by destruct (push l a).
  - rewrite lastN_all; [reflexivity|]. rewrite length_push. lia.
Qed.

Lemma length_limit (n : nat) (l : list ref) (a : ref) :
  length l <= n -> length (CommandManager.limit n (push l a)) <= n.
Proof.
  intros Hl. unfold CommandManager.limit. rewrite length_push.
  destruct (Nat.ltb_spec n (S (length l))) as [Hlt|Hge].
  - unfold shift. destruct (push l a) eqn:E; simpl; [lia|].
    apply (f_equal length) in E. rewrite length_push in E. simpl in E. lia.
  - rewrite length_push. lia.
Qed.

(** ** The command history *)

Section History.
Context {W : Type} `{Command.Host W}.

Lemma manager_eta (m : CommandManager.t) :
  {| CommandManager.undoStack := CommandManager.undoStack m;
     CommandManager.redoStack := CommandManager.redoStack m;
     CommandManager.maxHistory := CommandManager.maxHistory m |} = m.
Proof. by destruct m. Qed.

Lemma canUndo_spec (m : CommandManager.t) :
  CommandManager.canUndo m = false <-> CommandManager.undoStack m = [].
Proof. unfold CommandManager.canUndo. destruct (CommandManager.undoStack m); cbn; split; intros; done. Qed.

Lemma canRedo_spec (m : CommandManager.t) :
  CommandManager.canRedo m = false <-> CommandManager.redoStack m = [].
Proof. unfold CommandManager.canRedo. destruct (CommandManager.redoStack m); cbn; split; intros; done. Qed.

Lemma pop_canUndo (m : CommandManager.t) command rest :
  pop (CommandManager.undoStack m) = Some (command, rest) -> CommandManager.canUndo m = true.
Proof.
  intros Hp. destruct (CommandManager.canUndo m) eqn:E; [reflexivity|].
  apply canUndo_spec in E. rewrite E in Hp. discriminate.
Qed.

Lemma pop_canRedo (m : CommandManager.t) command rest :
  pop (CommandManager.redoStack m) = Some (command, rest) -> CommandManager.canRedo m = true.
Proof.
  intros Hp. destruct (CommandManager.canRedo m) eqn:E; [reflexivity|].
  apply canRedo_spec in E. rewrite E in Hp. discriminate.
Qed.

(** C4. A command whose body throws leaves the history as it was:
    [execute] rethrows the error with both stacks untouched; [undo] and
    [redo] put the popped command back on the stack it came from and
    return [false]. *)
Theorem failed_command_keeps_history (m : CommandManager.t) (w : W) :
  (forall command e w',
      Command.execute command w = Throw e w' ->
      CommandManager.execute command (m, w) = Throw e (m, w'))
  /\ (forall command rest e w',
         pop (CommandManager.undoStack m) = Some (command, rest) ->
         Command.undo command w = Throw e w' ->
         CommandManager.undo (m, w) = (false, (m, w')))
  /\ (forall command rest e w',
         pop (CommandManager.redoStack m) = Some (command, rest) ->
         Command.execute command w = Throw e w' ->
         CommandManager.redo (m, w) = (false, (m, w'))).
Proof.
  repeat split.
  - intros command e w' Hthrow. unfold CommandManager.execute. by rewrite Hthrow.
  - intros command rest e w' Hpop Hthrow. unfold CommandManager.undo.
    rewrite (pop_canUndo _ _ _ Hpop), Hpop, Hthrow. simpl.
    rewrite <- (pop_Some _ _ _ Hpop). by rewrite manager_eta.
  - intros command rest e w' Hpop Hthrow. unfold CommandManager.redo.
    rewrite (pop_canRedo _ _ _ Hpop), Hpop, Hthrow. simpl.
    rewrite <- (pop_Some _ _ _ Hpop). by rewrite manager_eta.
Qed.

(** C5. After a successful [execute] the redo stack is empty; after a
    successful [undo] the command that was popped from the undo stack and
    undone is the top of the redo stack; [undo] on an empty undo stack
    returns [false] and changes nothing. *)
Theorem history_exclusivity (m : CommandManager.t) (w : W) :
  (forall command m' w',
      CommandManager.execute command (m, w) = Return tt (m', w') ->
      CommandManager.redoStack m' = [])
  /\ (forall m' w',
         CommandManager.undo (m, w) = (true, (m', w')) ->
         exists command rest,
           pop (CommandManager.undoStack m) = Some (command, rest)
           /\ Command.undo command w = Return tt w'
           /\ CommandManager.undoStack m' = rest
           /\ top (CommandManager.redoStack m') = Some command)
  /\ (CommandManager.undoStack m = [] ->
      CommandManager.undo (m, w) = (false, (m, w))).
Proof.
  repeat split.
  - intros command m' w'. unfold CommandManager.execute.
    destruct (Command.execute command w); [|discriminate].
    intros [= <- _]. reflexivity.
  - intros m' w'. unfold CommandManager.undo.
    destruct (CommandManager.canUndo m); simpl; [|discriminate].
    destruct (pop (CommandManager.undoStack m)) as [[command rest]|]; [|discriminate].
    destruct (Command.undo command w) as [[] w1|] eqn:E; [|discriminate].
    intros [= <- <-]. exists command, rest. simpl.
    by rewrite top_push.
  - intros Hempty. unfold CommandManager.undo.
    apply canUndo_spec in Hempty. by rewrite Hempty.
Qed.

Lemma bounded_new : bounded CommandManager.new.
Proof. unfold bounded. simpl. lia. Qed.

Lemma addToHistory_bounded (command : ref) (m : CommandManager.t) :
  bounded m -> bounded (CommandManager.addToHistory command m).
Proof.
  unfold bounded. simpl. intros Hb.
  pose proof (length_limit (CommandManager.maxHistory m) (CommandManager.undoStack m) command).
  lia.
Qed.

Lemma maxHistory_addToHistory (command : ref) (m : CommandManager.t) :
  CommandManager.maxHistory (CommandManager.addToHistory command m) = CommandManager.maxHistory m.
Proof. reflexivity. Qed.

Lemma call_bounded (s : CommandManager.t * W) (c : CommandManager.Call) :
  bounded (fst s) ->
  bounded (fst (CommandManager.call s c))
  /\ CommandManager.maxHistory (fst (CommandManager.call s c)) = CommandManager.maxHistory (fst s).
Proof.
  destruct s as [m w]. simpl. intros Hb. destruct c as [command|command| |]; simpl.
  - unfold CommandManager.execute. destruct (Command.execute command w); simpl.
    + split; [by apply addToHistory_bounded|reflexivity].
    + done.
  - split; [by apply addToHistory_bounded|reflexivity].
  - unfold CommandManager.undo.
    destruct (CommandManager.canUndo m); simpl; [|done].
    destruct (pop (CommandManager.undoStack m)) as [[command rest]|] eqn:Hpop; [|done].
    apply pop_Some in Hpop. unfold bounded in *. rewrite Hpop, length_push in Hb.
    destruct (Command.undo command w); simpl; rewrite length_push; split; (lia || reflexivity).
  - unfold CommandManager.redo.
    destruct (CommandManager.canRedo m); simpl; [|done].
    destruct (pop (CommandManager.redoStack m)) as [[command rest]|] eqn:Hpop; [|done].
    apply pop_Some in Hpop. unfold bounded in *. rewrite Hpop, length_push in Hb.
    destruct (Command.execute command w); simpl; rewrite length_push; split; (lia || reflexivity).
Qed.

Lemma calls_bounded (cs : list CommandManager.Call) (s : CommandManager.t * W) :
  bounded (fst s) ->
  bounded (fst (CommandManager.calls cs s))
  /\ CommandManager.maxHistory (fst (CommandManager.calls cs s)) = CommandManager.maxHistory (fst s).
Proof.
  revert s. induction cs as [|c cs IH]; intros s Hb; simpl; [done|].
  destruct (call_bounded s c Hb) as [Hb' Hmax].
  destruct (IH _ Hb') as [Hb'' Hmax']. split; [done|congruence].
Qed.

Lemma record_lastN (cs : list CommandManager.Call) (s : CommandManager.t * W)
    (done : list ref) (s' : CommandManager.t * W) :
  length (CommandManager.undoStack (fst s)) <= CommandManager.maxHistory (fst s) ->
  CommandManager.record cs s = Some (done, s') ->
  length done = length cs
  /\ CommandManager.undoStack (fst s')
     = lastN (CommandManager.maxHistory (fst s)) (CommandManager.undoStack (fst s) ++ done).
Proof.
  revert s done s'. induction cs as [|c cs IH]; intros [m w] done s'; simpl; intros Hlen Hrec.
  - injection Hrec as <- <-. simpl. rewrite app_nil_r, lastN_all by done. done.
  - assert (Hpush : forall command w1 done1,
               CommandManager.record cs (CommandManager.addToHistory command m, w1)
               = Some (done1, s') ->
               length (command :: done1) = S (length cs)
               /\ CommandManager.undoStack (fst s')
                  = lastN (CommandManager.maxHistory m)
                          (CommandManager.undoStack m ++ command :: done1)).
    { intros command w1 done1 Hrec1.
      apply IH in Hrec1 as [Hl Hstack].
      - split; [simpl; lia|]. rewrite Hstack. simpl.
        rewrite limit_lastN by done. rewrite lastN_app_lastN.
        unfold push. by rewrite <- app_assoc.
      - simpl. by apply length_limit. }
    destruct c as [command|command| |]; try discriminate.
    + unfold CommandManager.execute in Hrec.
      destruct (Command.execute command w) as [[] w1|]; [|discriminate].
      destruct (CommandManager.record cs _) as [[done1 s1]|] eqn:Hrec1; [|discriminate].
      simpl in Hrec. injection Hrec as <- <-. by apply (Hpush command w1).
    + destruct (CommandManager.record cs _) as [[done1 s1]|] eqn:Hrec1; [|discriminate].
      simpl in Hrec. injection Hrec as <- <-. by apply (Hpush command w).
Qed.

(** C6. From any state a new manager can reach, more than 50 successive
    [execute] or [addToHistory] calls that do not throw leave exactly the
    50 most recent commands on the undo stack, in call order (the older
    ones were shifted out at the bottom); and no sequence of [execute],
    [addToHistory], [undo] and [redo] calls makes the undo stack longer
    than 50. *)
Theorem capacity_bound (w0 : W) (before : list CommandManager.Call) :
  (forall cs done s',
      CommandManager.record cs (CommandManager.calls before (CommandManager.new, w0))
      = Some (done, s') ->
      50 < length cs ->
      length done = length cs
      /\ CommandManager.undoStack (fst s') = lastN 50 done
      /\ length (CommandManager.undoStack (fst s')) = 50)
  /\ length (CommandManager.undoStack (fst (CommandManager.calls before (CommandManager.new, w0))))
     <= 50.
Proof.
  destruct (calls_bounded before (CommandManager.new, w0) bounded_new) as [Hb Hmax].
  simpl in Hmax. unfold bounded in Hb. rewrite Hmax in Hb.
  split; [|lia].
  intros cs done s' Hrec Hlong.
  apply record_lastN in Hrec as [Hl Hstack]; [|lia].
  rewrite Hmax in Hstack. rewrite lastN_app_long in Hstack by lia.
  split; [done|]. split; [done|].
  rewrite Hstack. apply length_lastN. lia.
Qed.
End History.

Lemma failed_command_keeps_history_witness :
  CommandManager.execute Scenario.restyleAB (Scenario.history, Scenario.world)
  = Throw "TypeError: element.setStyle is not a function" (Scenario.history, Scenario.world)
  /\ CommandManager.undo (Scenario.history, Scenario.world)
     = (false, (Scenario.history, Scenario.world))
  /\ CommandManager.redo (Scenario.history, Scenario.world)
     = (false, (Scenario.history, Scenario.world)).
Proof.
  destruct (failed_command_keeps_history Scenario.history Scenario.world)
    as (Hexecute & Hundo & Hredo).
  split; [|split].
  - apply Hexecute. vm_compute. reflexivity.
  - apply (Hundo Scenario.restyleAB [Scenario.moveA]
                 "TypeError: element.setStyle is not a function").
    + reflexivity.
    + vm_compute. reflexivity.
  - apply (Hredo Scenario.restyleAB [Scenario.moveA]
                 "TypeError: element.setStyle is not a function").
    + reflexivity.
    + vm_compute. reflexivity.
Defined.

Lemma history_exclusivity_witness :
  (exists m' w',
      CommandManager.execute Scenario.moveA (Scenario.history, Scenario.world)
      = Return tt (m', w')
      /\ CommandManager.redoStack m' = [])
  /\ (exists m' w',
         CommandManager.undo (Scenario.moved, Scenario.world) = (true, (m', w'))
         /\ CommandManager.undoStack m' = [Scenario.restyleAB]
         /\ top (CommandManager.redoStack m') = Some Scenario.moveA)
  /\ CommandManager.undo (CommandManager.new, Scenario.world)
     = (false, (CommandManager.new, Scenario.world)).
Proof.
  split; [|split].
  - destruct (CommandManager.execute Scenario.moveA (Scenario.history, Scenario.world))
      as [[] [m' w']|e s] eqn:E; [|vm_compute in E; discriminate].
    exists m', w'. split; [reflexivity|].
    exact (proj1 (history_exclusivity Scenario.history Scenario.world) _ _ _ E).
  - destruct (CommandManager.undo (Scenario.moved, Scenario.world))
      as [[] [m' w']] eqn:E; [|vm_compute in E; discriminate].
    exists m', w'. split; [reflexivity|].
    destruct (proj1 (proj2 (history_exclusivity Scenario.moved Scenario.world)) _ _ E)
      as (command & rest & Hpop & _ & Hrest & Htop).
    vm_compute in Hpop. injection Hpop as <- <-. split; assumption.
  - apply (proj2 (proj2 (history_exclusivity CommandManager.new Scenario.world))).
    reflexivity.
Defined.

Lemma capacity_bound_witness :
  exists done s',
    CommandManager.record (repeat (CommandManager.Execute Scenario.moveA) 51)
      (CommandManager.calls [CommandManager.Undo; CommandManager.Redo]
                            (CommandManager.new, Scenario.world))
    = Some (done, s')
    /\ CommandManager.undoStack (fst s') = lastN 50 done
    /\ length (CommandManager.undoStack (fst s')) = 50.
Proof.
  destruct (CommandManager.record (repeat (CommandManager.Execute Scenario.moveA) 51)
              (CommandManager.calls [CommandManager.Undo; CommandManager.Redo]
                                    (CommandManager.new, Scenario.world)))
    as [[done s']|] eqn:E; [|vm_compute in E; discriminate].
  exists done, s'. split; [reflexivity|].
  destruct (proj1 (capacity_bound Scenario.world [CommandManager.Undo; CommandManager.Redo])
              _ _ _ E) as (_ & Hstack & Hlen).
  - rewrite repeat_length. lia.
  - split; assumption.
Defined.

(** ** Geometry: anchors and resize *)

Section Resize.
Import Commands.
Local Open Scope Q_scope.




(** The two copies of [calculateNewBounds] compute the same bounds. *)
Lemma calculateNewBounds_copies (original : Bounds) (handleId : string) (dx dy : Q) :
  ResizeHandleManager.calculateNewBounds original handleId dx dy
  = InteractionController.calculateNewBounds original handleId dx dy.
Proof. reflexivity. Qed.


End Resize.



(** C10. For shape A with bounds (0,0,100,60) and shape B with bounds
    (300,0,100,60), a connection from A to B with [auto] anchors and no
    waypoints starts at A's right-side connection point (100,30) and ends
    at B's left-side connection point (300,30): of the four side points,
    the one nearest to the centre of the other shape. *)
Theorem add_and_connect (shapes : gmap ref Shape.t) (ra rb : ref)
    (A B : Shape.t) (c : Connection.t) :
  shapes !! ra = Some A ->
  shapes !! rb = Some B ->
  Shape.getBounds A = Geometry.mkRectangle 0 0 100 60 ->
  Shape.getBounds B = Geometry.mkRectangle 300 0 100 60 ->
  Connection.sourceShape c = Some ra ->
  Connection.targetShape c = Some rb ->
  Connection.anchor (Connection.source c) = "auto" ->
  Connection.anchor (Connection.target c) = "auto" ->
  Connection.waypoints c = [] ->
  exists start end_,
    Connection.getStartPoint shapes c = Some start
    /\ Connection.getEndPoint shapes c = Some end_
    /\ start = Geometry.getConnectionPoint (Shape.getBounds A) "right"
    /\ Geometry.equals start (Geometry.mkPoint 100 30) = true
    /\ end_ = Geometry.getConnectionPoint (Shape.getBounds B) "left"
    /\ Geometry.equals end_ (Geometry.mkPoint 300 30) = true
    /\ Shape.getNearestConnectionPoint A (Geometry.center (Shape.getBounds B))
       = ("right", start)
    /\ Shape.getNearestConnectionPoint B (Geometry.center (Shape.getBounds A))
       = ("left", end_).
Proof.
  intros HA HB HboundsA HboundsB Hsrc Htgt Hsa Hta _.
  exists (Geometry.getConnectionPoint (Shape.getBounds A) "right"),
         (Geometry.getConnectionPoint (Shape.getBounds B) "left").
  unfold Connection.getStartPoint, Connection.getEndPoint, Shape.getNearestConnectionPoint.
  rewrite Hsrc, Htgt, Hsa, Hta, HA, HB.
  cbn [String.eqb Ascii.eqb Bool.eqb mbind option_bind fmap option_fmap option_map].
  rewrite HboundsA, HboundsB.
  repeat split; vm_compute; reflexivity.
Qed.

Lemma add_and_connect_witness :
  exists c start end_,
    Diagram.connObjs Scenario.connected !! Scenario.ab = Some c
    /\ Connection.getStartPoint (Diagram.shapeObjs Scenario.connected) c = Some start
    /\ Connection.getEndPoint (Diagram.shapeObjs Scenario.connected) c = Some end_
    /\ Geometry.equals start (Geometry.mkPoint 100 30) = true
    /\ Geometry.equals end_ (Geometry.mkPoint 300 30) = true.
Proof.
  destruct (Diagram.connObjs Scenario.connected !! Scenario.ab) as [c|] eqn:Hc;
    [|vm_compute in Hc; discriminate].
  destruct (Diagram.shapeObjs Scenario.connected !! Scenario.a) as [A|] eqn:HA;
    [|vm_compute in HA; discriminate].
  destruct (Diagram.shapeObjs Scenario.connected !! Scenario.b) as [B|] eqn:HB;
    [|vm_compute in HB; discriminate].
  destruct (add_and_connect (Diagram.shapeObjs Scenario.connected)
              Scenario.a Scenario.b A B c HA HB)
    as (start & end_ & Hs & He & _ & Hstart & _ & Hend & _).
  - vm_compute in HA. injection HA as <-. reflexivity.
  - vm_compute in HB. injection HB as <-. reflexivity.
  - vm_compute in Hc. injection Hc as <-. reflexivity.
  - vm_compute in Hc. injection Hc as <-. reflexivity.
  - vm_compute in Hc. injection Hc as <-. reflexivity.
  - vm_compute in Hc. injection Hc as <-. reflexivity.
  - vm_compute in Hc. injection Hc as <-. reflexivity.
  - exists c, start, end_. repeat split; assumption.
Defined.

(** ** The diagram *)

Section JsMapFacts.
Context {V : Type}.
Implicit Types (m : JsMap.t V) (k : string) (v : V).

Lemma get_set m k v k' :
  JsMap.get k' (JsMap.set k v m) = if String.eqb k k' then Some v else JsMap.get k' m.
Proof.
  induction m as [|[k0 v0] m IH]; simpl.
  - reflexivity.
  - destruct (String.eqb_spec k0 k) as [->|Hne]; simpl.
    + by destruct (String.eqb k k').
    + rewrite IH. destruct (String.eqb_spec k0 k') as [->|Hne'].
      * destruct (String.eqb_spec k k'); [congruence|reflexivity].
      * reflexivity.
Qed.

Lemma get_delete m k k' :
  JsMap.get k' (JsMap.delete k m) = if String.eqb k k' then None else JsMap.get k' m.
Proof.
  induction m as [|[k0 v0] m IH]; simpl.
  - by destruct (String.eqb k k').
  - destruct (String.eqb_spec k0 k) as [->|Hne]; simpl.
    + rewrite IH. destruct (String.eqb_spec k k'); reflexivity.
    + rewrite IH. destruct (String.eqb_spec k0 k') as [->|Hne'].
      * destruct (String.eqb_spec k k'); [congruence|reflexivity].
      * reflexivity.
Qed.

Lemma get_In m k v : JsMap.get k m = Some v -> In (k, v) m.
Proof.
  induction m as [|[k0 v0] m IH]; simpl; [discriminate|].
  destruct (String.eqb_spec k0 k) as [->|Hne].
  - intros [= ->]. by left.
  - intros Hg. right. by apply IH.
Qed.

Lemma In_get m k v : NoDup (JsMap.keys m) -> In (k, v) m -> JsMap.get k m = Some v.
Proof.
  induction m as [|[k0 v0] m IH]; simpl; [contradiction|].
  intros Hnd [Heq|Hin].
  - injection Heq as -> ->. by rewrite String.eqb_refl.
  - apply NoDup_cons in Hnd as [Hnotin Hnd].
    destruct (String.eqb_spec k0 k) as [->|Hne].
    + exfalso. apply Hnotin. apply list_elem_of_In.
      change k with (fst (k, v)). by apply in_map.
    + by apply IH.
Qed.

Lemma keys_set m k v :
  JsMap.keys (JsMap.set k v m)
  = if JsMap.has k m then JsMap.keys m else JsMap.keys m ++ [k].
Proof.
  unfold JsMap.has. induction m as [|[k0 v0] m IH]; simpl; [reflexivity|].
  destruct (String.eqb_spec k0 k) as [->|Hne]; simpl; [reflexivity|].
  rewrite IH. by destruct (JsMap.get k m).
Qed.

Lemma get_None_keys m k : JsMap.get k m = None -> ~ In k (JsMap.keys m).
Proof.
  induction m as [|[k0 v0] m IH]; simpl; [tauto|].
  destruct (String.eqb_spec k0 k) as [->|Hne]; [discriminate|].
  intros Hg [Heq|Hin]; [congruence|by apply IH].
Qed.

Lemma NoDup_set m k v : NoDup (JsMap.keys m) -> NoDup (JsMap.keys (JsMap.set k v m)).
Proof.
  intros Hnd. rewrite keys_set. unfold JsMap.has.
  destruct (JsMap.get k m) eqn:Hg; [assumption|].
  apply NoDup_app. split; [assumption|]. split.
  - intros x Hx Hk. apply list_elem_of_In in Hx. apply list_elem_of_In in Hk.
    destruct Hk as [<-|[]]. by apply (get_None_keys m k).
  - apply NoDup_singleton.
Qed.

Lemma In_delete m k k' v : In (k', v) (JsMap.delete k m) <-> In (k', v) m /\ k' <> k.
Proof.
  induction m as [|[k0 v0] m IH]; simpl; [tauto|].
  destruct (String.eqb_spec k0 k) as [->|Hne]; simpl; rewrite IH.
  - split; [tauto|]. intros [[Heq|Hin] Hk]; [congruence|tauto].
  - split; [|tauto]. intros [Heq|[Hin Hk]]; [|tauto].
    split; [by left|congruence].
Qed.

Lemma NoDup_delete m k : NoDup (JsMap.keys m) -> NoDup (JsMap.keys (JsMap.delete k m)).
Proof.
  induction m as [|[k0 v0] m IH]; simpl; [done|].
  intros Hnd. apply NoDup_cons in Hnd as [Hnotin Hnd].
  destruct (String.eqb_spec k0 k) as [->|Hne]; simpl; [by apply IH|].
  apply NoDup_cons. split; [|by apply IH].
  intros Hin. apply Hnotin. apply list_elem_of_In in Hin. apply list_elem_of_In.
  apply in_map_iff in Hin as [[k1 v1] [Hk Hin]]. simpl in Hk. subst k1.
  apply In_delete in Hin as [Hin _].
  change k0 with (fst (k0, v1)). by apply in_map.
Qed.

End JsMapFacts.

Section DiagramFacts.
Import Diagram.

Lemma link_fields (d : Diagram.t) (c : Connection.t) :
  let c' := link d c in
  Connection.id c' = Connection.id c
  /\ Connection.source c' = Connection.source c
  /\ Connection.target c' = Connection.target c
  /\ Connection.waypoints c' = Connection.waypoints c
  /\ Connection.properties c' = Connection.properties c
  /\ Connection.style c' = Connection.style c
  /\ Connection.sourceShape c' = resolve d (Connection.source c) (Connection.sourceShape c)
  /\ Connection.targetShape c' = resolve d (Connection.target c) (Connection.targetShape c).
Proof. by destruct c. Qed.

Lemma present_shapes (m m' : Model) (e : Connection.Endpoint) :
  shapes (diagram m') = shapes (diagram m) -> present m e -> present m' e.
Proof. unfold present. intros ->. done. Qed.

(** C8, as the code has it. [addConnection] stores every connection under
    its id, whether or not its endpoints exist, and leaves the shapes
    alone; each shape reference becomes what the shape collection holds
    under the endpoint's id at that moment (nothing when the shape is
    absent). So the endpoint invariant is kept exactly by the additions
    whose two endpoint shapes are present. *)
Theorem addConnection_resolves (m : Model) (connection : ref) (c : Connection.t) :
  connObjs m !! connection = Some c ->
  exists m' c',
    addConnection connection m = Return tt m'
    /\ JsMap.get (Connection.id c) (connections (diagram m')) = Some connection
    /\ shapes (diagram m') = shapes (diagram m)
    /\ connObjs m' !! connection = Some c'
    /\ Connection.source c' = Connection.source c
    /\ Connection.target c' = Connection.target c
    /\ Connection.sourceShape c'
       = resolve (diagram m) (Connection.source c) (Connection.sourceShape c)
    /\ Connection.targetShape c'
       = resolve (diagram m) (Connection.target c) (Connection.targetShape c)
    /\ (endpointsPresent m ->
        present m (Connection.source c) -> present m (Connection.target c) ->
        endpointsPresent m').
Proof.
  intros Hc. unfold addConnection. rewrite Hc.
  set (c' := link (diagram m) (Connection.setDiagramType (type (diagram m)) c)).
  eexists _, c'. split; [reflexivity|]. simpl.
  split; [by rewrite get_set, String.eqb_refl|].
  split; [reflexivity|].
  split; [by rewrite lookup_insert_eq|].
  do 4 (split; [reflexivity|]).
  intros Hinv Hps Hpt k r c0. simpl. rewrite get_set.
  destruct (decide (r = connection)) as [->|Hne].
  - rewrite lookup_insert_eq. intros _ [= <-]. simpl. split; assumption.
  - rewrite lookup_insert_ne by done.
    destruct (String.eqb (Connection.id c) k); [congruence|].
    intros Hk Hr. exact (Hinv k r c0 Hk Hr).
Qed.

Lemma addConnection_resolves_witness :
  exists m' c',
    addConnection Scenario.ab
      (stateOf ((let* _ := addShape Scenario.a in addShape Scenario.b) Scenario.objects))
    = Return tt m'
    /\ connObjs m' !! Scenario.ab = Some c'
    /\ Connection.sourceShape c' = Some Scenario.a
    /\ Connection.targetShape c' = Some Scenario.b
    /\ endpointsPresent m'.
Proof.
  set (m := stateOf ((let* _ := addShape Scenario.a in addShape Scenario.b) Scenario.objects)).
  destruct (addConnection_resolves m Scenario.ab Scenario.connAB)
    as (m' & c' & Hadd & _ & _ & Hc' & _ & _ & Hs & Ht & Hinv); [reflexivity|].
  exists m', c'. split; [exact Hadd|]. split; [exact Hc'|].
  split; [exact Hs|]. split; [exact Ht|].
  apply Hinv.
  - intros k r c Hk. discriminate Hk.
  - exists "A". split; [reflexivity|]. vm_compute. eauto.
  - exists "B". split; [reflexivity|]. vm_compute. eauto.
Defined.

(** C8 as stated fails: adding the connector from A to B to the still
    empty diagram stores it although neither endpoint is present; its
    shape references stay unset. *)
Lemma addConnection_keeps_dangling :
  endpointsPresent Scenario.objects
  /\ exists m' c',
       addConnection Scenario.ab Scenario.objects = Return tt m'
       /\ JsMap.get "AB" (connections (diagram m')) = Some Scenario.ab
       /\ connObjs m' !! Scenario.ab = Some c'
       /\ Connection.shapeId (Connection.source c') = Some "A"
       /\ getShape "A" m' = None
       /\ Connection.sourceShape c' = None
       /\ ~ endpointsPresent m'.
Proof.
  split.
  - intros k r c Hk. discriminate Hk.
  - eexists _, _. split; [reflexivity|].
    split; [reflexivity|]. split; [reflexivity|].
    split; [reflexivity|]. split; [reflexivity|]. split; [reflexivity|].
    intros Hinv.
    destruct (Hinv "AB" Scenario.ab _ eq_refl eq_refl) as [(sid & Hsid & Hsome) _].
    injection Hsid as <-. destruct Hsome as [r Hr]. discriminate Hr.
Qed.
End DiagramFacts.

(** ** Serialization *)

Section RoundTrip.
Import Diagram.

(** [toJSON] writes the endpoints as [source] and [target]; the
    constructor that [fromJSON] calls reads [sourceId], [sourceAnchor],
    [targetId] and [targetAnchor]. Every deserialized connection therefore
    starts unconnected, with [auto] anchors. *)
Lemma Connection_fromJSON_endpoints (fresh : string) (data : Connection.JSON) :
  Connection.source (Connection.fromJSON fresh data) = Connection.mkEndpoint None "auto"
  /\ Connection.target (Connection.fromJSON fresh data) = Connection.mkEndpoint None "auto".
Proof. split; reflexivity. Qed.

(** C9 at the diagram of two connected shapes: serializing, loading with
    [Shape.fromJSON] and [Connection.fromJSON] as factories and
    serializing again returns the same diagram fields and the same shapes,
    but the connector comes back with [shapeId: null] at both ends, so the
    two structures differ. *)
Theorem roundtrip_loses_endpoints :
  let saved := toJSON Scenario.connected in
  let resaved := saved ≫= (fun data => toJSON (Scenario.reload data)) in
  is_Some saved
  /\ is_Some resaved
  /\ j_id <$> resaved = j_id <$> saved
  /\ j_type <$> resaved = j_type <$> saved
  /\ j_name <$> resaved = j_name <$> saved
  /\ j_viewport <$> resaved = j_viewport <$> saved
  /\ j_metadata <$> resaved = j_metadata <$> saved
  /\ j_shapes <$> resaved = j_shapes <$> saved
  /\ Scenario.endpoints <$> saved
     = Some [(Connection.mkEndpoint (Some "A") "auto", Connection.mkEndpoint (Some "B") "auto")]
  /\ Scenario.endpoints <$> resaved
     = Some [(Connection.mkEndpoint None "auto", Connection.mkEndpoint None "auto")]
  /\ resaved <> saved.
Proof.
  intros saved resaved.
  assert (Hsaved : Scenario.endpoints <$> saved
                   = Some [(Connection.mkEndpoint (Some "A") "auto",
                            Connection.mkEndpoint (Some "B") "auto")])
    by (vm_compute; reflexivity).
  assert (Hresaved : Scenario.endpoints <$> resaved
                     = Some [(Connection.mkEndpoint None "auto",
                              Connection.mkEndpoint None "auto")])
    by (vm_compute; reflexivity).
  split; [destruct saved; [eauto|discriminate Hsaved]|].
  split; [destruct resaved; [eauto|discriminate Hresaved]|].
  do 6 (split; [vm_compute; reflexivity|]).
  split; [exact Hsaved|]. split; [exact Hresaved|].
  intros Heq. rewrite Heq, Hsaved in Hresaved. discriminate Hresaved.
Qed.
End RoundTrip.

(** ** Commands on the diagram *)

Section CommandFacts.
Import Diagram Commands.

Lemma filterObjs_spec {A} (objs : gmap ref A) (p : A -> bool) (rs : list ref) :
  (forall r, In r rs -> is_Some (objs !! r)) ->
  exists l, filterObjs objs p rs = Some l
            /\ forall r, In r l <-> In r rs /\ exists o, objs !! r = Some o /\ p o = true.
Proof.
  induction rs as [|r rs IH]; simpl; intros Hall.
  - exists []. split; [reflexivity|]. simpl. tauto.
  - destruct (Hall r (or_introl eq_refl)) as [o Ho].
    destruct IH as (l & Hl & Hspec); [intros r' Hr'; apply Hall; by right|].
    rewrite Ho, Hl. simpl. exists (if p o then r :: l else l). split; [reflexivity|].
    intros r'. destruct (p o) eqn:Hp; simpl; rewrite Hspec.
    + split.
      * intros [<-|[Hin Hex]]; [split; [by left|eauto]|split; [by right|done]].
      * intros [[<-|Hin] Hex]; [by left|right; done].
    + split.
      * intros [Hin Hex]. split; [by right|done].
      * intros [[<-|Hin] (o' & Ho' & Hp')]; [congruence|split; eauto].
Qed.

Lemma filterObjs_allocated {A} (objs : gmap ref A) (p : A -> bool) (rs l : list ref) :
  filterObjs objs p rs = Some l -> forall r, In r rs -> is_Some (objs !! r).
Proof.
  revert l. induction rs as [|r rs IH]; simpl; intros l Hf r' Hin; [contradiction|].
  destruct (objs !! r) as [o|] eqn:Ho; simpl in Hf; [|discriminate].
  destruct (filterObjs objs p rs) as [l'|] eqn:Hl; simpl in Hf; [|discriminate].
  destruct Hin as [<-|Hin]; [eauto|]. by apply (IH l').
Qed.

Lemma values_In {V} (m : JsMap.t V) (v : V) : In v (JsMap.values m) <-> exists k, In (k, v) m.
Proof.
  unfold JsMap.values. rewrite in_map_iff. split.
  - intros [[k v'] [Hv Hin]]. simpl in Hv. subst. eauto.
  - intros [k Hin]. exists (k, v). done.
Qed.

(** The connections [getConnectionsForShape] returns on a well-formed
    model: those stored in the diagram that touch the shape. *)
Lemma getConnectionsForShape_spec (m : Model) (shapeId : string) :
  wf m ->
  exists related,
    getConnectionsForShape shapeId m = Some related
    /\ forall r, In r related <->
                 exists c, JsMap.get (Connection.id c) (connections (diagram m)) = Some r
                           /\ connObjs m !! r = Some c /\ touches shapeId c = true.
Proof.
  intros [_ [Hnd Hfiled]]. unfold getConnectionsForShape, getConnections.
  destruct (filterObjs_spec (connObjs m) (touches shapeId) (JsMap.values (connections (diagram m))))
    as (related & Hrel & Hspec).
  - intros r Hr. apply values_In in Hr as [k Hin].
    destruct (Hfiled k r Hin) as (c & Hc & _). eauto.
  - exists related. split; [exact Hrel|]. intros r. rewrite Hspec. split.
    + intros [Hin (c & Hc & Ht)]. apply values_In in Hin as [k Hin].
      destruct (Hfiled k r Hin) as (c' & Hc' & Hid).
      assert (c' = c) by congruence. subst c'.
      exists c. split; [|done]. rewrite Hid. by apply In_get.
    + intros (c & Hget & Hc & Ht). split; [|eauto].
      apply values_In. exists (Connection.id c). by apply get_In.
Qed.

(** One step of each loop of [RemoveShapeCommand]. *)
Lemma removeConnection_get (m : Model) (connectionId k : string) :
  let m' := snd (removeConnection connectionId m) in
  shapeObjs m' = shapeObjs m /\ connObjs m' = connObjs m
  /\ shapes (diagram m') = shapes (diagram m)
  /\ type (diagram m') = type (diagram m)
  /\ JsMap.get k (connections (diagram m'))
     = if String.eqb connectionId k then None else JsMap.get k (connections (diagram m)).
Proof.
  unfold removeConnection.
  destruct (JsMap.get connectionId (connections (diagram m))) as [r|] eqn:Hg; simpl.
  - by rewrite get_delete.
  - do 4 (split; [reflexivity|]).
    destruct (String.eqb_spec connectionId k) as [->|]; done.
Qed.

Lemma removeShape_get (m : Model) (shapeId k : string) :
  let m' := snd (removeShape shapeId m) in
  shapeObjs m' = shapeObjs m /\ connObjs m' = connObjs m
  /\ connections (diagram m') = connections (diagram m)
  /\ type (diagram m') = type (diagram m)
  /\ JsMap.get k (shapes (diagram m'))
     = if String.eqb shapeId k then None else JsMap.get k (shapes (diagram m)).
Proof.
  unfold removeShape.
  destruct (JsMap.get shapeId (shapes (diagram m))) as [r|] eqn:Hg; simpl.
  - by rewrite get_delete.
  - do 4 (split; [reflexivity|]).
    destruct (String.eqb_spec shapeId k) as [->|]; done.
Qed.

(** The first loop of [RemoveShapeCommand.execute]. *)
Lemma forEach_removeConnectionOf (rs : list ref) (m : Model) :
  (forall r, In r rs -> is_Some (connObjs m !! r)) ->
  exists m',
    forEach removeConnectionOf rs m = Return tt m'
    /\ shapeObjs m' = shapeObjs m /\ connObjs m' = connObjs m
    /\ shapes (diagram m') = shapes (diagram m)
    /\ type (diagram m') = type (diagram m)
    /\ forall k,
        (exists r c, In r rs /\ connObjs m !! r = Some c /\ Connection.id c = k
                     /\ JsMap.get k (connections (diagram m')) = None)
        \/ ((forall r c, In r rs -> connObjs m !! r = Some c -> Connection.id c <> k)
            /\ JsMap.get k (connections (diagram m')) = JsMap.get k (connections (diagram m))).
Proof.
  revert m. induction rs as [|r rs IH]; intros m Hall; simpl.
  - exists m. split; [reflexivity|]. do 4 (split; [reflexivity|]).
    intros k. right. split; [intros r c []|reflexivity].
  - destruct (Hall r (or_introl eq_refl)) as [c Hc].
    unfold bindO, removeConnectionOf at 1. rewrite Hc.
    set (m1 := snd (removeConnection (Connection.id c) m)).
    assert (Hstep := fun k => removeConnection_get m (Connection.id c) k).
    fold m1 in Hstep. simpl in Hstep.
    destruct (Hstep "") as (Hs1 & Hc1 & Hsh1 & Hty1 & _).
    destruct (IH m1) as (m' & Hrun & Hs' & Hc' & Hsh' & Hty' & Hget').
    { intros r' Hr'. rewrite Hc1. apply Hall. by right. }
    exists m'. split; [exact Hrun|].
    split; [congruence|]. split; [congruence|]. split; [congruence|]. split; [congruence|].
    intros k. destruct (Hstep k) as (_ & _ & _ & _ & Hk1).
    destruct (Hget' k) as [(r' & c' & Hin & Hc'' & Hid & Hnone)|[Hnot Hsame]].
    + left. exists r', c'. rewrite Hc1 in Hc''. split; [by right|done].
    + rewrite Hk1 in Hsame. destruct (String.eqb_spec (Connection.id c) k) as [Heq|Hne].
      * left. exists r, c. split; [by left|done].
      * right. split; [|exact Hsame].
        intros r0 c0 [<-|Hin] Hc0; [congruence|].
        apply (Hnot r0 c0 Hin). by rewrite Hc1.
Qed.

Lemma relink_congr (d d' : Diagram.t) (c : Connection.t) :
  shapes d' = shapes d -> type d' = type d -> relink d' c = relink d c.
Proof.
  intros Hs Ht. unfold relink, link, resolve. rewrite Hs, Ht. reflexivity.
Qed.

Lemma relink_idem (d : Diagram.t) (c : Connection.t) : relink d (relink d c) = relink d c.
Proof.
  unfold relink, link, resolve. destruct c as [? ? ? [sid sa] [tid ta] ? ? ? ? ? ss ts]; simpl.
  destruct sid as [sid|], tid as [tid|]; simpl;
    repeat match goal with |- context [truthy_str ?s] => destruct (truthy_str s) end;
    reflexivity.
Qed.

Lemma relink_fields (d : Diagram.t) (c : Connection.t) :
  Connection.id (relink d c) = Connection.id c
  /\ Connection.source (relink d c) = Connection.source c
  /\ Connection.target (relink d c) = Connection.target c
  /\ Connection.waypoints (relink d c) = Connection.waypoints c
  /\ Connection.properties (relink d c) = Connection.properties c
  /\ Connection.style (relink d c) = Connection.style c
  /\ Connection.sourceShape (relink d c)
     = resolve d (Connection.source c) (Connection.sourceShape c)
  /\ Connection.targetShape (relink d c)
     = resolve d (Connection.target c) (Connection.targetShape c).
Proof. by destruct c. Qed.

Lemma addConnection_step (m : Model) (r : ref) (c : Connection.t) :
  connObjs m !! r = Some c ->
  exists m1,
    addConnection r m = Return tt m1
    /\ shapeObjs m1 = shapeObjs m
    /\ connObjs m1 = <[r := relink (diagram m) c]> (connObjs m)
    /\ shapes (diagram m1) = shapes (diagram m)
    /\ type (diagram m1) = type (diagram m)
    /\ forall k, JsMap.get k (connections (diagram m1))
                 = if String.eqb (Connection.id c) k then Some r
                   else JsMap.get k (connections (diagram m)).
Proof.
  intros Hc. unfold addConnection. rewrite Hc. eexists. split; [reflexivity|]. simpl.
  do 4 (split; [reflexivity|]). intros k. by rewrite get_set.
Qed.

(** The loop of [RemoveShapeCommand.undo]. *)
Lemma forEach_addConnection (rs : list ref) (m : Model) :
  (forall r, In r rs -> is_Some (connObjs m !! r)) ->
  exists m',
    forEach addConnection rs m = Return tt m'
    /\ shapeObjs m' = shapeObjs m
    /\ shapes (diagram m') = shapes (diagram m)
    /\ type (diagram m') = type (diagram m)
    /\ (forall r, In r rs -> connObjs m' !! r = relink (diagram m) <$> connObjs m !! r)
    /\ (forall r, ~ In r rs -> connObjs m' !! r = connObjs m !! r)
    /\ forall k,
        (exists r c, In r rs /\ connObjs m !! r = Some c /\ Connection.id c = k
                     /\ JsMap.get k (connections (diagram m')) = Some r)
        \/ ((forall r c, In r rs -> connObjs m !! r = Some c -> Connection.id c <> k)
            /\ JsMap.get k (connections (diagram m')) = JsMap.get k (connections (diagram m))).
Proof.
  revert m. induction rs as [|r rs IH]; intros m Hall; simpl.
  - exists m. split; [reflexivity|]. do 3 (split; [reflexivity|]).
    split; [intros r []|]. split; [reflexivity|].
    intros k. right. split; [intros r c []|reflexivity].
  - destruct (Hall r (or_introl eq_refl)) as [c Hc].
    destruct (addConnection_step m r c Hc) as (m1 & Hadd & Hs1 & Hc1 & Hsh1 & Hty1 & Hget1).
    unfold bindO. rewrite Hadd.
    assert (Hobj1 : forall r0, connObjs m1 !! r0
                      = if decide (r = r0) then Some (relink (diagram m) c)
                        else connObjs m !! r0).
    { intros r0. rewrite Hc1. apply lookup_insert. }
    destruct (IH m1) as (m' & Hrun & Hs' & Hsh' & Hty' & Hin' & Hout' & Hget').
    { intros r' Hr'. rewrite Hobj1. destruct (decide (r = r')); [eauto|]. apply Hall. by right. }
    exists m'. split; [exact Hrun|].
    split; [congruence|]. split; [congruence|]. split; [congruence|].
    assert (Hrelink : forall r0, relink (diagram m1) <$> connObjs m1 !! r0
                                 = if decide (r = r0) then Some (relink (diagram m) c)
                                   else relink (diagram m) <$> connObjs m !! r0).
    { intros r0. rewrite Hobj1. destruct (decide (r = r0)); simpl.
      - rewrite (relink_congr (diagram m) (diagram m1)) by done. by rewrite relink_idem.
      - destruct (connObjs m !! r0); simpl; [|reflexivity].
        by rewrite (relink_congr (diagram m) (diagram m1)). }
    split; [|split].
    + intros r0 Hr0. destruct (in_dec Pos.eq_dec r0 rs) as [Hin|Hnin].
      * rewrite (Hin' r0 Hin), Hrelink. destruct (decide (r = r0)) as [<-|]; [|reflexivity].
        by rewrite Hc.
      * destruct Hr0 as [<-|Hr0]; [|contradiction].
        rewrite (Hout' r Hnin), Hobj1. rewrite decide_True by done. by rewrite Hc.
    + intros r0 Hr0. rewrite Hout' by tauto. rewrite Hobj1.
      rewrite decide_False; [reflexivity|]. tauto.
    + assert (Hid1 : forall r0 c1, connObjs m1 !! r0 = Some c1 ->
                exists c0, connObjs m !! r0 = Some c0 /\ Connection.id c0 = Connection.id c1).
      { intros r0 c1. rewrite Hobj1. destruct (decide (r = r0)) as [<-|].
        - intros [= <-]. exists c. split; [done|]. symmetry. apply relink_fields.
        - eauto. }
      assert (Hid0 : forall r0 c0, connObjs m !! r0 = Some c0 ->
                exists c1, connObjs m1 !! r0 = Some c1 /\ Connection.id c1 = Connection.id c0).
      { intros r0 c0 Hc0. rewrite Hobj1. destruct (decide (r = r0)) as [<-|].
        - eexists. split; [reflexivity|]. assert (c0 = c) by congruence. subst.
          apply relink_fields.
        - eauto. }
      intros k. destruct (Hget' k) as [(r' & c' & Hin & Hc'' & Hid & Hsome)|[Hnot Hsame]].
      * left. destruct (Hid1 r' c' Hc'') as (c0 & Hc0 & Hid0').
        exists r', c0. split; [by right|]. split; [done|]. split; [congruence|done].
      * rewrite Hget1 in Hsame. destruct (String.eqb_spec (Connection.id c) k) as [Heq|Hne].
        -- left. exists r, c. split; [by left|done].
        -- right. split; [|exact Hsame].
           intros r0 c0 [<-|Hin] Hc0; [congruence|].
           destruct (Hid0 r0 c0 Hc0) as (c1 & Hc1' & Hid1').
           rewrite <- Hid1'. by apply (Hnot r0 c1).
Qed.

Lemma resolve_congr (d d' : Diagram.t) (e : Connection.Endpoint) (current : option ref) :
  shapes d' = shapes d -> resolve d' e current = resolve d e current.
Proof. intros Hs. unfold resolve. by rewrite Hs. Qed.

Lemma resolve_endpointIs (d : Diagram.t) (e : Connection.Endpoint) (current : option ref)
    (shapeId : string) :
  endpointIs shapeId e = true -> truthy_str shapeId = true ->
  resolve d e current = JsMap.get shapeId (shapes d).
Proof.
  unfold endpointIs, resolve. destruct (Connection.shapeId e) as [sid|]; [|discriminate].
  intros Heq%String.eqb_eq Ht. subst. by rewrite Ht.
Qed.

Lemma addShape_step (m : Model) (shape : ref) (s : Shape.t) :
  shapeObjs m !! shape = Some s ->
  exists m1,
    addShape shape m = Return tt m1
    /\ shapeObjs m1 = <[shape := Shape.setDiagramType (type (diagram m)) s]> (shapeObjs m)
    /\ connObjs m1 = connObjs m
    /\ connections (diagram m1) = connections (diagram m)
    /\ type (diagram m1) = type (diagram m)
    /\ forall k, JsMap.get k (shapes (diagram m1))
                 = if String.eqb (Shape.id s) k then Some shape
                   else JsMap.get k (shapes (diagram m)).
Proof.
  intros Hs. unfold addShape. rewrite Hs. eexists. split; [reflexivity|]. simpl.
  do 4 (split; [reflexivity|]). intros k. by rewrite get_set.
Qed.

Lemma has_In (r : ref) (l : list ref) : JsSet.has r l = true <-> In r l.
Proof.
  unfold JsSet.has. rewrite existsb_exists. split.
  - intros (r' & Hin & Heq%Pos.eqb_eq). by subst.
  - intros Hin. exists r. split; [done|]. apply Pos.eqb_refl.
Qed.

Lemma wf_entry (m : Model) (k : string) (r : ref) (c : Connection.t) :
  wf m -> JsMap.get k (connections (diagram m)) = Some r -> connObjs m !! r = Some c ->
  Connection.id c = k.
Proof.
  intros [_ [_ Hfiled]] Hget Hc. apply get_In in Hget.
  destruct (Hfiled k r Hget) as (c' & Hc' & Hid). congruence.
Qed.

(** The run of a [RemoveShapeCommand] on a shape of the diagram, and of
    its [undo] right after. *)
Lemma RemoveShapeCommand_run (m : Model) (description : string) (shape : ref) (s : Shape.t)
    (stale : list ref) :
  wf m ->
  shapeObjs m !! shape = Some s ->
  exists related m1 m2,
    (forall r, In r related <->
               exists c, JsMap.get (Connection.id c) (connections (diagram m)) = Some r
                         /\ connObjs m !! r = Some c /\ touches (Shape.id s) c = true)
    /\ execute (mk description (RemoveShapeCommand shape stale), m)
       = Return tt (mk description (RemoveShapeCommand shape related), m1)
    /\ undo (mk description (RemoveShapeCommand shape related), m1)
       = Return tt (mk description (RemoveShapeCommand shape related), m2)
    (* after [execute] *)
    /\ shapeObjs m1 = shapeObjs m /\ connObjs m1 = connObjs m
    /\ (forall k, JsMap.get k (shapes (diagram m1))
                  = if String.eqb (Shape.id s) k then None else JsMap.get k (shapes (diagram m)))
    /\ (forall k, JsMap.get k (connections (diagram m1))
                  = match JsMap.get k (connections (diagram m)) with
                    | Some r => if JsSet.has r related then None else Some r
                    | None => None
                    end)
    (* after [undo] *)
    /\ shapeObjs m2 = <[shape := Shape.setDiagramType (type (diagram m)) s]> (shapeObjs m)
    /\ (forall k, JsMap.get k (shapes (diagram m2))
                  = if String.eqb (Shape.id s) k then Some shape
                    else JsMap.get k (shapes (diagram m)))
    /\ (forall k, JsMap.get k (connections (diagram m2)) = JsMap.get k (connections (diagram m)))
    /\ (forall r, In r related ->
                  connObjs m2 !! r = relink (diagram m2) <$> connObjs m !! r)
    /\ (forall r, ~ In r related -> connObjs m2 !! r = connObjs m !! r).
Proof.
  intros Hwf Hs.
  destruct (getConnectionsForShape_spec m (Shape.id s) Hwf) as (related & Hrel & Hspec).
  assert (Halloc : forall r, In r related -> is_Some (connObjs m !! r)).
  { intros r Hr. apply Hspec in Hr as (c & _ & Hc & _). eauto. }
  assert (Hidrel : forall r c k, In r related -> connObjs m !! r = Some c ->
                     Connection.id c = k -> JsMap.get k (connections (diagram m)) = Some r).
  { intros r c k Hr Hc <-. apply Hspec in Hr as (c' & Hget & Hc' & _).
    assert (c' = c) by congruence. by subst. }
  (* execute *)
  destruct (forEach_removeConnectionOf related m Halloc)
    as (ma & Hruna & Hsa & Hca & Hsha & Htya & Hgeta).
  set (m1 := snd (removeShape (Shape.id s) ma)).
  assert (Hstep1 := fun k => removeShape_get ma (Shape.id s) k). fold m1 in Hstep1. simpl in Hstep1.
  destruct (Hstep1 "") as (Hs1 & Hc1 & Hcn1 & Hty1 & _).
  (* undo *)
  assert (Hs1' : shapeObjs m1 !! shape = Some s) by (rewrite Hs1, Hsa; exact Hs).
  destruct (addShape_step m1 shape s Hs1') as (mb & Hrunb & Hsb & Hcb & Hcnb & Htyb & Hgetb).
  destruct (forEach_addConnection related mb) as (m2 & Hrun2 & Hs2 & Hsh2 & Hty2 & Hin2 & Hout2 & Hget2).
  { intros r Hr. rewrite Hcb, Hc1, Hca. by apply Halloc. }
  exists related, m1, m2.
  split; [exact Hspec|].
  split.
  { unfold execute. simpl. rewrite Hs, Hrel. unfold act, bindO. rewrite Hruna.
    unfold removeShapeOf. rewrite Hsa, Hs. reflexivity. }
  split.
  { unfold undo. simpl. unfold act, bindO. rewrite Hrunb, Hrun2. reflexivity. }
  split; [congruence|]. split; [congruence|].
  split.
  { intros k. destruct (Hstep1 k) as (_ & _ & _ & _ & ->). by rewrite Hsha. }
  assert (Hconn1 : forall k, JsMap.get k (connections (diagram m1))
                    = match JsMap.get k (connections (diagram m)) with
                      | Some r => if JsSet.has r related then None else Some r
                      | None => None
                      end).
  { intros k. rewrite Hcn1.
    destruct (Hgeta k) as [(r & c & Hr & Hc & Hid & ->)|[Hnot ->]].
    - rewrite (Hidrel r c k Hr Hc Hid). by rewrite (proj2 (has_In r related) Hr).
    - destruct (JsMap.get k (connections (diagram m))) as [r|] eqn:Hk; [|reflexivity].
      destruct (JsSet.has r related) eqn:Hhas; [|reflexivity].
      exfalso. apply has_In in Hhas as Hr. destruct (Halloc r Hr) as [c Hc].
      apply (Hnot r c Hr Hc). apply (wf_entry m k r c Hwf Hk Hc). }
  split; [exact Hconn1|].
  split; [by rewrite Hs2, Hsb, Hty1, Htya, Hs1, Hsa|].
  split.
  { intros k. rewrite Hsh2, Hgetb. destruct (Hstep1 k) as (_ & _ & _ & _ & ->).
    rewrite Hsha. by destruct (String.eqb (Shape.id s) k). }
  split.
  { intros k. destruct (Hget2 k) as [(r & c & Hr & Hc & Hid & ->)|[Hnot ->]].
    - rewrite Hcb, Hc1, Hca in Hc. symmetry. by apply (Hidrel r c k).
    - rewrite Hcnb, Hconn1.
      destruct (JsMap.get k (connections (diagram m))) as [r|] eqn:Hk; [|reflexivity].
      destruct (JsSet.has r related) eqn:Hhas; [|reflexivity].
      exfalso. apply has_In in Hhas as Hr. destruct (Halloc r Hr) as [c Hc].
      apply (Hnot r c Hr); [by rewrite Hcb, Hc1, Hca|].
      apply (wf_entry m k r c Hwf Hk Hc). }
  split.
  { intros r Hr. rewrite (Hin2 r Hr), Hcb, Hc1, Hca.
    destruct (connObjs m !! r); simpl; [|reflexivity].
    f_equal. apply relink_congr; congruence. }
  intros r Hr. rewrite (Hout2 r Hr). congruence.
Qed.
End CommandFacts.

Section CascadingDelete.
Import Diagram Commands.

(** C7. On a well-formed diagram that holds the shape, executing a
    [RemoveShapeCommand] removes the shape and every stored connection
    whose source or target id is the shape's id (and nothing else);
    undoing the command puts the shape back under its id and every such
    connection back under its own id, with the same endpoints and with
    [sourceShape] and [targetShape] looked up again in the diagram as it
    is after the undo: an endpoint on the removed shape refers to the
    restored shape object. *)
Theorem cascading_delete (m : Model) (description : string) (shape : ref) (s : Shape.t)
    (stale : list ref) :
  wf m ->
  shapeObjs m !! shape = Some s ->
  JsMap.get (Shape.id s) (shapes (diagram m)) = Some shape ->
  truthy_str (Shape.id s) = true ->
  exists related m1 m2,
    execute (mk description (RemoveShapeCommand shape stale), m)
    = Return tt (mk description (RemoveShapeCommand shape related), m1)
    /\ JsMap.get (Shape.id s) (shapes (diagram m1)) = None
    /\ (forall k r c,
           JsMap.get k (connections (diagram m)) = Some r -> connObjs m !! r = Some c ->
           JsMap.get k (connections (diagram m1))
           = if touches (Shape.id s) c then None else Some r)
    /\ undo (mk description (RemoveShapeCommand shape related), m1)
       = Return tt (mk description (RemoveShapeCommand shape related), m2)
    /\ JsMap.get (Shape.id s) (shapes (diagram m2)) = Some shape
    /\ (exists s2, shapeObjs m2 !! shape = Some s2 /\ Shape.id s2 = Shape.id s)
    /\ (forall k r c,
           JsMap.get k (connections (diagram m)) = Some r -> connObjs m !! r = Some c ->
           touches (Shape.id s) c = true ->
           JsMap.get k (connections (diagram m2)) = Some r
           /\ exists c2,
               connObjs m2 !! r = Some c2
               /\ Connection.source c2 = Connection.source c
               /\ Connection.target c2 = Connection.target c
               /\ Connection.sourceShape c2
                  = resolve (diagram m2) (Connection.source c) (Connection.sourceShape c)
               /\ Connection.targetShape c2
                  = resolve (diagram m2) (Connection.target c) (Connection.targetShape c)
               /\ (endpointIs (Shape.id s) (Connection.source c) = true ->
                   Connection.sourceShape c2 = Some shape)
               /\ (endpointIs (Shape.id s) (Connection.target c) = true ->
                   Connection.targetShape c2 = Some shape)).
Proof.
  intros Hwf Hs Hstored Htruthy.
  destruct (RemoveShapeCommand_run m description shape s stale Hwf Hs)
    as (related & m1 & m2 & Hrel & Hexec & Hundo & _ & _ & Hshapes1 & Hconns1
        & Hobjs2 & Hshapes2 & Hconns2 & Hin2 & _).
  assert (Hrelated : forall k r c,
             JsMap.get k (connections (diagram m)) = Some r -> connObjs m !! r = Some c ->
             JsSet.has r related = touches (Shape.id s) c).
  { intros k r c Hk Hc. destruct (touches (Shape.id s) c) eqn:Ht.
    - apply has_In, Hrel. exists c. by rewrite (wf_entry m k r c Hwf Hk Hc).
    - destruct (JsSet.has r related) eqn:Hhas; [|reflexivity].
      apply has_In, Hrel in Hhas as (c' & _ & Hc' & Ht'). congruence. }
  exists related, m1, m2.
  split; [exact Hexec|].
  split; [by rewrite Hshapes1, String.eqb_refl|].
  split.
  { intros k r c Hk Hc. by rewrite Hconns1, Hk, (Hrelated k r c Hk Hc). }
  split; [exact Hundo|].
  assert (Hback : JsMap.get (Shape.id s) (shapes (diagram m2)) = Some shape)
    by (by rewrite Hshapes2, String.eqb_refl).
  split; [exact Hback|].
  split.
  { rewrite Hobjs2, lookup_insert_eq. eexists. split; [reflexivity|]. by destruct s. }
  intros k r c Hk Hc Ht.
  split; [by rewrite Hconns2|].
  assert (Hr : In r related) by (apply has_In; by rewrite (Hrelated k r c Hk Hc)).
  exists (relink (diagram m2) c). rewrite (Hin2 r Hr), Hc.
  destruct (relink_fields (diagram m2) c) as (_ & Hsrc & Htgt & _ & _ & _ & Hss & Hts).
  split; [reflexivity|]. split; [exact Hsrc|]. split; [exact Htgt|].
  split; [exact Hss|]. split; [exact Hts|].
  split; intros He.
  - by rewrite Hss, (resolve_endpointIs _ _ _ (Shape.id s) He Htruthy).
  - by rewrite Hts, (resolve_endpointIs _ _ _ (Shape.id s) He Htruthy).
Qed.
End CascadingDelete.

Section CascadingDeleteWitness.
Import Diagram Commands.

Lemma wf_connected : wf Scenario.connected.
Proof.
  split; (split; [apply (bool_decide_unpack _); vm_compute; reflexivity|]).
  - intros k r Hin. vm_compute in Hin.
    repeat (destruct Hin as [[= <- <-]|Hin]; [eexists; split; reflexivity|]).
    contradiction.
  - intros k r Hin. vm_compute in Hin.
    repeat (destruct Hin as [[= <- <-]|Hin]; [eexists; split; reflexivity|]).
    contradiction.
Qed.

Lemma cascading_delete_witness :
  exists related m1 m2,
    execute (mk "Delete rectangle" (RemoveShapeCommand Scenario.a []), Scenario.connected)
    = Return tt (mk "Delete rectangle" (RemoveShapeCommand Scenario.a related), m1)
    /\ getShape "A" m1 = None
    /\ getConnection "AB" m1 = None
    /\ undo (mk "Delete rectangle" (RemoveShapeCommand Scenario.a related), m1)
       = Return tt (mk "Delete rectangle" (RemoveShapeCommand Scenario.a related), m2)
    /\ getShape "A" m2 = Some Scenario.a
    /\ getConnection "AB" m2 = Some Scenario.ab
    /\ exists c2, connObjs m2 !! Scenario.ab = Some c2
                  /\ Connection.sourceShape c2 = Some Scenario.a.
Proof.
  destruct (shapeObjs Scenario.connected !! Scenario.a) as [s|] eqn:Hs;
    [|vm_compute in Hs; discriminate].
  destruct (connObjs Scenario.connected !! Scenario.ab) as [c|] eqn:Hc;
    [|vm_compute in Hc; discriminate].
  assert (Hid : Shape.id s = "A") by (vm_compute in Hs; injection Hs as <-; reflexivity).
  assert (Hsrc : endpointIs "A" (Connection.source c) = true)
    by (vm_compute in Hc; injection Hc as <-; reflexivity).
  destruct (cascading_delete Scenario.connected "Delete rectangle" Scenario.a s [])
    as (related & m1 & m2 & Hexec & Hgone & Hconns1 & Hundo & Hback & _ & Hconns2).
  - exact wf_connected.
  - exact Hs.
  - rewrite Hid. reflexivity.
  - rewrite Hid. reflexivity.
  - rewrite Hid in *.
    assert (Ht : touches "A" c = true) by (unfold touches; by rewrite Hsrc).
    destruct (Hconns2 "AB" Scenario.ab c eq_refl Hc Ht)
      as (Hstored & c2 & Hc2 & _ & _ & _ & _ & Hss & _).
    exists related, m1, m2. split; [exact Hexec|]. split; [exact Hgone|].
    split; [unfold getConnection; by rewrite (Hconns1 "AB" Scenario.ab c eq_refl Hc), Ht|].
    split; [exact Hundo|]. split; [exact Hback|]. split; [exact Hstored|].
    exists c2. split; [exact Hc2|]. by apply Hss.
Defined.
End CascadingDeleteWitness.

Section InverseLaw.
Import Diagram Commands.
Local Open Scope Q_scope.








Lemma onShape_step (shape : ref) (f : Shape.t -> Shape.t) (m m1 : Model) :
  onShape shape f m = Return tt m1 ->
  exists s, shapeObjs m !! shape = Some s
            /\ m1 = setShapeObjs (<[shape := f s]> (shapeObjs m)) m.
Proof.
  unfold onShape. destruct (shapeObjs m !! shape) as [s|]; [|discriminate].
  intros [= <-]. eauto.
Qed.






(** A loop of one method call per shape of an array: every shape is an
    object, and each object has received the call as often as it occurs
    in the array. *)
Lemma forEach_onShape (f : Shape.t -> Shape.t) (rs : list ref) (m m1 : Model) :
  forEach (fun shape => onShape shape f) rs m = Return tt m1 ->
  connObjs m1 = connObjs m /\ diagram m1 = diagram m
  /\ (forall r, In r rs -> is_Some (shapeObjs m !! r))
  /\ forall r, shapeObjs m1 !! r
               = Nat.iter (count_occ Pos.eq_dec rs r) f <$> shapeObjs m !! r.
Proof.
  revert m. induction rs as [|r0 rs IH]; intros m; simpl.
  - intros [= <-]. do 2 (split; [reflexivity|]). split; [intros r []|].
    intros r. by destruct (shapeObjs m !! r).
  - unfold bindO. destruct (onShape r0 f m) as [[] m'|] eqn:Hstep; [|discriminate].
    apply onShape_step in Hstep as (s & Hs & ->). intros Hrun.
    apply IH in Hrun as (Hc & Hd & Halloc & Hobjs). simpl in *.
    split; [exact Hc|]. split; [exact Hd|]. split.
    + intros r [<-|Hin]; [eauto|].
      specialize (Halloc r Hin). destruct (decide (r0 = r)) as [<-|Hne]; [eauto|].
      by rewrite lookup_insert_ne in Halloc.
    + intros r. rewrite Hobjs. destruct (Pos.eq_dec r0 r) as [<-|Hne].
      * rewrite lookup_insert_eq, Hs. simpl. f_equal. symmetry. apply Nat.iter_succ_r.
      * by rewrite lookup_insert_ne.
Qed.

Lemma forEach_onShape_run (f : Shape.t -> Shape.t) (rs : list ref) (m : Model) :
  (forall r, In r rs -> is_Some (shapeObjs m !! r)) ->
  exists m1, forEach (fun shape => onShape shape f) rs m = Return tt m1.
Proof.
  revert m. induction rs as [|r0 rs IH]; intros m Halloc; simpl.
  - eauto.
  - destruct (Halloc r0 (or_introl eq_refl)) as [s Hs].
    unfold bindO, onShape at 1. rewrite Hs. apply IH. simpl.
    intros r Hin. destruct (decide (r0 = r)) as [<-|Hne].
    + rewrite lookup_insert_eq. eauto.
    + rewrite lookup_insert_ne by done. apply Halloc. by right.
Qed.










End InverseLaw.

Section InverseLawExamples.
Import Diagram Commands.
Local Open Scope Q_scope.




End InverseLawExamples.

(** ** Gestures of the interaction controller *)

Section Gestures.
Import Diagram Commands InteractionController.

Lemma hoare_seq {A B} (P R Q : t -> Prop) (m : Editor -> Outcome Editor A)
    (k : A -> Editor -> Outcome Editor B) :
  hoare P m R -> (forall c, R c -> Q c) -> (forall a, hoare R (k a) Q) ->
  hoare P (bindO m k) Q.
Proof.
  intros Hm HRQ Hk e HP. specialize (Hm e HP). unfold bindO.
  destruct (m e) as [a e'|err e']; simpl in *; [by apply Hk|by apply HRQ].
Qed.

Lemma hoare_bind {A B} (P Q : t -> Prop) (m : Editor -> Outcome Editor A)
    (k : A -> Editor -> Outcome Editor B) :
  hoare P m Q -> (forall a, hoare Q (k a) Q) -> hoare P (bindO m k) Q.
Proof. intros Hm Hk. by apply (hoare_seq P Q Q). Qed.

Lemma post_bind {A B} (R Q : t -> Prop) (m : Editor -> Outcome Editor A)
    (k : A -> Editor -> Outcome Editor B) (e : Editor) :
  R (controller (stateOf (m e))) -> (forall c, R c -> Q c) ->
  (forall a e', R (controller e') -> Q (controller (stateOf (k a e')))) ->
  Q (controller (stateOf (bindO m k e))).
Proof.
  intros Hm HRQ Hk. unfold bindO.
  destruct (m e) as [a e'|err e']; simpl in *; [by apply Hk|by apply HRQ].
Qed.

Lemma same_bind {A B} (m : Editor -> Outcome Editor A)
    (k : A -> Editor -> Outcome Editor B) (e : Editor) :
  controller (stateOf (m e)) = controller e ->
  (forall a e', controller (stateOf (k a e')) = controller e') ->
  controller (stateOf (bindO m k e)) = controller e.
Proof.
  intros Hm Hk. unfold bindO.
  destruct (m e) as [a e'|err e']; simpl in *; [by rewrite Hk|exact Hm].
Qed.

Lemma hoare_frames {A} (P : t -> Prop) (m : Editor -> Outcome Editor A) :
  frames m -> hoare P m P.
Proof. intros Hf e HP. by rewrite Hf. Qed.

Lemma hoare_update (P Q : t -> Prop) (f : t -> t) :
  (forall c, P c -> Q (f c)) -> hoare P (update f) Q.
Proof. intros Hf e HP. simpl. by apply Hf. Qed.

Lemma hoare_ret {A} (P : t -> Prop) (a : A) : hoare P (retO a) P.
Proof. intros e HP. exact HP. Qed.

Lemma hoare_weaken {A} (P P' Q : t -> Prop) (m : Editor -> Outcome Editor A) :
  (forall c, P c -> P' c) -> hoare P' m Q -> hoare P m Q.
Proof. intros HPP Hm e HP. apply Hm, HPP, HP. Qed.

Lemma frames_bind {A B} (m : Editor -> Outcome Editor A) (k : A -> Editor -> Outcome Editor B) :
  frames m -> (forall a, frames (k a)) -> frames (bindO m k).
Proof.
  intros Hm Hk e. specialize (Hm e). unfold bindO.
  destruct (m e) as [a e'|err e']; simpl in *; [by rewrite Hk|exact Hm].
Qed.

Lemma frames_ret {A} (a : A) : frames (retO (W := Editor) a).
Proof. intros e. reflexivity. Qed.

Lemma frames_onModel {A} (f : Model -> Outcome Model A) : frames (onModel f).
Proof. intros e. unfold onModel. by destruct (f (getModel e)). Qed.

Lemma frames_onSelection {A} (f : SelectionManager.St -> Outcome SelectionManager.St A) :
  frames (onSelection f).
Proof. intros e. unfold onSelection. by destruct (f (selectionManager e, getModel e)). Qed.

Lemma frames_commandManager_execute (command : ref) : frames (commandManager_execute command).
Proof.
  intros e. unfold commandManager_execute.
  by destruct (CommandManager.execute command (commandManager e, world e)).
Qed.

Lemma frames_commandManager_undo : frames commandManager_undo.
Proof.
  intros e. unfold commandManager_undo.
  by destruct (CommandManager.undo (commandManager e, world e)).
Qed.

Lemma frames_commandManager_redo : frames commandManager_redo.
Proof.
  intros e. unfold commandManager_redo.
  by destruct (CommandManager.redo (commandManager e, world e)).
Qed.

Lemma frames_commandManager_addToHistory (command : ref) :
  frames (commandManager_addToHistory command).
Proof. intros e. reflexivity. Qed.

Lemma frames_newCommand (c : option Commands.t) : frames (newCommand c).
Proof. intros e. unfold newCommand. by destruct c. Qed.

Lemma frames_createShape (type : string) (options : Shape.Options) :
  frames (createShape type options).
Proof. intros e. reflexivity. Qed.

Lemma frames_fun {A} (m : Editor -> Editor -> Outcome Editor A) :
  (forall e0, frames (m e0)) -> frames (fun e => m e e).
Proof. intros Hm e. apply Hm. Qed.

Ltac fields :=
  repeat split; intros; try assumption; try discriminate; try reflexivity; try congruence;
  try tauto; auto.

(** The state after a tool change or Escape as far as [resetState]
    assigns it. *)
Lemma cleared_consistent (c : t) :
  state c = idle -> isDragging c = false -> connectionSource c = None -> consistent c.
Proof.
  intros Hstate Hdrag Hsource. unfold consistent, connectingFlag.
  rewrite Hstate, Hdrag, Hsource. fields.
Qed.

Lemma resetConnectionState_consistent : hoare consistent resetConnectionState consistent.
Proof.
  apply hoare_update. intros c (Hdrag & _ & _ & _ & _ & _).
  unfold consistent, connectingFlag. simpl. fields.
Qed.

Lemma resetState_cleared (P : t -> Prop) : hoare P resetState consistent.
Proof. intros e _. simpl. by apply cleared_consistent. Qed.

Lemma handleToolSelected_cleared (P : t -> Prop) (toolId : string) :
  hoare P (handleToolSelected toolId) consistent.
Proof. intros e _. simpl. by apply cleared_consistent. Qed.

Lemma startResize_consistent (shape : ref) (handleId : string) (point : Geometry.Point) :
  hoare selecting (startResize shape handleId point) consistent.
Proof.
  intros e [(Hdrag & Hconn & _) Htool]. unfold startResize, bindO. simpl.
  assert (Hidle : connectingFlag (controller e) = false).
  { destruct (connectingFlag (controller e)) eqn:Hflag; [|reflexivity].
    destruct (Hconn eq_refl) as [Hne _]. contradiction. }
  unfold connectingFlag in Hidle.
  destruct (shapeObjs _ !! shape); simpl;
    unfold consistent, connectingFlag; simpl; rewrite Hidle;
    fields.
Qed.

Lemma startDrag_consistent (point : Geometry.Point) :
  hoare selecting (startDrag point) consistent.
Proof.
  intros e [Hc Htool]. unfold startDrag.
  destruct (SelectionManager.getSelectedShapes (selectionManager e)); [exact Hc|].
  destruct Hc as (Hdrag & Hconn & _). simpl.
  assert (Hidle : connectingFlag (controller e) = false).
  { destruct (connectingFlag (controller e)) eqn:Hflag; [|reflexivity].
    destruct (Hconn eq_refl) as [Hne _]. contradiction. }
  unfold connectingFlag in Hidle.
  unfold consistent, connectingFlag; simpl; rewrite Hidle;
    fields.
Qed.

Lemma hoare_selecting_frames {A} (m : Editor -> Outcome Editor A) :
  frames m -> hoare selecting m selecting.
Proof. apply hoare_frames. Qed.

(** While the handle group is there, the primary selection is the shape
    it was rendered for. *)
Lemma handleGroup_primary (e : Editor) (shapeId : string) :
  handleGroup e = Some shapeId ->
  exists shape s,
    SelectionManager.getPrimarySelection (selectionManager e) = Some (ShapeElement shape)
    /\ shapeObjs (getModel e) !! shape = Some s /\ Shape.id s = shapeId.
Proof.
  unfold handleGroup, SelectionManager.getPrimarySelection, SelectionManager.getSelectedShapes.
  destruct (SelectionManager.selectedShapes (selectionManager e)) as [|shape [|]];
    try discriminate.
  destruct (shapeObjs (getModel e) !! shape) as [s|] eqn:Hs; [|discriminate].
  intros [= <-]. by exists shape, s.
Qed.

Lemma handleSelectClick_consistent (point : Geometry.Point) (target : Target)
    (shiftKey ctrlKey : bool) :
  hoare selecting (handleSelectClick point target shiftKey ctrlKey) consistent.
Proof.
  intros e Hsel. unfold handleSelectClick.
  destruct (clickedHandle target e) as [[shape handleId]|].
  { by apply startResize_consistent. }
  destruct (shapeElement target) as [shapeId|].
  { destruct (getShape shapeId (getModel e)) as [shape|]; [|exact (proj1 Hsel)].
    revert e Hsel. apply (hoare_seq selecting selecting consistent).
    - apply hoare_frames, frames_onSelection.
    - by intros c [Hc _].
    - intros _. apply startDrag_consistent. }
  destruct (connectorElement target) as [connId|].
  { destruct (getConnection connId (getModel e)) as [connection|]; [|exact (proj1 Hsel)].
    rewrite frames_onSelection. exact (proj1 Hsel). }
  destruct (negb shiftKey && negb ctrlKey); [|exact (proj1 Hsel)].
  rewrite frames_onSelection. exact (proj1 Hsel).
Qed.

Lemma frames_newCommand_of (f : Editor -> option Commands.t) :
  frames (fun e' => newCommand (f e') e').
Proof. intros e. apply frames_newCommand. Qed.

Lemma frames_handleDeleteClick (target : Target) : frames (handleDeleteClick target).
Proof.
  intros e. unfold handleDeleteClick.
  destruct (shapeElement target) as [shapeId|]; [|reflexivity].
  destruct (getShape shapeId (getModel e)) as [shape|]; [|reflexivity].
  apply same_bind; [apply frames_newCommand|].
  intros command e'. apply frames_commandManager_execute.
Qed.

(** Adding a created shape through the history, as the shape tool and a
    dropped tool do. *)
Lemma frames_addCreated (type : string) (options : Shape.Options) (e : Editor) :
  controller (stateOf
    ((let* shape := createShape type options in
      let* command := (fun e' => newCommand (newAddShapeCommand shape (getModel e')) e') in
      let* _ := commandManager_execute command in
      onSelection (SelectionManager.selectShape shape false)) e)) = controller e.
Proof.
  apply same_bind; [apply frames_createShape|]. intros shape e1.
  apply same_bind; [apply frames_newCommand|]. intros command e2.
  apply same_bind; [apply frames_commandManager_execute|]. intros _ e3.
  apply frames_onSelection.
Qed.

Lemma handleShapeToolClick_consistent (point : Geometry.Point) :
  hoare consistent (handleShapeToolClick point) consistent.
Proof.
  intros e Hc. unfold handleShapeToolClick.
  destruct (activePlugin e) as [plugin|]; [|exact Hc].
  destruct (Plugin.getShapeDefinitions plugin !! currentTool (controller e)) as [shapeDef|];
    [|exact Hc].
  apply (post_bind consistent); [by rewrite frames_createShape|done|]. intros shape e1 H1.
  apply (post_bind consistent); [by rewrite frames_newCommand|done|]. intros command e2 H2.
  apply (post_bind consistent); [by rewrite frames_commandManager_execute|done|].
  intros _ e3 H3.
  apply (post_bind consistent); [by rewrite frames_onSelection|done|]. intros _ e4 H4.
  by apply (handleToolSelected_cleared consistent).
Qed.

Lemma handleConnectorToolClick_consistent (target : Target) :
  hoare linking (handleConnectorToolClick target) consistent.
Proof.
  intros e [Hc Htool]. unfold handleConnectorToolClick.
  destruct (shapeElement target) as [shapeId|];
    [|by apply resetConnectionState_consistent].
  destruct (getShape shapeId (getModel e)) as [shape|]; [|exact Hc].
  destruct (connectionSource (controller e)) as [source|] eqn:Hsource.
  - destruct (shapeObjs (getModel e) !! source) as [sourceObj|]; [|exact Hc].
    destruct (shapeObjs (getModel e) !! shape) as [shapeObj|]; [|exact Hc].
    destruct (activePlugin e) as [plugin|]; [|exact Hc].
    destruct (negb _); [|exact Hc].
    apply (post_bind consistent); [|done|intros _ e1 H1; by apply resetConnectionState_consistent].
    destruct (Plugin.isValid _); [|exact Hc].
    destruct (allocConnection _ _) as [r m'].
    rewrite same_bind; [exact Hc|apply frames_newCommand|].
    intros command e2. apply frames_commandManager_execute.
  - destruct Hc as (Hdrag & Hconn & Hsd & Hsr & Hsc & Hdraw).
    unfold consistent, connectingFlag. simpl.
    assert (isDragging (controller e) = false).
    { destruct (isDragging (controller e)); [|reflexivity]. by destruct Htool; apply Hdrag. }
    fields.
Qed.

Lemma handleCanvasClicked_consistent (point : Geometry.Point) (target : Target)
    (shiftKey ctrlKey : bool) :
  hoare consistent (handleCanvasClicked point target shiftKey ctrlKey) consistent.
Proof.
  intros e Hc. unfold handleCanvasClicked.
  destruct (String.eqb (currentTool (controller e)) "select") eqn:Hselect.
  { apply handleSelectClick_consistent. split; [exact Hc|]. by apply String.eqb_eq. }
  destruct (String.eqb (currentTool (controller e)) "delete").
  { by rewrite frames_handleDeleteClick. }
  destruct (activePlugin e) as [plugin|]; [|exact Hc].
  destruct (Plugin.getShapeDefinitions plugin !! currentTool (controller e)).
  { by apply handleShapeToolClick_consistent. }
  destruct (existsb _ _); [|exact Hc].
  apply handleConnectorToolClick_consistent. split; [exact Hc|]. by apply String.eqb_neq.
Qed.

Lemma doDrag_consistent (point : Geometry.Point) : hoare consistent (doDrag point) consistent.
Proof.
  intros e Hc. unfold doDrag.
  destruct (dragStartPoint (controller e)) as [start|]; [|exact Hc].
  apply (post_bind consistent); [by rewrite frames_onModel|done|]. intros _ e1 H1.
  exact H1.
Qed.

Lemma frames_doResize (point : Geometry.Point) : frames (doResize point).
Proof.
  intros e. unfold doResize.
  destruct (resizingShape (controller e)) as [shape|]; [|reflexivity].
  destruct (dragStartPoint (controller e)) as [start|]; [|reflexivity].
  destruct (resizeStartBounds (controller e)) as [original|]; [|reflexivity].
  destruct (resizeHandle (controller e)) as [handleId|]; [|reflexivity].
  apply frames_onModel.
Qed.

Lemma handleCanvasMouseMove_consistent (point : Geometry.Point) :
  hoare consistent (handleCanvasMouseMove point) consistent.
Proof.
  intros e Hc. unfold handleCanvasMouseMove.
  apply (post_bind consistent); [|done|].
  - destruct (_ && _); [by apply doDrag_consistent|exact Hc].
  - intros _ e1 H1. destruct (_ && _); [by rewrite frames_doResize|exact H1].
Qed.

Lemma endDrag_consistent (e : Editor) :
  consistent (controller e) -> isDragging (controller e) = true ->
  consistent (controller (stateOf (endDrag e))).
Proof.
  intros (Hdrag & Hconn & Hsd & Hsr & Hsc & Hdraw) Hflag.
  unfold consistent, connectingFlag. simpl.
  assert (Hidle : connectingFlag (controller e) = false).
  { destruct (connectingFlag (controller e)) eqn:Hc; [|reflexivity].
    destruct (Hconn eq_refl) as [Hne _]. by destruct Hne; apply Hdrag. }
  unfold connectingFlag in Hidle. rewrite Hidle. fields.
Qed.

Lemma endResize_consistent (e : Editor) :
  consistent (controller e) -> state (controller e) = resizing ->
  consistent (controller (stateOf (endResize e))).
Proof.
  intros Hc Hstate. unfold endResize.
  apply (post_bind (fun c => consistent c /\ state c = resizing)).
  - cbv beta zeta.
    destruct (resizingShape (controller e)) as [shape|]; [|by split].
    destruct (resizeStartBounds (controller e)) as [start|]; [|by split].
    destruct (shapeObjs (getModel e) !! shape) as [s|]; [|by split].
    destruct (boundsDiffer _ _); [|by split].
    rewrite same_bind; [by split|apply frames_newCommand|]. intros command e1. reflexivity.
  - by intros c [H _].
  - intros _ e1 [(Hdrag & Hconn & Hsd & Hsr & Hsc & Hdraw) H1].
    unfold consistent, connectingFlag. simpl.
    assert (Hidle : connectingFlag (controller e1) = false).
    { destruct (connectingFlag (controller e1)) eqn:Hflag; [|reflexivity].
      destruct (Hconn eq_refl) as [_ Hs]. congruence. }
    unfold connectingFlag in Hidle. rewrite Hidle. fields.
Qed.

Lemma handleMouseUp_consistent : hoare consistent handleMouseUp consistent.
Proof.
  intros e Hc. unfold handleMouseUp.
  apply (post_bind consistent); [|done|].
  - destruct (isDragging (controller e)) eqn:Hflag; [|exact Hc].
    destruct (bool_decide _); [by apply endDrag_consistent|exact Hc].
  - intros _ e1 H1.
    destruct (isResizing (controller e1)); [|exact H1].
    destruct (bool_decide (state (controller e1) = resizing)) eqn:Hstate; [|exact H1].
    apply endResize_consistent; [exact H1|]. by apply bool_decide_eq_true in Hstate.
Qed.

Lemma frames_removeEach (shapes : list ref) (e : Editor) :
  controller (stateOf
    ((fix each (shapes : list ref) : Editor -> Outcome Editor unit :=
        match shapes with
        | [] => retO tt
        | shape :: rest =>
            let* command :=
              (fun e' => newCommand (newRemoveShapeCommand shape (getModel e')) e') in
            let* _ := commandManager_execute command in
            each rest
        end) shapes e)) = controller e.
Proof.
  revert e. induction shapes as [|shape rest IH]; intros e; [reflexivity|].
  apply same_bind; [apply frames_newCommand|]. intros command e1.
  apply same_bind; [apply frames_commandManager_execute|]. intros _ e2. apply IH.
Qed.

Lemma handleKeyDown_consistent (key : string) (ctrlKey metaKey shiftKey altKey : bool) :
  hoare consistent (handleKeyDown key ctrlKey metaKey shiftKey altKey) consistent.
Proof.
  intros e Hc. unfold handleKeyDown.
  apply (post_bind consistent); [|done|intros _ e1 H1].
  { destruct (_ || _); [|exact Hc].
    rewrite same_bind; [exact Hc|apply frames_removeEach|].
    intros _ e1. apply frames_onSelection. }
  apply (post_bind consistent); [|done|intros _ e2 H2].
  { destruct (_ && _); [|exact H1].
    destruct shiftKey.
    - rewrite same_bind; [exact H1|apply frames_commandManager_redo|]. by intros.
    - rewrite same_bind; [exact H1|apply frames_commandManager_undo|]. by intros. }
  apply (post_bind consistent); [|done|intros _ e3 H3].
  { destruct (_ && _); [|exact H2].
    rewrite same_bind; [exact H2|apply frames_commandManager_redo|]. by intros. }
  apply (post_bind consistent); [|done|intros _ e4 H4].
  { destruct (String.eqb key "Escape"); [|exact H3].
    apply (post_bind consistent); [by apply (resetState_cleared consistent)|done|].
    intros _ e4 H4. by rewrite frames_onSelection. }
  destruct (_ && _); [|exact H4].
  destruct (_ || _); [by apply (handleToolSelected_cleared consistent)|].
  destruct (_ || _); [by apply (handleToolSelected_cleared consistent)|exact H4].
Qed.

Lemma frames_handleToolDropped (toolId : string) (x y : Q) :
  frames (handleToolDropped toolId x y).
Proof.
  intros e. unfold handleToolDropped.
  destruct (activePlugin e) as [plugin|]; [|reflexivity].
  cbv zeta.
  destruct (existsb (String.eqb toolId) (Plugin.getConnectorTypes plugin)); [reflexivity|].
  destruct (_ || _); [|reflexivity].
  match goal with |- context [let '(w, h) := ?p in _] => destruct p as [defaultWidth defaultHeight] end.
  apply frames_addCreated.
Qed.

Lemma handle_consistent (ev : Event) : hoare consistent (handle ev) consistent.
Proof.
  destruct ev; simpl.
  - apply handleToolSelected_cleared.
  - apply handleCanvasClicked_consistent.
  - apply handleCanvasMouseMove_consistent.
  - apply hoare_frames, frames_handleToolDropped.
  - apply handleKeyDown_consistent.
  - apply handleMouseUp_consistent.
Qed.

Lemma run_consistent (evs : list Event) (e : Editor) :
  consistent (controller e) -> consistent (controller (run evs e)).
Proof.
  revert e. induction evs as [|ev evs IH]; intros e Hc; [exact Hc|].
  simpl. apply IH. by apply handle_consistent.
Qed.

Lemma new_consistent : consistent new.
Proof. by apply cleared_consistent. Qed.

Lemma cancel_cleared (ev : Event) (e : Editor) :
  cancels ev = true -> cleared (controller (step e ev)).
Proof.
  destruct ev as [toolId| | | |key ctrlKey metaKey shiftKey altKey|]; try discriminate.
  - intros _. by repeat split.
  - simpl. intros ->%String.eqb_eq. unfold step, handle, handleKeyDown.
    cbn [String.eqb Ascii.eqb Bool.eqb orb andb bindO].
    apply (post_bind cleared); [|done|].
    + apply (post_bind cleared); [by repeat split|done|].
      intros _ e1 H1. by rewrite frames_onSelection.
    + intros _ e1 H1. by destruct (_ && _).
Qed.

Lemma cleared_activeGestures (c : t) : cleared c -> activeGestures c = [].
Proof.
  intros (Hstate & Hdrag & Hsource).
  unfold activeGestures, draggingActive, resizingActive, connectingActive.
  rewrite Hstate, Hdrag. simpl. by rewrite andb_false_r.
Qed.

(** C2, amended. From a new controller and after any sequence of input
    events, a handler throwing or not: at most one of the gestures
    dragging, resizing and connecting is active, where a gesture is active
    when its flag is set and [state] names it, as the handlers of pointer
    moves and releases test it; [isDragging] and a pending
    [connectionSource] are never set together; a pending
    [connectionSource] means that connecting is the active gesture; when
    [state] names a gesture that gesture is the active one; and a tool
    change or the Escape key leaves [state] idle, [isDragging] false and
    no [connectionSource], with no gesture active. *)
Theorem gesture_exclusion (evs : list Event) (e : Editor) :
  controller e = new ->
  let c := controller (run evs e) in
  length (activeGestures c) <= 1
  /\ draggingFlag c && connectingFlag c = false
  /\ (connectingFlag c = true -> activeGestures c = [connecting])
  /\ (state c = dragging -> activeGestures c = [dragging])
  /\ (state c = resizing -> activeGestures c = [resizing])
  /\ (state c = connecting -> activeGestures c = [connecting])
  /\ (forall ev, cancels ev = true ->
      let c' := controller (step (run evs e) ev) in
      cleared c' /\ activeGestures c' = []).
Proof.
  intros Hnew c.
  assert (Hc : consistent c).
  { apply run_consistent. rewrite Hnew. apply new_consistent. }
  split; [|split; [|split; [|split; [|split; [|split]]]]].
  7: { intros ev Hev c'. pose proof (cancel_cleared ev (run evs e) Hev) as Hclear.
       split; [exact Hclear|by apply cleared_activeGestures]. }
  all: clearbody c; destruct Hc as (Hdrag & Hconn & Hsd & Hsr & Hsc & Hdraw);
    unfold activeGestures, draggingActive, resizingActive, connectingActive,
      draggingFlag, resizingFlag, connectingFlag in *;
    destruct c as [tool st start drag rsz handleId bounds [source|] shape];
    simpl in *; destruct st, drag, rsz; simpl in *;
    try lia; try reflexivity; try discriminate; try tauto; intros; try discriminate.
  all: try (destruct Hconn as [Hne _]; [reflexivity|]; destruct Hne; by apply Hdrag).
  all: try (by destruct Hconn as [_ ?]).
  all: try (by specialize (Hsd eq_refl)).
  all: try (by specialize (Hsr eq_refl)).
  all: try (by specialize (Hsc eq_refl)).
Qed.
End Gestures.

Lemma gesture_exclusion_witness :
  let press := InteractionController.CanvasClicked (Geometry.mkPoint 50 30)
                 (InteractionController.onShapeElement "A") false false in
  let move := InteractionController.CanvasMouseMove (Geometry.mkPoint 70 50)
                 (InteractionController.onShapeElement "A") in
  let c := InteractionController.controller
             (InteractionController.run [press; move; InteractionController.MouseUp]
                                        Scenario.editor) in
  InteractionController.controller Scenario.editor = InteractionController.new
  /\ length (activeGestures c) <= 1.
Proof.
  intros press move c. split; [reflexivity|].
  exact (proj1 (gesture_exclusion [press; move; InteractionController.MouseUp]
                                  Scenario.editor eq_refl)).
Defined.

(** C2 as stated fails on the flags: a press on shape A starts a drag, and
    a press on the south-east resize handle of A before any release starts
    the resize without resetting the drag, so that [isDragging] and
    [isResizing] are both set. *)
Lemma resize_keeps_drag :
  let press := InteractionController.CanvasClicked (Geometry.mkPoint 50 30)
                 (InteractionController.onShapeElement "A") false false in
  let grab := InteractionController.CanvasClicked (Geometry.mkPoint 100 60)
                 (InteractionController.onResizeHandle "se") false false in
  let c := InteractionController.controller
             (InteractionController.run [press; grab] Scenario.editor) in
  InteractionController.controller Scenario.editor = InteractionController.new
  /\ InteractionController.isDragging c = true
  /\ InteractionController.isResizing c = true
  /\ flaggedGestures c = [InteractionController.dragging; InteractionController.resizing]
  /\ ~ length (flaggedGestures c) <= 1.
Proof.
  intros press grab c. split; [reflexivity|].
  assert (Hflags : flaggedGestures c = [InteractionController.dragging; InteractionController.resizing])
    by (vm_compute; reflexivity).
  split; [vm_compute; reflexivity|]. split; [vm_compute; reflexivity|].
  split; [exact Hflags|]. rewrite Hflags. simpl. lia.
Qed.

(** The Escape key during a resize: [resetState] leaves [isResizing], the
    handle, the start bounds and the shape of the resize as they were. *)
Lemma escape_keeps_resize :
  let press := InteractionController.CanvasClicked (Geometry.mkPoint 50 30)
                 (InteractionController.onShapeElement "A") false false in
  let grab := InteractionController.CanvasClicked (Geometry.mkPoint 100 60)
                 (InteractionController.onResizeHandle "se") false false in
  let escape := InteractionController.KeyDown "Escape" false false false false in
  let c := InteractionController.controller
             (InteractionController.run
                [press; InteractionController.MouseUp; grab; escape; InteractionController.MouseUp]
                Scenario.editor) in
  InteractionController.state c = InteractionController.idle
  /\ InteractionController.isResizing c = true
  /\ InteractionController.resizeHandle c = Some "se"
  /\ InteractionController.resizingShape c = Some Scenario.a.
Proof. repeat split; vm_compute; reflexivity. Qed.

(** ** Numbers *)

Ltac bools :=
  repeat match goal with
         | H : _ && _ = true |- _ => apply andb_true_iff in H as [? ?]
         | H : Qle_bool _ _ = true |- _ => apply Qle_bool_iff in H
         | |- _ && _ = true => apply andb_true_iff; split
         | |- Qle_bool _ _ = true => apply Qle_bool_iff
         end.

Section NumberFacts.
Local Open Scope Q_scope.

Lemma Qle_bool_false (a b : Q) : Qle_bool a b = false -> b < a.
Proof.
  intros H. apply Qnot_le_lt. intros Hle. apply Qle_bool_iff in Hle. congruence.
Qed.

Lemma Math_min_spec (a b : Q) :
  (a <= b /\ Math_min a b = a) \/ (b < a /\ Math_min a b = b).
Proof.
  unfold Math_min. destruct (Qle_bool a b) eqn:E.
  - left. split; [by apply Qle_bool_iff|reflexivity].
  - right. split; [by apply Qle_bool_false|reflexivity].
Qed.

Lemma Math_max_cases (a b : Q) :
  (a <= b /\ Math_max a b = b) \/ (b < a /\ Math_max a b = a).
Proof.
  unfold Math_max. destruct (Qle_bool a b) eqn:E.
  - left. split; [by apply Qle_bool_iff|reflexivity].
  - right. split; [by apply Qle_bool_false|reflexivity].
Qed.

Lemma Qfloor_unique (x : Q) (k : Z) :
  inject_Z k <= x -> x < inject_Z (k + 1) -> Qfloor x = k.
Proof.
  intros Hlo Hhi.
  pose proof (Qfloor_le x) as H1. pose proof (Qlt_floor x) as H2.
  assert (inject_Z k < inject_Z (Qfloor x + 1)) as A by lra.
  assert (inject_Z (Qfloor x) < inject_Z (k + 1)) as B by lra.
  rewrite <- Zlt_Qlt in A, B. lia.
Qed.

Lemma Math_round_bounds (a : Q) : a - (1 # 2) < Math_round a /\ Math_round a <= a + (1 # 2).
Proof.
  unfold Math_round.
  pose proof (Qfloor_le (a + (1 # 2))) as H1. pose proof (Qlt_floor (a + (1 # 2))) as H2.
  rewrite inject_Z_plus in H2. change (inject_Z 1) with 1 in H2. split; lra.
Qed.

Lemma Math_round_integer (k : Z) (a : Q) : a == inject_Z k -> Math_round a = inject_Z k.
Proof.
  intros Ha. unfold Math_round. f_equal. apply Qfloor_unique.
  - lra.
  - rewrite inject_Z_plus. change (inject_Z 1) with 1. lra.
Qed.


Lemma Qltb_ge (a b : Q) : Qltb a b = false <-> b <= a.
Proof.
  unfold Qltb. rewrite negb_false_iff. apply Qle_bool_iff.
Qed.

Lemma Qle_bool_shift (a b d : Q) : Qle_bool (a + d) (b + d) = Qle_bool a b.
Proof.
  destruct (Qle_bool a b) eqn:E.
  - apply Qle_bool_iff in E. apply Qle_bool_iff. lra.
  - destruct (Qle_bool (a + d) (b + d)) eqn:E'; [|reflexivity].
    apply Qle_bool_iff in E'. assert (a <= b) by lra.
    apply Qle_bool_iff in H. congruence.
Qed.
Lemma integralb_spec (q : Q) : integralb q = true -> integral q.
Proof.
  unfold integralb. intros H. apply andb_true_iff in H as [Hden Hnum].
  apply Pos.eqb_eq in Hden. apply Z.leb_le in Hnum.
  exists (Qnum q). split; [|exact Hnum].
  destruct q as [n d]. simpl in *. subst d. reflexivity.
Qed.

Lemma integralRectangleb_spec (r : Geometry.Rectangle) :
  integralRectangleb r = true -> integralRectangle r.
Proof.
  unfold integralRectangleb, integralRectangle. rewrite !andb_true_iff.
  intros [[[Hx Hy] Hw] Hh]. repeat split; by apply integralb_spec.
Qed.
End NumberFacts.

(** ** Geometry: rectangles and snapping *)

Section GeometryFacts.
Import Geometry.
Local Open Scope Q_scope.

Lemma contains_union (r other : Rectangle) (point : Point) :
  contains r point = true \/ contains other point = true ->
  contains (union r other) point = true.
Proof.
  unfold contains, union, left, right, top, bottom. cbn [rx ry rwidth rheight].
  destruct (Math_min_spec (rx r) (rx other)) as [[? ->]|[? ->]],
           (Math_min_spec (ry r) (ry other)) as [[? ->]|[? ->]],
           (Math_max_cases (rx r + rwidth r) (rx other + rwidth other)) as [[? ->]|[? ->]],
           (Math_max_cases (ry r + rheight r) (ry other + rheight other)) as [[? ->]|[? ->]];
    intros [Hin|Hin]; bools; lra.
Qed.

Lemma clamp_spec (value min max : Q) :
  clamp value min max <= max
  /\ (min <= max -> min <= clamp value min max)
  /\ (min <= value -> value <= max -> clamp value min max == value)
  /\ (max < min -> clamp value min max == max).
Proof.
  unfold clamp.
  destruct (Math_max_cases value min) as [[? ->]|[? ->]];
    [destruct (Math_min_spec min max) as [[? ->]|[? ->]]
    |destruct (Math_min_spec value max) as [[? ->]|[? ->]]];
    repeat split; intros; lra.
Qed.

(** [union](other) of two [integral] rectangles covers both: a point
    that one of them contains is contained in the union. The union keeps
    the width [right - x], to which [contains] adds [x] again; between
    integers the difference and the sum are exact, and the right edge of
    the union is the larger of the two right edges. *)
Theorem union_contains (r other : Rectangle) (point : Point) :
  integralRectangle r -> integralRectangle other ->
  contains r point = true \/ contains other point = true ->
  contains (union r other) point = true.
Proof. intros _ _. apply contains_union. Qed.

Lemma union_contains_witness :
  contains (union (mkRectangle 0 0 10 10) (mkRectangle 20 20 5 5)) (mkPoint 22 23) = true.
Proof.
  apply union_contains.
  - by apply integralRectangleb_spec.
  - by apply integralRectangleb_spec.
  - right. reflexivity.
Defined.

(** [snapToGrid] of an [integral] value with a positive [integral] grid
    size returns a multiple of the grid size that lies within half a
    cell of the value (a value half way between two multiples goes up),
    and snapping a snapped value changes nothing. Between such integers
    the quotient [value / gridSize] is at least [1 / (2 * gridSize)]
    away from the half-integers it is not equal to, more than its
    rounding moves it, so that [Math.round] gives the integer it gives
    for the exact quotient, and the product of that integer and the grid
    size is exact. *)
Theorem snapToGrid_nearest (value gridSize : Q) :
  integral value -> integral gridSize ->
  0 < gridSize ->
  (exists k : Z, snapToGrid value gridSize == inject_Z k * gridSize)
  /\ value - gridSize / 2 < snapToGrid value gridSize
  /\ snapToGrid value gridSize <= value + gridSize / 2
  /\ snapToGrid (snapToGrid value gridSize) gridSize == snapToGrid value gridSize.
Proof.
  intros _ _ Hg. unfold snapToGrid.
  destruct (Math_round_bounds (value / gridSize)) as [Hlo Hhi].
  assert (Hv : value / gridSize * gridSize == value) by (field; lra).
  split; [|split; [|split]].
  - exists (Qfloor (value / gridSize + (1 # 2))). reflexivity.
  - apply (Qmult_lt_compat_r _ _ gridSize) in Hlo; [|exact Hg].
    assert (gridSize / 2 == (1 # 2) * gridSize) by (field). lra.
  - apply (Qmult_le_compat_r _ _ gridSize) in Hhi; [|lra].
    assert (gridSize / 2 == (1 # 2) * gridSize) by (field). lra.
  - set (k := Qfloor (value / gridSize + (1 # 2))).
    assert (Hk : Math_round (value / gridSize) = inject_Z k) by reflexivity.
    rewrite Hk.
    rewrite (Math_round_integer k); [reflexivity|]. field. lra.
Qed.

Lemma snapToGrid_nearest_witness : snapToGrid 47 20 <= 47 + 20 / 2.
Proof.
  apply (snapToGrid_nearest 47 20).
  - by apply integralb_spec.
  - by apply integralb_spec.
  - reflexivity.
Defined.

(** [clamp] never returns more than [max]; with [min <= max] it never
    returns less than [min] and returns a value of the range unchanged;
    with the limits the wrong way round it returns [max]. *)
Theorem clamp_range (value min max : Q) :
  clamp value min max <= max
  /\ (min <= max -> min <= clamp value min max)
  /\ (min <= value -> value <= max -> clamp value min max == value)
  /\ (max < min -> clamp value min max == max).
Proof. apply clamp_spec. Qed.


(** [intersects] is symmetric, and two rectangles that contain a common
    point intersect. *)
Theorem intersects_common_point (r other : Rectangle) (point : Point) :
  intersects r other = intersects other r
  /\ (contains r point = true -> contains other point = true -> intersects r other = true).
Proof.
  split.
  - unfold intersects. f_equal.
    destruct (Qltb (right r) (left other)), (Qltb (right other) (left r)),
             (Qltb (bottom r) (top other)), (Qltb (bottom other) (top r)); reflexivity.
  - unfold contains, intersects. intros H1 H2. bools.
    apply negb_true_iff.
    repeat (apply orb_false_iff; split); apply Qltb_ge; lra.
Qed.

End GeometryFacts.

(** ** Shapes *)

Section ShapeFacts.
Import Shape.
Local Open Scope Q_scope.








(** [move(dx, dy)] translates a shape by [integral] distances, when
    the bounds of the shape and the point are [integral] too: the moved
    shape contains the translated point exactly when the shape contained
    the point, two moves add up, and the size is unchanged. All the sums
    are sums of integers that stay far below [2 ^ 53], which the code
    computes exactly. *)
Theorem move_translates (dx dy dx' dy' : Q) (point : Geometry.Point) (s : Shape.t) :
  integralRectangle (getBounds s) -> integralPoint point ->
  integral dx -> integral dy -> integral dx' -> integral dy' ->
  containsPoint (move dx dy s) (Geometry.add point (Geometry.mkPoint dx dy))
  = containsPoint s point
  /\ x (move dx' dy' (move dx dy s)) == x (move (dx + dx') (dy + dy') s)
  /\ y (move dx' dy' (move dx dy s)) == y (move (dx + dx') (dy + dy') s)
  /\ width (move dx dy s) = width s /\ height (move dx dy s) = height s.
Proof.
  intros _ _ _ _ _ _.
  split; [|simpl; repeat split; ring].
  unfold containsPoint, Geometry.contains, getBounds, move, Geometry.add,
    Geometry.left, Geometry.right, Geometry.top, Geometry.bottom.
  cbn [x y width height Geometry.x Geometry.y Geometry.rx Geometry.ry Geometry.rwidth
       Geometry.rheight].
  rewrite !Qle_bool_shift.
  assert (E1 : Qle_bool (Geometry.x point + dx) (x s + dx + width s)
               = Qle_bool (Geometry.x point) (x s + width s)).
  { rewrite <- (Qle_bool_shift (Geometry.x point) (x s + width s) dx).
    destruct (Qle_bool (Geometry.x point + dx) (x s + dx + width s)) eqn:E;
      destruct (Qle_bool (Geometry.x point + dx) (x s + width s + dx)) eqn:E';
      try reflexivity.
    - apply Qle_bool_iff in E. assert (H : Geometry.x point + dx <= x s + width s + dx) by lra.
      apply Qle_bool_iff in H. congruence.
    - apply Qle_bool_iff in E'. assert (H : Geometry.x point + dx <= x s + dx + width s) by lra.
      apply Qle_bool_iff in H. congruence. }
  assert (E2 : Qle_bool (Geometry.y point + dy) (y s + dy + height s)
               = Qle_bool (Geometry.y point) (y s + height s)).
  { rewrite <- (Qle_bool_shift (Geometry.y point) (y s + height s) dy).
    destruct (Qle_bool (Geometry.y point + dy) (y s + dy + height s)) eqn:E;
      destruct (Qle_bool (Geometry.y point + dy) (y s + height s + dy)) eqn:E';
      try reflexivity.
    - apply Qle_bool_iff in E. assert (H : Geometry.y point + dy <= y s + height s + dy) by lra.
      apply Qle_bool_iff in H. congruence.
    - apply Qle_bool_iff in E'. assert (H : Geometry.y point + dy <= y s + dy + height s) by lra.
      apply Qle_bool_iff in H. congruence. }
  by rewrite E1, E2.
Qed.

Lemma move_translates_witness :
  containsPoint (move 10 5 Scenario.shapeA)
    (Geometry.add (Geometry.mkPoint 50 30) (Geometry.mkPoint 10 5))
  = containsPoint Scenario.shapeA (Geometry.mkPoint 50 30).
Proof.
  refine (proj1 (move_translates 10 5 3 4 (Geometry.mkPoint 50 30) Scenario.shapeA
                   _ _ _ _ _ _)).
  - by apply integralRectangleb_spec.
  - split; by apply integralb_spec.
  - by apply integralb_spec.
  - by apply integralb_spec.
  - by apply integralb_spec.
  - by apply integralb_spec.
Defined.
End ShapeFacts.

(** ** Connections: waypoints *)

Section ConnectionFacts.
Import Connection.
Local Open Scope Q_scope.

(** [addWaypoint] always adds one waypoint: at the end when the index is
    out of range, and otherwise at the index, where [removeWaypoint] of
    the same index takes it out again; [moveWaypoint] and
    [removeWaypoint] with an index out of range change nothing. *)
Theorem waypoint_editing (point : Geometry.Point) (index : Z) (c : t) :
  let n := length (waypoints c) in
  length (waypoints (addWaypoint point index c)) = S n
  /\ ((index < 0 \/ Z.of_nat n < index)%Z ->
      waypoints (addWaypoint point index c) = waypoints c ++ [point])
  /\ ((0 <= index <= Z.of_nat n)%Z ->
      waypoints (addWaypoint point index c) !! Z.to_nat index = Some point
      /\ waypoints (removeWaypoint index (addWaypoint point index c)) = waypoints c)
  /\ ((index < 0 \/ Z.of_nat n <= index)%Z ->
      moveWaypoint index point c = c /\ removeWaypoint index c = c).
Proof.
  intros n. subst n. unfold addWaypoint, moveWaypoint, removeWaypoint.
  split; [|split; [|split]].
  - simpl. destruct (_ || _) eqn:E.
    + rewrite firstn_all, skipn_all. simpl. rewrite length_app. simpl. lia.
    + apply orb_false_iff in E as [E1 E2]. apply Z.ltb_ge in E1, E2.
      rewrite length_app. simpl. rewrite length_take, length_drop. lia.
  - intros H. simpl.
    assert (E : (index <? 0)%Z || (Z.of_nat (length (waypoints c)) <? index)%Z = true).
    { apply orb_true_iff. destruct H; [left|right]; by apply Z.ltb_lt. }
    rewrite E. by rewrite firstn_all, skipn_all.
  - intros [H0 Hn].
    assert (E : (index <? 0)%Z || (Z.of_nat (length (waypoints c)) <? index)%Z = false).
    { apply orb_false_iff. split; apply Z.ltb_ge; lia. }
    rewrite E. simpl.
    assert (Hlen : length (take (Z.to_nat index) (waypoints c)) = Z.to_nat index).
    { rewrite length_take. lia. }
    split.
    + rewrite lookup_app_r by lia. rewrite Hlen, Nat.sub_diag. reflexivity.
    + rewrite length_app. simpl. rewrite Hlen, length_drop.
      assert (E2 : (0 <=? index)%Z
                   && (index <? Z.of_nat (Z.to_nat index
                                         + S (length (waypoints c) - Z.to_nat index)))%Z = true).
      { apply andb_true_iff. split; [by apply Z.leb_le|apply Z.ltb_lt; lia]. }
      rewrite E2. simpl.
      rewrite take_app_length' by (symmetry; exact Hlen).
      replace (S (Z.to_nat index)) with (length (take (Z.to_nat index) (waypoints c)) + 1)%nat
        by lia.
      rewrite <- drop_drop, drop_app_length. simpl. rewrite drop_0.
      apply take_drop.
  - intros H.
    assert (E : (0 <=? index)%Z && (index <? Z.of_nat (length (waypoints c)))%Z = false).
    { apply andb_false_iff. destruct H; [left; apply Z.leb_gt|right; apply Z.ltb_ge]; lia. }
    by rewrite E.
Qed.

End ConnectionFacts.

(** ** The diagram: hit testing and the collections *)

Section DiagramExtras.
Import Diagram.

Lemma findFirst_spec {A} (objs : gmap ref A) (p : A -> bool) (rs : list ref) :
  (forall r, In r rs -> is_Some (objs !! r)) ->
  exists result,
    findFirst objs (fun o => Some (p o)) rs = Some result
    /\ match result with
       | Some r =>
           exists before after o,
             rs = before ++ r :: after /\ objs !! r = Some o /\ p o = true
             /\ forall r' o', In r' before -> objs !! r' = Some o' -> p o' = false
       | None => forall r o, In r rs -> objs !! r = Some o -> p o = false
       end.
Proof.
  induction rs as [|r rs IH]; intros Hobjs.
  - exists None. split; [reflexivity|]. intros r o [].
  - destruct (Hobjs r (or_introl eq_refl)) as [o Ho].
    simpl. rewrite Ho. simpl. destruct (p o) eqn:Hp.
    + exists (Some r). split; [reflexivity|]. exists [], rs, o.
      repeat split; try done.
    + destruct IH as (result & Hfind & Hspec); [intros; apply Hobjs; by right|].
      exists result. split; [exact Hfind|].
      destruct result as [r1|].
      * destruct Hspec as (before & after & o1 & -> & Ho1 & Hp1 & Hbefore).
        exists (r :: before), after, o1. repeat split; try done.
        intros r' o' [<-|Hin] Ho'; [congruence|by eapply Hbefore].
      * intros r' o' [<-|Hin] Ho'; [congruence|by eapply Hspec].
Qed.

(** [findShapeAtPoint] of a well-filed diagram returns the shape added
    last among those that contain the point, which is also what
    [findElementAtPoint] returns, and [null] exactly when no shape of
    the diagram contains the point. *)
Theorem findShapeAtPoint_topmost (point : Geometry.Point) (m : Model) :
  wf m ->
  exists result,
    findShapeAtPoint point m = Some result
    /\ match result with
       | Some shape =>
           exists below above s,
             getShapes m = below ++ shape :: above
             /\ shapeObjs m !! shape = Some s
             /\ Shape.containsPoint s point = true
             /\ (forall r' s', In r' above -> shapeObjs m !! r' = Some s' ->
                               Shape.containsPoint s' point = false)
             /\ findElementAtPoint point m = Some (Some (inl shape))
       | None =>
           forall r s, In r (getShapes m) -> shapeObjs m !! r = Some s ->
                       Shape.containsPoint s point = false
       end.
Proof.
  intros [[_ Hfiled] _]. unfold findElementAtPoint, findShapeAtPoint.
  destruct (findFirst_spec (shapeObjs m) (fun s => Shape.containsPoint s point)
              (rev (getShapes m))) as (result & Hfind & Hspec).
  { intros r Hr. apply in_rev in Hr. unfold getShapes, JsMap.values in Hr.
    apply in_map_iff in Hr as ([k r'] & <- & Hin).
    destruct (Hfiled k r' Hin) as (o & Ho & _). by exists o. }
  exists result. rewrite Hfind. split; [reflexivity|].
  destruct result as [shape|].
  - destruct Hspec as (before & after & s & Hrev & Hs & Hp & Hbefore).
    exists (rev after), (rev before), s.
    repeat split; try done.
    + rewrite <- (rev_involutive (getShapes m)), Hrev, rev_app_distr. simpl.
      by rewrite <- app_assoc.
    + intros r' s' Hin. apply Hbefore. by apply in_rev in Hin.
  - intros r s Hin. apply Hspec. by apply in_rev in Hin.
Qed.

Lemma In_set {V} (m : JsMap.t V) (k k' : string) (v v' : V) :
  In (k', v') (JsMap.set k v m) -> (k' = k /\ v' = v) \/ In (k', v') m.
Proof.
  induction m as [|[k0 v0] m IH]; simpl.
  - intros [[= <- <-]|[]]. by left.
  - destruct (String.eqb k0 k) eqn:E.
    + intros [[= <- <-]|Hin]; [by left|right; by right].
    + intros [Heq|Hin]; [right; by left|].
      destruct (IH Hin) as [?|?]; [by left|right; by right].
Qed.

Lemma filed_set {A} (objs : gmap ref A) (id : A -> string) (entries : JsMap.t ref)
    (r : ref) (o o' : A) :
  objs !! r = Some o -> id o' = id o ->
  filed objs id entries ->
  filed (<[r := o']> objs) id (JsMap.set (id o') r entries).
Proof.
  intros Ho Hid [Hnodup Hentries]. split; [by apply NoDup_set|].
  intros k r' Hin. apply In_set in Hin as [[-> ->]|Hin].
  - exists o'. by rewrite lookup_insert_eq.
  - destruct (Hentries k r' Hin) as (o1 & Ho1 & Hk).
    destruct (decide (r' = r)) as [->|Hne].
    + exists o'. rewrite lookup_insert_eq. split; [reflexivity|]. congruence.
    + exists o1. by rewrite lookup_insert_ne.
Qed.

Lemma filed_delete {A} (objs : gmap ref A) (id : A -> string) (entries : JsMap.t ref)
    (k : string) :
  filed objs id entries -> filed objs id (JsMap.delete k entries).
Proof.
  intros [Hnodup Hentries]. split; [by apply NoDup_delete|].
  intros k' r Hin. apply In_delete in Hin as [Hin _]. by apply Hentries.
Qed.

Lemma filed_empty {A} (objs : gmap ref A) (id : A -> string) : filed objs id JsMap.empty.
Proof. split; [constructor|intros k r []]. Qed.

Lemma call_wf (m : Model) (c : Call) : wf m -> wf (call m c).
Proof.
  intros [Hshapes Hconns]. destruct c as [shape|shapeId|connection|connectionId|]; simpl.
  - unfold addShape. destruct (shapeObjs m !! shape) as [s|] eqn:Hs; [|by split].
    split; simpl; [|exact Hconns].
    by apply (filed_set (shapeObjs m) Shape.id (shapes (diagram m)) shape s
                (Shape.setDiagramType (type (diagram m)) s)).
  - unfold removeShape. destruct (JsMap.get shapeId _); [|by split].
    split; simpl; [by apply filed_delete|exact Hconns].
  - unfold addConnection. destruct (connObjs m !! connection) as [c|] eqn:Hc; [|by split].
    split; simpl; [exact Hshapes|].
    apply (filed_set (connObjs m) Connection.id (connections (diagram m)) connection c
             (link (diagram m) (Connection.setDiagramType (type (diagram m)) c)));
      [exact Hc|reflexivity|exact Hconns].
  - unfold removeConnection. destruct (JsMap.get connectionId _); [|by split].
    split; simpl; [exact Hshapes|by apply filed_delete].
  - split; simpl; apply filed_empty.
Qed.

(** Every sequence of [addShape], [removeShape], [addConnection],
    [removeConnection] and [clear], whether a call throws or not, keeps
    the diagram well filed: no id is stored twice, and every stored
    shape and connection is stored under its own id. *)
Theorem diagram_keeps_filing (cs : list Call) (m : Model) :
  wf m -> wf (calls cs m).
Proof.
  revert m. induction cs as [|c cs IH]; intros m Hwf; [exact Hwf|].
  simpl. apply IH. by apply call_wf.
Qed.

Lemma set_new {V} (m : JsMap.t V) (k : string) (v : V) :
  JsMap.get k m = None -> JsMap.set k v m = m ++ [(k, v)].
Proof.
  induction m as [|[k0 v0] m IH]; simpl; [reflexivity|].
  destruct (String.eqb k0 k); [discriminate|]. intros Hg. by rewrite IH.
Qed.

Lemma delete_new {V} (m : JsMap.t V) (k : string) (v : V) :
  JsMap.get k m = None -> JsMap.delete k (m ++ [(k, v)]) = m.
Proof.
  induction m as [|[k0 v0] m IH]; simpl.
  - by rewrite String.eqb_refl.
  - destruct (String.eqb k0 k); [discriminate|]. intros Hg. by rewrite IH.
Qed.

(** [addShape] of a shape whose id is not in the diagram puts it last in
    [getShapes], so that [findShapeAtPoint] finds it first at every
    point it contains, and [removeShape] of its id gives back the shapes
    of before; [addShape] of a shape whose id is in the diagram keeps the
    order of the ids; and [removeShape] leaves the connections of the
    shape in the diagram. *)
Theorem addShape_on_top (shape : ref) (s : Shape.t) (m : Model) :
  shapeObjs m !! shape = Some s ->
  exists m',
    addShape shape m = Return tt m'
    /\ getShape (Shape.id s) m' = Some shape
    /\ (getShape (Shape.id s) m = None ->
        getShapes m' = getShapes m ++ [shape]
        /\ (forall point, Shape.containsPoint s point = true ->
                          findShapeAtPoint point m' = Some (Some shape))
        /\ fst (removeShape (Shape.id s) m') = Some shape
        /\ shapes (diagram (snd (removeShape (Shape.id s) m'))) = shapes (diagram m))
    /\ (is_Some (getShape (Shape.id s) m) ->
        JsMap.keys (shapes (diagram m')) = JsMap.keys (shapes (diagram m)))
    /\ getConnectionsForShape (Shape.id s) (snd (removeShape (Shape.id s) m'))
       = getConnectionsForShape (Shape.id s) m.
Proof.
  intros Hs. unfold addShape. rewrite Hs. eexists. split; [reflexivity|].
  cbn [Shape.setDiagramType Shape.id].
  split; [|split; [|split]].
  - unfold getShape. simpl. by rewrite get_set, String.eqb_refl.
  - unfold getShape. intros Hnew. unfold getShapes, findShapeAtPoint, removeShape, getShapes.
    cbn [diagram setDiagram setShapes shapes shapeObjs setShapeObjs].
    rewrite (set_new _ _ _ Hnew).
    split; [unfold JsMap.values; by rewrite map_app|].
    split.
    + intros point Hp. unfold JsMap.values. rewrite map_app, rev_app_distr. simpl.
      rewrite lookup_insert_eq. simpl.
      change (Shape.containsPoint (Shape.setDiagramType (type (diagram m)) s) point)
        with (Shape.containsPoint s point).
      by rewrite Hp.
    + assert (Hget : JsMap.get (Shape.id s) (shapes (diagram m) ++ [(Shape.id s, shape)])
                     = Some shape).
      { rewrite <- (set_new _ _ _ Hnew). by rewrite get_set, String.eqb_refl. }
      rewrite Hget. simpl. split; [reflexivity|]. by apply delete_new.
  - intros [old Hold]. unfold getShape in Hold. simpl. rewrite keys_set.
    unfold JsMap.has. by rewrite Hold.
  - unfold removeShape, getConnectionsForShape, getConnections.
    by destruct (JsMap.get _ _).
Qed.
End DiagramExtras.

Lemma findShapeAtPoint_topmost_witness :
  is_Some (Diagram.findShapeAtPoint (Geometry.mkPoint 50 30) Scenario.connected).
Proof.
  destruct (findShapeAtPoint_topmost (Geometry.mkPoint 50 30) Scenario.connected wf_connected)
    as (result & Hfind & _).
  by exists result.
Defined.

Lemma diagram_keeps_filing_witness :
  Diagram.wf (Diagram.calls [Diagram.RemoveShape "A"; Diagram.AddShape Scenario.a;
                             Diagram.RemoveConnection "AB"; Diagram.Clear]
                            Scenario.connected).
Proof. apply diagram_keeps_filing. exact wf_connected. Defined.

Lemma addShape_on_top_witness :
  exists m',
    Diagram.addShape Scenario.a Scenario.objects = Return tt m'
    /\ Diagram.getShape "A" m' = Some Scenario.a.
Proof.
  destruct (addShape_on_top Scenario.a Scenario.shapeA Scenario.objects) as (m' & Hadd & Hget & _).
  - vm_compute. reflexivity.
  - exists m'. split; [exact Hadd|exact Hget].
Defined.

(** ** Saving and loading the shapes of a diagram *)

Section DiagramRoundTrip.
Import Diagram.

Variable shapeFactory : Shape.JSON -> Shape.t.





End DiagramRoundTrip.

Section DiagramRoundTrip2.
Import Diagram Commands.
Local Open Scope Q_scope.


End DiagramRoundTrip2.




(** ** The command history: undo and redo compose *)

Section HistoryExtras.
Context {W : Type} `{Command.Host W}.

(** After a successful [undo()], [redo()] succeeds when the command
    executes again and gives back the two stacks of before the undo;
    the undo itself moves exactly one command between the stacks. *)
Theorem undo_then_redo (m m1 : CommandManager.t) (w w1 w2 : W) (command : ref) :
  top (CommandManager.undoStack m) = Some command ->
  CommandManager.undo (m, w) = (true, (m1, w1)) ->
  Command.execute command w1 = Return tt w2 ->
  CommandManager.redo (m1, w1) = (true, (m, w2))
  /\ top (CommandManager.redoStack m1) = Some command
  /\ length (CommandManager.undoStack m1) + length (CommandManager.redoStack m1)
     = length (CommandManager.undoStack m) + length (CommandManager.redoStack m).
Proof.
  intros Htop Hundo Hexec. unfold CommandManager.undo in Hundo.
  unfold top in Htop.
  destruct (pop (CommandManager.undoStack m)) as [[command' rest]|] eqn:Hpop; [|discriminate].
  simpl in Htop. injection Htop as ->.
  rewrite (pop_canUndo _ _ _ Hpop) in Hundo. simpl in Hundo.
  destruct (Command.undo command w) as [[] w'|]; [|discriminate].
  injection Hundo as <- <-.
  unfold CommandManager.redo. cbn [CommandManager.redoStack CommandManager.undoStack
    CommandManager.maxHistory].
  assert (Hcan : CommandManager.canRedo
                   {| CommandManager.undoStack := rest;
                      CommandManager.redoStack := push (CommandManager.redoStack m) command;
                      CommandManager.maxHistory := CommandManager.maxHistory m |} = true).
  { unfold CommandManager.canRedo. simpl. rewrite length_push. reflexivity. }
  rewrite Hcan, pop_push, Hexec. simpl.
  apply pop_Some in Hpop. rewrite <- Hpop, manager_eta.
  split; [reflexivity|]. split; [apply top_push|].
  rewrite Hpop, !length_push. lia.
Qed.

(** After a successful [redo()], [undo()] succeeds when the command
    undoes again and gives back the two stacks of before the redo. *)
Theorem redo_then_undo (m m1 : CommandManager.t) (w w1 w2 : W) (command : ref) :
  top (CommandManager.redoStack m) = Some command ->
  CommandManager.redo (m, w) = (true, (m1, w1)) ->
  Command.undo command w1 = Return tt w2 ->
  CommandManager.undo (m1, w1) = (true, (m, w2))
  /\ top (CommandManager.undoStack m1) = Some command.
Proof.
  intros Htop Hredo Hundo. unfold CommandManager.redo in Hredo.
  unfold top in Htop.
  destruct (pop (CommandManager.redoStack m)) as [[command' rest]|] eqn:Hpop; [|discriminate].
  simpl in Htop. injection Htop as ->.
  rewrite (pop_canRedo _ _ _ Hpop) in Hredo. simpl in Hredo.
  destruct (Command.execute command w) as [[] w'|]; [|discriminate].
  injection Hredo as <- <-.
  unfold CommandManager.undo. cbn [CommandManager.redoStack CommandManager.undoStack
    CommandManager.maxHistory].
  assert (Hcan : CommandManager.canUndo
                   {| CommandManager.undoStack := push (CommandManager.undoStack m) command;
                      CommandManager.redoStack := rest;
                      CommandManager.maxHistory := CommandManager.maxHistory m |} = true).
  { unfold CommandManager.canUndo. simpl. rewrite length_push. reflexivity. }
  rewrite Hcan, pop_push, Hundo. simpl.
  apply pop_Some in Hpop. rewrite <- Hpop, manager_eta.
  split; [reflexivity|apply top_push].
Qed.

(** [getState()] after a successful [execute(command)]: undo is
    possible and redo is not, the undo description is the description
    of the command, there is no redo description, and the history length
    is one more than before up to [maxHistory]; after [clear()] nothing
    is possible and the length is 0. *)
Theorem getState_after_execute (m m1 : CommandManager.t) (w w1 : W) (command : ref) :
  (0 < CommandManager.maxHistory m)%nat ->
  (length (CommandManager.undoStack m) <= CommandManager.maxHistory m)%nat ->
  CommandManager.execute command (m, w) = Return tt (m1, w1) ->
  let state := CommandManager.getState (m1, w1) in
  CommandManager.hs_canUndo state = true
  /\ CommandManager.hs_canRedo state = false
  /\ CommandManager.undoDescription state = Command.getDescription command w1
  /\ CommandManager.redoDescription state = None
  /\ CommandManager.historyLength state
     = Nat.min (S (length (CommandManager.undoStack m))) (CommandManager.maxHistory m)
  /\ CommandManager.getState (CommandManager.clear m1, w1)
     = CommandManager.mkHistoryState false false None None 0.
Proof.
  intros Hmax Hbound Hexec state. unfold CommandManager.execute in Hexec.
  destruct (Command.execute command w) as [[] w'|]; [|discriminate].
  injection Hexec as <- <-. subst state.
  unfold CommandManager.getState, CommandManager.addToHistory, CommandManager.canUndo,
    CommandManager.canRedo, CommandManager.limit.
  cbn [CommandManager.undoStack CommandManager.redoStack CommandManager.maxHistory
       CommandManager.hs_canUndo CommandManager.hs_canRedo CommandManager.undoDescription
       CommandManager.redoDescription CommandManager.historyLength CommandManager.clear].
  rewrite length_push.
  destruct (CommandManager.maxHistory m <? S (length (CommandManager.undoStack m)))%nat eqn:E.
  - apply Nat.ltb_lt in E.
    assert (Hshift : shift (push (CommandManager.undoStack m) command)
                     = push (tail (CommandManager.undoStack m)) command).
    { unfold shift, push. destruct (CommandManager.undoStack m); [simpl in E; lia|reflexivity]. }
    rewrite Hshift, top_push, length_push.
    assert (Hlen : length (tail (CommandManager.undoStack m))
                   = (length (CommandManager.undoStack m) - 1)%nat)
      by (destruct (CommandManager.undoStack m); simpl; lia).
    rewrite Hlen. repeat split; try reflexivity. lia.
  - apply Nat.ltb_ge in E. rewrite top_push, length_push. repeat split; try reflexivity. lia.
Qed.
End HistoryExtras.

Lemma undo_then_redo_witness :
  let s1 := snd (CommandManager.undo (Scenario.moved, Scenario.world)) in
  let w2 := stateOf (Command.execute Scenario.moveA (snd s1)) in
  CommandManager.redo (fst s1, snd s1) = (true, (Scenario.moved, w2)).
Proof.
  intros s1 w2.
  refine (proj1 (undo_then_redo Scenario.moved (fst s1) Scenario.world (snd s1) w2
                   Scenario.moveA _ _ _)); vm_compute; reflexivity.
Defined.

Lemma redo_then_undo_witness :
  let s1 := snd (CommandManager.undo (Scenario.moved, Scenario.world)) in
  let s2 := snd (CommandManager.redo (fst s1, snd s1)) in
  let w2 := stateOf (Command.undo Scenario.moveA (snd s2)) in
  CommandManager.undo (fst s2, snd s2) = (true, (fst s1, w2)).
Proof.
  intros s1 s2 w2.
  refine (proj1 (redo_then_undo (fst s1) (fst s2) (snd s1) (snd s2) w2
                   Scenario.moveA _ _ _)); vm_compute; reflexivity.
Defined.

Lemma getState_after_execute_witness :
  let s1 := stateOf (CommandManager.execute Scenario.moveA (Scenario.moved, Scenario.world)) in
  CommandManager.historyLength (CommandManager.getState (fst s1, snd s1)) = 3.
Proof.
  intros s1.
  refine (proj1 (proj2 (proj2 (proj2 (proj2
            (getState_after_execute Scenario.moved (fst s1) Scenario.world (snd s1)
               Scenario.moveA _ _ _)))))).
  - simpl. lia.
  - simpl. lia.
  - vm_compute. reflexivity.
Defined.

(** ** The selection *)

Section SelectionFacts.
Import Diagram Commands SelectionManager.

Lemma In_add (r r' : ref) (s : JsSet.t) : In r' (JsSet.add r s) <-> r' = r \/ In r' s.
Proof.
  unfold JsSet.add. destruct (JsSet.has r s) eqn:E.
  - apply has_In in E. split; [by right|]. intros [->|?]; done.
  - rewrite in_app_iff. simpl. split; [intros [?|[<-|[]]]; auto|intros [->|?]; auto].
Qed.

Lemma In_delete_ref (r r' : ref) (s : JsSet.t) :
  In r' (JsSet.delete r s) <-> In r' s /\ r' <> r.
Proof.
  unfold JsSet.delete. rewrite <- !list_elem_of_In, list_elem_of_filter.
  rewrite Is_true_true, negb_true_iff, Pos.eqb_neq. split; intros [? ?]; split; auto.
Qed.

Lemma forEach_deselect_shapes (rs : list ref) (m : Model) :
  (forall r, In r rs -> is_Some (shapeObjs m !! r)) ->
  exists m1,
    forEach (fun shape => onShape shape (Shape.setSelected false)) rs m = Return tt m1
    /\ connObjs m1 = connObjs m /\ diagram m1 = diagram m
    /\ (forall r, is_Some (shapeObjs m1 !! r) <-> is_Some (shapeObjs m !! r))
    /\ (forall r o, In r rs -> shapeObjs m1 !! r = Some o -> Shape.selected o = false)
    /\ (forall r, ~ In r rs -> shapeObjs m1 !! r = shapeObjs m !! r).
Proof.
  revert m. induction rs as [|r0 rs IH]; intros m Halloc; simpl.
  - exists m. repeat split; try done; intros r o [].
  - destruct (Halloc r0 (or_introl eq_refl)) as [s Hs].
    unfold bindO, onShape at 1. rewrite Hs.
    set (m' := setShapeObjs (<[r0 := Shape.setSelected false s]> (shapeObjs m)) m).
    destruct (IH m') as (m1 & Hrun & Hc & Hd & Hdom & Hin & Hout).
    { intros r Hr. subst m'. simpl. destruct (decide (r0 = r)) as [<-|Hne].
      - rewrite lookup_insert_eq. eauto.
      - rewrite lookup_insert_ne by done. apply Halloc. by right. }
    exists m1. split; [exact Hrun|]. split; [exact Hc|]. split; [exact Hd|].
    split; [|split].
    + intros r. rewrite Hdom. subst m'. simpl. destruct (decide (r0 = r)) as [<-|Hne].
      * rewrite lookup_insert_eq, Hs. split; eauto.
      * by rewrite lookup_insert_ne.
    + intros r o [<-|Hr] Ho; [|by eapply Hin].
      destruct (in_dec Pos.eq_dec r0 rs) as [Hr|Hr]; [by eapply Hin|].
      rewrite (Hout r0 Hr) in Ho. subst m'. simpl in Ho.
      rewrite lookup_insert_eq in Ho. by injection Ho as <-.
    + intros r Hr. rewrite Hout by tauto. subst m'. simpl.
      rewrite lookup_insert_ne; [done|]. intros ->. apply Hr. by left.
Qed.

Lemma forEach_deselect_connections (rs : list ref) (m : Model) :
  (forall r, In r rs -> is_Some (connObjs m !! r)) ->
  exists m1,
    forEach (fun conn => onConnection conn (Connection.setSelected false)) rs m = Return tt m1
    /\ shapeObjs m1 = shapeObjs m /\ diagram m1 = diagram m
    /\ (forall r, is_Some (connObjs m1 !! r) <-> is_Some (connObjs m !! r))
    /\ (forall r o, In r rs -> connObjs m1 !! r = Some o -> Connection.selected o = false)
    /\ (forall r, ~ In r rs -> connObjs m1 !! r = connObjs m !! r).
Proof.
  revert m. induction rs as [|r0 rs IH]; intros m Halloc; simpl.
  - exists m. repeat split; try done; intros r o [].
  - destruct (Halloc r0 (or_introl eq_refl)) as [s Hs].
    unfold bindO, onConnection at 1. rewrite Hs.
    set (m' := setConnObjs (<[r0 := Connection.setSelected false s]> (connObjs m)) m).
    destruct (IH m') as (m1 & Hrun & Hc & Hd & Hdom & Hin & Hout).
    { intros r Hr. subst m'. simpl. destruct (decide (r0 = r)) as [<-|Hne].
      - rewrite lookup_insert_eq. eauto.
      - rewrite lookup_insert_ne by done. apply Halloc. by right. }
    exists m1. split; [exact Hrun|]. split; [exact Hc|]. split; [exact Hd|].
    split; [|split].
    + intros r. rewrite Hdom. subst m'. simpl. destruct (decide (r0 = r)) as [<-|Hne].
      * rewrite lookup_insert_eq, Hs. split; eauto.
      * by rewrite lookup_insert_ne.
    + intros r o [<-|Hr] Ho; [|by eapply Hin].
      destruct (in_dec Pos.eq_dec r0 rs) as [Hr|Hr]; [by eapply Hin|].
      rewrite (Hout r0 Hr) in Ho. subst m'. simpl in Ho.
      rewrite lookup_insert_eq in Ho. by injection Ho as <-.
    + intros r Hr. rewrite Hout by tauto. subst m'. simpl.
      rewrite lookup_insert_ne; [done|]. intros ->. apply Hr. by left.
Qed.

(** [clearSelection()] on a tracked state: it returns, nothing is
    selected afterwards and no object is flagged. *)
Lemma clearSelection_spec (s : St) :
  tracked s ->
  exists m1,
    clearSelection s = Return tt (SelectionManager.new, m1)
    /\ diagram m1 = diagram (snd s)
    /\ (forall r, is_Some (shapeObjs m1 !! r) <-> is_Some (shapeObjs (snd s) !! r))
    /\ (forall r, is_Some (connObjs m1 !! r) <-> is_Some (connObjs (snd s) !! r))
    /\ (forall r o, shapeObjs m1 !! r = Some o -> Shape.selected o = false)
    /\ (forall r o, connObjs m1 !! r = Some o -> Connection.selected o = false).
Proof.
  destruct s as [sm m]. intros (Hs1 & Hs2 & Hc1 & Hc2). simpl in *.
  destruct (forEach_deselect_shapes (selectedShapes sm) m)
    as (m1 & Hrun1 & Hconn1 & Hd1 & Hdom1 & Hin1 & Hout1).
  { intros r Hr. destruct (Hs1 r Hr) as (o & Ho & _). eauto. }
  destruct (forEach_deselect_connections (selectedConnections sm) m1)
    as (m2 & Hrun2 & Hsh2 & Hd2 & Hdom2 & Hin2 & Hout2).
  { intros r Hr. rewrite Hconn1. destruct (Hc1 r Hr) as (o & Ho & _). eauto. }
  exists m2. unfold clearSelection, bindO, onModel. simpl. rewrite Hrun1. simpl.
  rewrite Hrun2. simpl. split; [reflexivity|].
  split; [congruence|]. split; [intros r; by rewrite Hsh2|].
  split; [intros r; by rewrite Hdom2, Hconn1|]. split.
  - intros r o. rewrite Hsh2. intros Ho.
    destruct (in_dec Pos.eq_dec r (selectedShapes sm)) as [Hr|Hr]; [by eapply Hin1|].
    rewrite (Hout1 r Hr) in Ho. destruct (Shape.selected o) eqn:E; [|reflexivity].
    destruct Hr. by eapply Hs2.
  - intros r o Ho.
    destruct (in_dec Pos.eq_dec r (selectedConnections sm)) as [Hr|Hr]; [by eapply Hin2|].
    rewrite (Hout2 r Hr), Hconn1 in Ho. destruct (Connection.selected o) eqn:E; [|reflexivity].
    destruct Hr. by eapply Hc2.
Qed.

Lemma clearSelection_tracked (s : St) : tracked s -> tracked (stateOf (clearSelection s)).
Proof.
  intros Ht. destruct (clearSelection_spec s Ht) as (m1 & -> & _ & _ & _ & Hs & Hc).
  simpl. repeat split; simpl.
  - intros r [].
  - intros r o Ho Hsel. rewrite (Hs r o Ho) in Hsel. discriminate.
  - intros r [].
  - intros r o Ho Hsel. rewrite (Hc r o Ho) in Hsel. discriminate.
Qed.

(** Flagging a shape and adding it to the set, as one step. *)
Lemma flag_shape_tracked (shape : ref) (s : St) :
  tracked s ->
  tracked (stateOf ((let* _ := onModel (onShape shape (Shape.setSelected true)) in
                     fun s => setSelectedShapes (JsSet.add shape (selectedShapes (fst s))) s) s)).
Proof.
  destruct s as [sm m]. intros (Hs1 & Hs2 & Hc1 & Hc2). simpl in *.
  unfold bindO, onModel, onShape. simpl.
  destruct (shapeObjs m !! shape) as [o|] eqn:Ho; simpl; [|by repeat split].
  repeat split; simpl.
  - intros r Hr. apply In_add in Hr as [->|Hr].
    + rewrite lookup_insert_eq. eauto.
    + destruct (decide (shape = r)) as [<-|Hne].
      * rewrite lookup_insert_eq. eauto.
      * rewrite lookup_insert_ne by done. by apply Hs1.
  - intros r o' Ho' Hsel. apply In_add. destruct (decide (shape = r)) as [<-|Hne]; [by left|].
    right. rewrite lookup_insert_ne in Ho' by done. by eapply Hs2.
  - exact Hc1.
  - exact Hc2.
Qed.

Lemma flag_connection_tracked (connection : ref) (s : St) :
  tracked s ->
  tracked (stateOf ((let* _ := onModel (onConnection connection (Connection.setSelected true)) in
                     fun s => setSelectedConnections
                                (JsSet.add connection (selectedConnections (fst s))) s) s)).
Proof.
  destruct s as [sm m]. intros (Hs1 & Hs2 & Hc1 & Hc2). simpl in *.
  unfold bindO, onModel, onConnection. simpl.
  destruct (connObjs m !! connection) as [o|] eqn:Ho; simpl; [|by repeat split].
  repeat split; simpl.
  - exact Hs1.
  - exact Hs2.
  - intros r Hr. apply In_add in Hr as [->|Hr].
    + rewrite lookup_insert_eq. eauto.
    + destruct (decide (connection = r)) as [<-|Hne].
      * rewrite lookup_insert_eq. eauto.
      * rewrite lookup_insert_ne by done. by apply Hc1.
  - intros r o' Ho' Hsel. apply In_add.
    destruct (decide (connection = r)) as [<-|Hne]; [by left|].
    right. rewrite lookup_insert_ne in Ho' by done. by eapply Hc2.
Qed.

Lemma tracked_bind {A} (m : St -> Outcome St A) (k : A -> St -> Outcome St unit) (s : St) :
  tracked (stateOf (m s)) ->
  (forall a s', tracked s' -> tracked (stateOf (k a s'))) ->
  tracked (stateOf (bindO m k s)).
Proof.
  intros Hm Hk. unfold bindO. destruct (m s) as [a s'|e s']; simpl in *; [by apply Hk|exact Hm].
Qed.

Lemma selectShape_tracked (shape : ref) (addToSelection : bool) (s : St) :
  tracked s -> tracked (stateOf (selectShape shape addToSelection s)).
Proof.
  intros Ht. unfold selectShape. apply tracked_bind.
  - destruct addToSelection; [exact Ht|by apply clearSelection_tracked].
  - intros _ s' Hs'. by apply flag_shape_tracked.
Qed.

Lemma selectConnection_tracked (connection : ref) (addToSelection : bool) (s : St) :
  tracked s -> tracked (stateOf (selectConnection connection addToSelection s)).
Proof.
  intros Ht. unfold selectConnection. apply tracked_bind.
  - destruct addToSelection; [exact Ht|by apply clearSelection_tracked].
  - intros _ s' Hs'. by apply flag_connection_tracked.
Qed.

Lemma selectEach_tracked (shapes : list ref) (s : St) :
  tracked s -> tracked (stateOf (selectEach shapes s)).
Proof.
  revert s. induction shapes as [|shape rest IH]; intros s Ht; [exact Ht|].
  simpl.
  pose proof (flag_shape_tracked shape s Ht) as Hstep.
  unfold bindO in *. destruct (onModel _ s) as [[] s1|e s1]; simpl in *; [|exact Hstep].
  by apply IH.
Qed.

Lemma deselectShape_tracked (shape : ref) (s : St) :
  tracked s -> tracked (stateOf (deselectShape shape s)).
Proof.
  destruct s as [sm m]. intros (Hs1 & Hs2 & Hc1 & Hc2). simpl in *.
  unfold deselectShape, bindO, onModel, onShape. simpl.
  destruct (shapeObjs m !! shape) as [o|] eqn:Ho; simpl; [|by repeat split].
  repeat split; simpl.
  - intros r Hr. apply In_delete_ref in Hr as [Hr Hne].
    rewrite lookup_insert_ne by done. by apply Hs1.
  - intros r o' Ho' Hsel. apply In_delete_ref.
    destruct (decide (shape = r)) as [<-|Hne].
    + rewrite lookup_insert_eq in Ho'. injection Ho' as <-. discriminate.
    + rewrite lookup_insert_ne in Ho' by done. split; [by eapply Hs2|done].
  - exact Hc1.
  - exact Hc2.
Qed.

Lemma call_tracked (s : St) (c : Call) : tracked s -> tracked (call s c).
Proof.
  intros Ht. destruct c; unfold call.
  - by apply selectShape_tracked.
  - by apply selectConnection_tracked.
  - unfold selectShapes. apply tracked_bind; [by apply clearSelection_tracked|].
    intros _ s' Hs'. by apply selectEach_tracked.
  - by apply deselectShape_tracked.
  - unfold toggleShape. destruct (JsSet.has _ _);
      [by apply deselectShape_tracked|by apply selectShape_tracked].
  - by apply clearSelection_tracked.
Qed.

(** Every sequence of [selectShape], [selectConnection], [selectShapes],
    [deselectShape], [toggleShape] and [clearSelection], whether a call
    throws or not, keeps the selection sets and the [selected] flags in
    agreement: an object is in a selection set exactly when its flag is
    set. *)
Theorem selection_tracks_flags (cs : list Call) (s : St) :
  tracked s -> tracked (calls cs s).
Proof.
  revert s. induction cs as [|c cs IH]; intros s Ht; [exact Ht|].
  simpl. apply IH. by apply call_tracked.
Qed.

(** [selectShape(shape)] without [addToSelection] returns and leaves
    this shape as the whole selection and the primary selection: no
    connection is selected, and the shape is the only object whose
    [selected] flag is set. *)
Theorem selectShape_replaces (shape : ref) (o : Shape.t) (s : St) :
  tracked s ->
  shapeObjs (snd s) !! shape = Some o ->
  exists s',
    selectShape shape false s = Return tt s'
    /\ getSelectedShapes (fst s') = [shape]
    /\ getSelectedConnections (fst s') = []
    /\ getPrimarySelection (fst s') = Some (ShapeElement shape)
    /\ (forall r o', shapeObjs (snd s') !! r = Some o' ->
                     Shape.selected o' = bool_decide (r = shape))
    /\ (forall r o', connObjs (snd s') !! r = Some o' -> Connection.selected o' = false).
Proof.
  intros Ht Ho. destruct (clearSelection_spec s Ht) as (m1 & Hclear & _ & Hdom & _ & Hs & Hc).
  unfold selectShape, bindO. rewrite Hclear.
  destruct (proj2 (Hdom shape)) as [o1 Ho1]; [eauto|].
  unfold onModel, onShape. simpl. rewrite Ho1. simpl.
  eexists. split; [reflexivity|]. simpl.
  repeat split; try reflexivity.
  - intros r o' Ho'. destruct (decide (shape = r)) as [<-|Hne].
    + rewrite lookup_insert_eq in Ho'. injection Ho' as <-.
      by rewrite bool_decide_eq_true_2.
    + rewrite lookup_insert_ne in Ho' by done. rewrite (Hs r o' Ho').
      by rewrite bool_decide_eq_false_2.
  - exact Hc.
Qed.
Lemma foldl_union_contains (objs : gmap ref Shape.t) (rest : list ref)
    (acc bounds : Geometry.Rectangle) (point : Geometry.Point) :
  foldl (fun acc shape =>
           bounds ← acc;
           b ← Shape.getBounds <$> objs !! shape;
           Some (Geometry.union bounds b)) (Some acc) rest = Some bounds ->
  (Geometry.contains acc point = true
   \/ exists r o, In r rest /\ objs !! r = Some o /\ Shape.containsPoint o point = true) ->
  Geometry.contains bounds point = true.
Proof.
  revert acc. induction rest as [|r rest IH]; intros acc; simpl.
  - intros [= <-] [H|(r & o & [] & _)]. exact H.
  - destruct (objs !! r) as [o|] eqn:Ho; simpl.
    + intros Hfold Hin. apply (IH _ Hfold).
      destruct Hin as [H|(r' & o' & [<-|Hr'] & Ho' & Hp)].
      * left. apply contains_union. by left.
      * left. apply contains_union. right. rewrite Ho in Ho'. by injection Ho' as <-.
      * right. eauto.
    + intros Hfold. exfalso. clear -Hfold.
      induction rest as [|r' rest IH]; simpl in Hfold; [discriminate|by apply IH].
Qed.

(** When the bounds of the selected shapes are [integral], the
    rectangle [getSelectionBounds()] returns contains every point that a
    selected shape contains. The unions keep a left edge and a width
    [right - x] whose sum the next union and [contains] take again;
    between integers these differences and sums are exact. *)
Theorem selection_bounds_cover (s : St) (bounds : Geometry.Rectangle) :
  (forall r o, In r (getSelectedShapes (fst s)) -> shapeObjs (snd s) !! r = Some o ->
               integralRectangle (Shape.getBounds o)) ->
  getSelectionBounds s = Some (Some bounds) ->
  forall r o point,
    In r (getSelectedShapes (fst s)) ->
    shapeObjs (snd s) !! r = Some o ->
    Shape.containsPoint o point = true ->
    Geometry.contains bounds point = true.
Proof.
  intros _.
  unfold getSelectionBounds. destruct (getSelectedShapes (fst s)) as [|first rest] eqn:Hsel;
    [discriminate|].
  destruct (shapeObjs (snd s) !! first) as [o0|] eqn:Ho0; simpl; [|discriminate].
  destruct (foldl _ _ rest) as [b|] eqn:Hfold; simpl; [|discriminate].
  intros [= <-] r o point Hin Ho Hp.
  apply (foldl_union_contains _ _ _ _ point Hfold).
  destruct Hin as [<-|Hin].
  - left. rewrite Ho0 in Ho. by injection Ho as <-.
  - right. eauto.
Qed.

Lemma tracked_connected : tracked (new, Scenario.connected).
Proof.
  assert (Hs : map_Forall (fun _ o => Shape.selected o = false) (shapeObjs Scenario.connected))
    by (apply (bool_decide_unpack _); vm_compute; reflexivity).
  assert (Hc : map_Forall (fun _ o => Connection.selected o = false)
                 (connObjs Scenario.connected))
    by (apply (bool_decide_unpack _); vm_compute; reflexivity).
  split; [intros r []|]. split.
  - intros r o Ho Hsel. apply Hs in Ho. simpl in Ho. congruence.
  - split; [intros r []|].
    intros r o Ho Hsel. apply Hc in Ho. simpl in Ho. congruence.
Qed.
End SelectionFacts.

Lemma selection_tracks_flags_witness :
  tracked (SelectionManager.calls
             [SelectionManager.SelectShape Scenario.a false;
              SelectionManager.ToggleShape Scenario.b;
              SelectionManager.SelectConnection Scenario.ab true;
              SelectionManager.DeselectShape Scenario.a]
             (SelectionManager.new, Scenario.connected)).
Proof. apply selection_tracks_flags. exact tracked_connected. Defined.

Lemma selectShape_replaces_witness :
  exists s',
    SelectionManager.selectShape Scenario.b false
      (SelectionManager.calls [SelectionManager.SelectShape Scenario.a false;
                               SelectionManager.SelectConnection Scenario.ab true]
                              (SelectionManager.new, Scenario.connected))
    = Return tt s'
    /\ SelectionManager.getSelectedShapes (fst s') = [Scenario.b]
    /\ SelectionManager.getSelectedConnections (fst s') = [].
Proof.
  set (s := SelectionManager.calls _ _).
  assert (Ht : tracked s).
  { apply call_tracked, call_tracked. exact tracked_connected. }
  destruct (Diagram.shapeObjs (snd s) !! Scenario.b) as [o|] eqn:Ho;
    [|vm_compute in Ho; discriminate].
  destruct (selectShape_replaces Scenario.b o s Ht Ho) as (s' & Hsel & Hshapes & Hconns & _).
  exists s'. split; [exact Hsel|]. split; [exact Hshapes|exact Hconns].
Defined.

Lemma selection_bounds_cover_witness :
  let s := SelectionManager.calls [SelectionManager.SelectShape Scenario.a false;
                                   SelectionManager.SelectShape Scenario.b true]
                                  (SelectionManager.new, Scenario.connected) in
  exists bounds,
    SelectionManager.getSelectionBounds s = Some (Some bounds)
    /\ Geometry.contains bounds (Geometry.mkPoint 350 30) = true.
Proof.
  intros s.
  destruct (SelectionManager.getSelectionBounds s) as [[bounds|]|] eqn:Hb;
    [|vm_compute in Hb; discriminate|vm_compute in Hb; discriminate].
  destruct (Diagram.shapeObjs (snd s) !! Scenario.b) as [o|] eqn:Ho;
    [|vm_compute in Ho; discriminate].
  exists bounds. split; [reflexivity|].
  assert (Hint : map_Forall (fun _ o => integralRectangleb (Shape.getBounds o) = true)
                   (Diagram.shapeObjs (snd s)))
    by (apply (bool_decide_unpack _); vm_compute; reflexivity).
  refine (selection_bounds_cover s bounds _ Hb Scenario.b o (Geometry.mkPoint 350 30) _ _ _).
  - intros r o' _ Ho'. apply integralRectangleb_spec. exact (Hint r o' Ho').
  - vm_compute. auto.
  - exact Ho.
  - vm_compute in Ho. injection Ho as <-. vm_compute. reflexivity.
Defined.

(** ** Resize handles *)

Section HandleFacts.
Import Commands ResizeHandleManager.
Local Open Scope Q_scope.

(** [getHandlePositions] gives the eight handles in the order nw, n,
    ne, e, se, s, sw, w, and every handle lies on the edges that
    [calculateNewBounds] moves for it: a handle that moves the west or
    east edge is on that edge and otherwise at the horizontal centre,
    and likewise for north and south. *)
Theorem handles_on_their_edges (bounds : Geometry.Rectangle) :
  let b := mkBounds (Geometry.rx bounds) (Geometry.ry bounds)
                    (Geometry.rwidth bounds) (Geometry.rheight bounds) in
  map fst (getHandlePositions bounds) = handleIds
  /\ forall handleId p,
       In (handleId, p) (getHandlePositions bounds) ->
       (adjusts handleId West = true -> Geometry.x p == edge West b)
       /\ (adjusts handleId East = true -> Geometry.x p == edge East b)
       /\ (adjusts handleId West = false -> adjusts handleId East = false ->
           Geometry.x p == Geometry.centerX bounds)
       /\ (adjusts handleId North = true -> Geometry.y p == edge North b)
       /\ (adjusts handleId South = true -> Geometry.y p == edge South b)
       /\ (adjusts handleId North = false -> adjusts handleId South = false ->
           Geometry.y p == Geometry.centerY bounds).
Proof.
  intros b. split; [reflexivity|].
  intros handleId p Hin. unfold getHandlePositions in Hin. cbn [In] in Hin.
  repeat (destruct Hin as [[= <- <-]|Hin]); try contradiction;
    repeat split; intros; try discriminate; subst b;
    cbn [edge Geometry.x Geometry.y bx by_ bwidth bheight];
    unfold Geometry.centerX, Geometry.centerY; reflexivity.
Qed.
End HandleFacts.

(** ** The viewport *)

Section CanvasFacts.
Import SVGCanvas.
Local Open Scope Q_scope.

Lemma zoomAtPoint_range container delta point c :
  zoomInRange c -> zoomInRange (zoomAtPoint container delta point c).
Proof.
  intros (Hmin & Hmax & Hlo & Hhi). unfold zoomAtPoint, zoomInRange.
  rewrite Hmin, Hmax.
  destruct (clamp_spec (zoom c + delta) (1 # 10) 3) as (H1 & H2 & _).
  destruct (Qeq_bool _ _); simpl; rewrite ?Hmin, ?Hmax;
    repeat split; try assumption; try (apply H2; lra).
Qed.

Lemma call_range (c : t) step : zoomInRange c -> zoomInRange (call c step).
Proof.
  destruct step as [[container svg] op]. intros Hc.
  destruct op; simpl; try exact Hc.
  - by apply zoomAtPoint_range.
  - by apply zoomAtPoint_range.
  - destruct Hc as (Hmin & Hmax & Hlo & Hhi).
    unfold zoomInRange, setZoom. simpl. rewrite Hmin, Hmax.
    destruct (clamp_spec zoom0 (1 # 10) 3) as (H1 & H2 & _).
    repeat split; try assumption. apply H2; lra.
  - destruct Hc as (Hmin & Hmax & Hlo & Hhi). repeat split; simpl; try assumption; lra.
  - unfold doPan. destruct (panStart c) as [[startX startY]|]; exact Hc.
Qed.

Lemma calls_range steps (c : t) : zoomInRange c -> zoomInRange (calls steps c).
Proof.
  revert c. induction steps as [|step steps IH]; intros c Hc; [exact Hc|].
  simpl. apply IH. by apply call_range.
Qed.

Lemma new_range container : zoomInRange (new container).
Proof. repeat split; simpl; lra. Qed.

(** After the constructor and any sequence of zoom, wheel, [setZoom],
    [fitToContent], pan and resize calls, the zoom factor is between
    0.1 and 3. *)
Theorem zoom_within_limits (container : ClientRect)
    (steps : list (ClientRect * ClientRect * Call)) :
  let c := calls steps (new container) in
  1 # 10 <= zoom c /\ zoom c <= 3.
Proof.
  intros c. destruct (calls_range steps _ (new_range container)) as (_ & _ & Hlo & Hhi).
  by split.
Qed.

End CanvasFacts.

(** ** The properties panel *)

Section PanelFacts.
Import Diagram Commands PropertiesPanel.

Lemma getProp_insert_eq (o : JsObject) (key : string) (v : JsValue) :
  getProp (<[key := v]> o) key = v.
Proof. unfold getProp. by rewrite lookup_insert_eq. Qed.

Lemma limit_push_pop (n : nat) (stack : list ref) (command : ref) :
  (0 < n)%nat ->
  exists rest,
    pop (CommandManager.limit n (push stack command)) = Some (command, rest)
    /\ (0 <? length (CommandManager.limit n (push stack command)))%nat = true.
Proof.
  intros Hn. unfold CommandManager.limit.
  destruct (n <? length (push stack command))%nat eqn:E.
  - destruct stack as [|c0 stack].
    + apply Nat.ltb_lt in E. simpl in E. lia.
    + exists stack. change (shift (push (c0 :: stack) command))
        with (push stack command). split; [apply pop_push|].
      by rewrite length_push.
  - exists stack. split; [apply pop_push|]. by rewrite length_push.
Qed.

Lemma assign_insert (o : JsObject) (key : string) (v : JsValue) :
  assign o (<[key := v]> o) = <[key := v]> o.
Proof. unfold assign. by rewrite <- insert_union_l, map_union_idemp. Qed.

Lemma assign_back (o : JsObject) (key : string) (v : JsValue) :
  assign (<[key := v]> o) o = o ∪ {[ key := v ]}.
Proof.
  unfold assign. apply map_eq. intros i. rewrite !lookup_union.
  destruct (decide (i = key)) as [->|Hne].
  - by rewrite lookup_insert_eq, lookup_singleton_eq.
  - rewrite lookup_insert_ne by done. rewrite lookup_singleton_ne by done.
    by destruct (o !! i).
Qed.

(** [updateProperty(key, value)] does nothing without a current element
    and nothing when the property already is that string. Otherwise it
    returns, the property reads as the new string, the command "Update
    key" is on top of the undo stack and the redo stack is empty; a
    following [undo()] succeeds and the property reads as before. *)
Theorem panel_updateProperty (element : Element) (key value : string) (oldValue : JsValue)
    (s : St) :
  readProperty element key (model (snd s)) = Some oldValue ->
  (0 < CommandManager.maxHistory (fst s))%nat ->
  updateProperty None key value s = Return tt s
  /\ (isString oldValue value = true ->
      updateProperty (Some element) key value s = Return tt s)
  /\ (isString oldValue value = false ->
      exists s',
        updateProperty (Some element) key value s = Return tt s'
        /\ readProperty element key (model (snd s')) = Some (VStr value)
        /\ top (CommandManager.undoStack (fst s')) ≫= (fun c => Command.getDescription c (snd s'))
           = Some ("Update " ++ key)%string
        /\ CommandManager.redoStack (fst s') = []
        /\ exists s'',
             CommandManager.undo s' = (true, s'')
             /\ readProperty element key (model (snd s'')) = Some oldValue
             /\ CommandManager.canRedo (fst s'') = true).
Proof.
  intros Hold Hmax. split; [reflexivity|]. split.
  - intros Hsame. unfold updateProperty. by rewrite Hold, Hsame.
  - intros Hdiff. unfold updateProperty. rewrite Hold, Hdiff.
    destruct s as [m w]. cbn [fst snd] in *.
    unfold alloc, CommandManager.execute. cbn [Command.execute host].
    unfold run. cbn [cmdObjs model]. rewrite lookup_insert_eq.
    unfold execute. cbn [body newUpdatePropertyCommand].
    destruct (limit_push_pop (CommandManager.maxHistory m) (CommandManager.undoStack m)
                (nextRef (model w)) Hmax) as (rest & Hpop & Hlen).
    destruct element as [r|r]; cbn [readProperty setProperty] in *.
    + destruct (shapeObjs (model w) !! r) as [o|] eqn:Ho; [|discriminate].
      simpl in Hold. injection Hold as <-.
      unfold act, onShape. cbn [shapeObjs]. rewrite Ho.
      eexists. split; [reflexivity|]. cbn [fst snd model shapeObjs setShapeObjs].
      rewrite lookup_insert_eq. cbn [fmap option_fmap option_map Shape.setProperty Shape.properties].
      split; [by rewrite getProp_insert_eq|].
      split.
      { unfold CommandManager.addToHistory. cbn [CommandManager.undoStack].
        unfold top. rewrite Hpop. cbn [fmap option_fmap option_map fst mbind option_bind
          Command.getDescription host cmdObjs].
        by rewrite insert_insert_eq, lookup_insert_eq. }
      split; [reflexivity|].
      unfold CommandManager.undo, CommandManager.addToHistory.
      cbn [CommandManager.undoStack CommandManager.redoStack CommandManager.maxHistory].
      unfold CommandManager.canUndo. cbn [CommandManager.undoStack].
      rewrite Hlen, Hpop. cbn [negb].
      cbn [Command.undo host]. unfold run. cbn [cmdObjs model].
      rewrite insert_insert_eq, lookup_insert_eq.
      unfold undo. cbn [body newUpdatePropertyCommand]. unfold act, setProperty, onShape.
      unfold setShapeObjs. cbn [shapeObjs]. rewrite lookup_insert_eq.
      eexists. split; [reflexivity|]. cbn [fst snd model shapeObjs setShapeObjs].
      rewrite lookup_insert_eq. cbn [fmap option_fmap option_map Shape.setProperty Shape.properties].
      split; [by rewrite getProp_insert_eq|].
      unfold CommandManager.canRedo. cbn [CommandManager.redoStack]. by rewrite length_push.
    + destruct (connObjs (model w) !! r) as [o|] eqn:Ho; [|discriminate].
      simpl in Hold. injection Hold as <-.
      unfold act, onConnection. cbn [connObjs]. rewrite Ho.
      eexists. split; [reflexivity|]. cbn [fst snd model connObjs setConnObjs].
      rewrite lookup_insert_eq.
      cbn [fmap option_fmap option_map Connection.setProperty Connection.properties].
      split; [by rewrite getProp_insert_eq|].
      split.
      { unfold CommandManager.addToHistory. cbn [CommandManager.undoStack].
        unfold top. rewrite Hpop. cbn [fmap option_fmap option_map fst mbind option_bind
          Command.getDescription host cmdObjs].
        by rewrite insert_insert_eq, lookup_insert_eq. }
      split; [reflexivity|].
      unfold CommandManager.undo, CommandManager.addToHistory.
      cbn [CommandManager.undoStack CommandManager.redoStack CommandManager.maxHistory].
      unfold CommandManager.canUndo. cbn [CommandManager.undoStack].
      rewrite Hlen, Hpop. cbn [negb].
      cbn [Command.undo host]. unfold run. cbn [cmdObjs model].
      rewrite insert_insert_eq, lookup_insert_eq.
      unfold undo. cbn [body newUpdatePropertyCommand]. unfold act, setProperty, onConnection.
      unfold setConnObjs. cbn [connObjs]. rewrite lookup_insert_eq.
      eexists. split; [reflexivity|]. cbn [fst snd model connObjs setConnObjs].
      rewrite lookup_insert_eq.
      cbn [fmap option_fmap option_map Connection.setProperty Connection.properties].
      split; [by rewrite getProp_insert_eq|].
      unfold CommandManager.canRedo. cbn [CommandManager.redoStack]. by rewrite length_push.
Qed.

(** [updateStyle(key, value)] on a shape returns and sets that key of
    the style and no other; a following [undo()] succeeds and leaves the
    style of before, with the key added if the style did not have it.
    On a connection it throws, because connections have no [setStyle],
    and the history and the objects are as before. *)
Theorem panel_updateStyle (r : ref) (key value : string) (s : St) :
  (0 < CommandManager.maxHistory (fst s))%nat ->
  (forall o, shapeObjs (model (snd s)) !! r = Some o ->
     exists s' o',
       updateStyle (Some (ShapeElement r)) key value s = Return tt s'
       /\ shapeObjs (model (snd s')) !! r = Some o'
       /\ Shape.style o' = <[key := VStr value]> (Shape.style o)
       /\ exists s'' o'',
            CommandManager.undo s' = (true, s'')
            /\ shapeObjs (model (snd s'')) !! r = Some o''
            /\ Shape.style o'' = Shape.style o ∪ {[ key := VStr value ]})
  /\ (forall c, connObjs (model (snd s)) !! r = Some c ->
        exists s',
          updateStyle (Some (ConnectionElement r)) key value s
          = Throw "TypeError: element.setStyle is not a function" s'
          /\ fst s' = fst s
          /\ shapeObjs (model (snd s')) = shapeObjs (model (snd s))
          /\ connObjs (model (snd s')) = connObjs (model (snd s))).
Proof.
  intros Hmax. destruct s as [m w]. cbn [fst snd] in *.
  destruct (limit_push_pop (CommandManager.maxHistory m) (CommandManager.undoStack m)
              (nextRef (model w)) Hmax) as (rest & Hpop & Hlen).
  split.
  - intros o Ho. unfold updateStyle. cbn [readStyle fst snd]. rewrite Ho.
    cbn [fmap option_fmap option_map].
    unfold alloc, CommandManager.execute. cbn [Command.execute host].
    unfold run. cbn [cmdObjs model]. rewrite lookup_insert_eq.
    unfold execute. cbn [body newUpdateStyleCommand].
    unfold act, setStyle, onShape. cbn [shapeObjs]. rewrite Ho.
    eexists _, _. split; [reflexivity|]. cbn [fst snd model]. unfold setShapeObjs.
    cbn [shapeObjs]. rewrite lookup_insert_eq.
    split; [reflexivity|].
    cbn [Shape.setStyle Shape.style]. split; [apply assign_insert|].
    unfold CommandManager.undo, CommandManager.addToHistory.
    cbn [CommandManager.undoStack CommandManager.redoStack CommandManager.maxHistory].
    unfold CommandManager.canUndo. cbn [CommandManager.undoStack].
    rewrite Hlen, Hpop. cbn [negb].
    cbn [Command.undo host]. unfold run. cbn [cmdObjs model].
    rewrite insert_insert_eq, lookup_insert_eq.
    unfold undo. cbn [body newUpdateStyleCommand]. unfold act, setStyle, onShape.
    cbn [shapeObjs]. rewrite lookup_insert_eq.
    eexists _, _. split; [reflexivity|]. cbn [fst snd model]. unfold setShapeObjs.
    cbn [shapeObjs]. rewrite lookup_insert_eq.
    split; [reflexivity|].
    cbn [Shape.setStyle Shape.style]. rewrite assign_insert. apply assign_back.
  - intros c Hc. unfold updateStyle. cbn [readStyle fst snd]. rewrite Hc.
    cbn [fmap option_fmap option_map].
    unfold alloc, CommandManager.execute. cbn [Command.execute host].
    unfold run. cbn [cmdObjs model]. rewrite lookup_insert_eq.
    unfold execute. cbn [body newUpdateStyleCommand].
    unfold act, setStyle.
    eexists. split; [reflexivity|]. by repeat split.
Qed.
End PanelFacts.

Lemma panel_updateProperty_witness :
  exists s',
    PropertiesPanel.updateProperty (Some (Commands.ShapeElement Scenario.a)) "name" "Actor"
      (CommandManager.new, Scenario.world) = Return tt s'
    /\ Commands.readProperty (Commands.ShapeElement Scenario.a) "name"
         (Commands.model (snd s')) = Some (VStr "Actor").
Proof.
  destruct (panel_updateProperty (Commands.ShapeElement Scenario.a) "name" "Actor" (VStr "")
              (CommandManager.new, Scenario.world)) as (_ & _ & Hnew).
  - vm_compute. reflexivity.
  - simpl. lia.
  - destruct (Hnew eq_refl) as (s' & Hrun & Hread & _).
    exists s'. split; [exact Hrun|exact Hread].
Defined.

Lemma panel_updateStyle_witness :
  exists s' o',
    PropertiesPanel.updateStyle (Some (Commands.ShapeElement Scenario.a)) "fill" "#FF0000"
      (CommandManager.new, Scenario.world) = Return tt s'
    /\ Diagram.shapeObjs (Commands.model (snd s')) !! Scenario.a = Some o'
    /\ Shape.style o' !! "fill" = Some (VStr "#FF0000").
Proof.
  destruct (panel_updateStyle Scenario.a "fill" "#FF0000" (CommandManager.new, Scenario.world))
    as [Hshape _].
  - simpl. lia.
  - destruct (Diagram.shapeObjs (Commands.model (snd (CommandManager.new, Scenario.world)))
                !! Scenario.a) as [o|] eqn:Ho; [|vm_compute in Ho; discriminate].
    destruct (Hshape o eq_refl) as (s' & o' & Hrun & Ho' & Hstyle & _).
    exists s', o'. split; [exact Hrun|]. split; [exact Ho'|].
    rewrite Hstyle. apply lookup_insert_eq.
Defined.

(** ** The controller: dragging and connecting *)

Section DragFacts.
Import Diagram Commands InteractionController.
Local Open Scope Q_scope.

Lemma count_occ_NoDup (rs : list ref) (r : ref) :
  NoDup rs -> count_occ Pos.eq_dec rs r = if JsSet.has r rs then 1%nat else 0%nat.
Proof.
  intros Hnd. destruct (JsSet.has r rs) eqn:E.
  - apply has_In in E. apply NoDup_ListNoDup in Hnd.
    pose proof (proj1 (List.NoDup_count_occ Pos.eq_dec rs) Hnd r) as Hle.
    apply (count_occ_In Pos.eq_dec) in E. lia.
  - apply count_occ_not_In. intros Hin. apply has_In in Hin. congruence.
Qed.

(** One mouse move of a drag. *)
Lemma drag_step (point start : Geometry.Point) (e : Editor) :
  draggingFrom start e ->
  exists e1,
    handleCanvasMouseMove point e = Return tt e1
    /\ draggingFrom (Geometry.clone point) e1
    /\ commandManager e1 = commandManager e
    /\ selectionManager e1 = selectionManager e
    /\ cmdObjs (world e1) = cmdObjs (world e)
    /\ forall r,
         shapeObjs (getModel e1) !! r
         = (if JsSet.has r (SelectionManager.getSelectedShapes (selectionManager e))
            then Shape.move (Geometry.x point - Geometry.x start)
                            (Geometry.y point - Geometry.y start)
            else fun s => s) <$> shapeObjs (getModel e) !! r.
Proof.
  intros (Hflag & Hstate & Hstart & Hnd & Halloc).
  unfold handleCanvasMouseMove, bindO. rewrite Hflag, Hstate.
  rewrite bool_decide_eq_true_2 by reflexivity. cbn [andb].
  unfold doDrag. rewrite Hstart. unfold bindO, onModel.
  destruct (forEach_onShape_run
              (Shape.move (Geometry.x point - Geometry.x start)
                          (Geometry.y point - Geometry.y start))
              (SelectionManager.getSelectedShapes (selectionManager e)) (getModel e) Halloc)
    as [m1 Hrun].
  rewrite Hrun. unfold update. cbn [controller setController setModel setWorld].
  cbn [isResizing state]. rewrite Hstate.
  rewrite bool_decide_eq_false_2 by discriminate. rewrite andb_false_r.
  eexists. split; [reflexivity|].
  apply forEach_onShape in Hrun as (_ & _ & _ & Hobjs).
  unfold draggingFrom, getModel.
  cbn [controller setController setModel setWorld isDragging state dragStartPoint
       selectionManager commandManager world model cmdObjs].
  assert (Hlookup : forall r,
    shapeObjs m1 !! r
    = (if JsSet.has r (SelectionManager.getSelectedShapes (selectionManager e))
       then Shape.move (Geometry.x point - Geometry.x start)
                       (Geometry.y point - Geometry.y start)
       else fun s => s) <$> shapeObjs (getModel e) !! r).
  { intros r. rewrite Hobjs, (count_occ_NoDup _ _ Hnd).
    by destruct (JsSet.has r _). }
  split.
  - repeat split; try assumption.
    intros r Hin. rewrite Hlookup. destruct (Halloc r Hin) as [s ->]. by eexists.
  - repeat split; try reflexivity. exact Hlookup.
Qed.

Lemma last_clone (points : list Geometry.Point) (p : Geometry.Point) :
  Geometry.x (List.last points (Geometry.clone p)) = Geometry.x (List.last points p)
  /\ Geometry.y (List.last points (Geometry.clone p)) = Geometry.y (List.last points p).
Proof.
  destruct points as [|q points]; [by split|].
  revert q. induction points as [|q' points IH]; intros q; [by split|].
  apply (IH q').
Qed.

(** A drag in progress followed through any mouse moves and the mouse
    button release: every selected shape keeps its size and, when its
    position, the start of the drag and the mouse positions are
    [integral], ends where it was, moved by the way of the mouse from
    the start of the drag to its last position; no other shape changes;
    the drag is over; and the command history is as before: the move is
    not recorded. Each mouse move adds the difference of two mouse
    positions to the position of the shape; between such integers every
    difference and every sum is exact, and the sums telescope. *)
Theorem drag_follows_mouse (points : list Geometry.Point) (start : Geometry.Point)
    (e : Editor) :
  draggingFrom start e ->
  let e1 := run (map (fun point => CanvasMouseMove point emptyCanvas) points) e in
  let e2 := step e1 MouseUp in
  let dx := Geometry.x (List.last points start) - Geometry.x start in
  let dy := Geometry.y (List.last points start) - Geometry.y start in
  commandManager e2 = commandManager e
  /\ cmdObjs (world e2) = cmdObjs (world e)
  /\ selectionManager e2 = selectionManager e
  /\ state (controller e2) = idle
  /\ isDragging (controller e2) = false
  /\ forall r s,
       shapeObjs (getModel e) !! r = Some s ->
       exists s',
         shapeObjs (getModel e2) !! r = Some s'
         /\ if JsSet.has r (SelectionManager.getSelectedShapes (selectionManager e))
            then Shape.width s' = Shape.width s /\ Shape.height s' = Shape.height s
                 /\ (integral (Shape.x s) -> integral (Shape.y s) ->
                     integralPoint start -> Forall integralPoint points ->
                     movedBy dx dy s s')
            else s' = s.
Proof.
  intros Hdrag e1 e2 dx dy.
  assert (Hrun :
    exists final,
      draggingFrom final e1
      /\ commandManager e1 = commandManager e
      /\ cmdObjs (world e1) = cmdObjs (world e)
      /\ selectionManager e1 = selectionManager e
      /\ forall r s,
           shapeObjs (getModel e) !! r = Some s ->
           exists s',
             shapeObjs (getModel e1) !! r = Some s'
             /\ if JsSet.has r (SelectionManager.getSelectedShapes (selectionManager e))
                then movedBy dx dy s s'
                else s' = s).
  { subst e1 dx dy. clear e2. revert start e Hdrag.
    induction points as [|point points IH]; intros start e Hdrag.
    - exists start. split; [exact Hdrag|]. do 3 (split; [reflexivity|]).
      intros r s Hs. exists s. split; [exact Hs|].
      destruct (JsSet.has r _); [|reflexivity]. unfold movedBy. simpl.
      repeat split; ring.
    - destruct (drag_step point start e Hdrag)
        as (e1 & Hstep & Hdrag1 & Hcm & Hsel & Hcmds & Hobjs).
      destruct (IH (Geometry.clone point) e1 Hdrag1)
        as (final & Hfinal & Hcm' & Hcmds' & Hsel' & Hobjs').
      assert (Hstep1 : step e (CanvasMouseMove point emptyCanvas) = e1)
        by (unfold step; cbn [handle]; by rewrite Hstep).
      change (run (map (fun point => CanvasMouseMove point emptyCanvas) (point :: points)) e)
        with (run (map (fun point => CanvasMouseMove point emptyCanvas) points)
                  (step e (CanvasMouseMove point emptyCanvas))).
      rewrite Hstep1.
      exists final. split; [exact Hfinal|].
      split; [congruence|]. split; [congruence|]. split; [congruence|].
      intros r s Hs. specialize (Hobjs r). rewrite Hs in Hobjs. simpl in Hobjs.
      destruct (Hobjs' r _ Hobjs) as (s' & Hs' & Hmoved).
      exists s'. split; [exact Hs'|].
      rewrite Hsel in Hmoved.
      destruct (JsSet.has r (SelectionManager.getSelectedShapes (selectionManager e)));
        [|exact Hmoved].
      destruct Hmoved as (Hx & Hy & Hw & Hh).
      destruct (last_clone points point) as [Lx Ly]. rewrite Lx, Ly in *.
      change (List.last (point :: points) start) with
        (match points with [] => point | _ => List.last points start end).
      assert (Hlast : match points with [] => point | _ => List.last points start end
                      = List.last points point).
      { destruct points as [|q points']; [reflexivity|].
        clear. revert q. induction points' as [|q' points' IH']; intros q; [reflexivity|].
        apply (IH' q'). }
      rewrite Hlast. unfold movedBy. simpl in Hx, Hy, Hw, Hh.
      repeat split; [rewrite Hx; ring|rewrite Hy; ring|exact Hw|exact Hh]. }
  destruct Hrun as (final & (Hflag & Hstate & Hstart & _) & Hcm & Hcmds & Hsel & Hobjs).
  subst e2. unfold step, handle, handleMouseUp, bindO.
  rewrite Hflag, Hstate. rewrite bool_decide_eq_true_2 by reflexivity. cbn [andb].
  unfold endDrag, update. cbn [controller setController isResizing state stateOf].
  rewrite bool_decide_eq_false_2 by discriminate. rewrite andb_false_r.
  cbn [stateOf]. unfold getModel.
  cbn [commandManager world selectionManager controller setController state isDragging].
  repeat split; try assumption.
  intros r s Hs. destruct (Hobjs r s Hs) as (s' & Hs' & Hmoved).
  exists s'. split; [exact Hs'|].
  destruct (JsSet.has r _); [|exact Hmoved].
  split; [apply Hmoved|]. split; [apply Hmoved|]. intros _ _ _ _. exact Hmoved.
Qed.
End DragFacts.

Lemma drag_follows_mouse_witness :
  let e := InteractionController.step Scenario.editor
             (InteractionController.CanvasClicked (Geometry.mkPoint 50 30)
                (InteractionController.onShapeElement "A") false false) in
  let e2 := InteractionController.step
              (InteractionController.run
                 (map (fun point => InteractionController.CanvasMouseMove point
                                      InteractionController.emptyCanvas)
                      [Geometry.mkPoint 60 40; Geometry.mkPoint 80 35]) e)
              InteractionController.MouseUp in
  InteractionController.commandManager e2 = InteractionController.commandManager e.
Proof.
  intros e e2.
  refine (proj1 (drag_follows_mouse [Geometry.mkPoint 60 40; Geometry.mkPoint 80 35]
                   (Geometry.clone (Geometry.mkPoint 50 30)) e _)).
  split; [vm_compute; reflexivity|]. split; [vm_compute; reflexivity|].
  split; [vm_compute; reflexivity|]. split.
  - apply (bool_decide_unpack _). vm_compute. reflexivity.
  - intros r Hin. vm_compute in Hin. destruct Hin as [<-|[]].
    vm_compute. by eexists.
Defined.

Section ConnectorFacts.
Import Diagram Commands InteractionController.

Lemma or_null_differ (a b : string) :
  a <> b -> or_null (Some a) <> or_null (Some b).
Proof.
  intros Hne. unfold or_null, truthy_str.
  destruct (String.eqb_spec a ""), (String.eqb_spec b ""); simpl; congruence.
Qed.

(** A click with a connector tool never stores a connection from a
    shape to itself: if no stored connection has the same shape id at
    both ends before the click, none has after it, whatever the click
    hits and whether the handler throws or not; and a click on the
    shape that is the pending source leaves the editor as it is. *)
Theorem connector_never_links_a_shape_to_itself (target : Target) (e : Editor) :
  noSelfLoops (getModel e) ->
  let e' := stateOf (handleConnectorToolClick target e) in
  noSelfLoops (getModel e')
  /\ forall shapeId shape source sourceObj shapeObj,
       shapeElement target = Some shapeId ->
       getShape shapeId (getModel e) = Some shape ->
       connectionSource (controller e) = Some source ->
       shapeObjs (getModel e) !! source = Some sourceObj ->
       shapeObjs (getModel e) !! shape = Some shapeObj ->
       Shape.id sourceObj = Shape.id shapeObj ->
       e' = e.
Proof.
  intros Hinv e'. subst e'. split.
  - unfold handleConnectorToolClick.
    destruct (shapeElement target) as [shapeId|]; [|exact Hinv].
    destruct (getShape shapeId (getModel e)) as [shape|]; [|exact Hinv].
    destruct (connectionSource (controller e)) as [source|]; [|exact Hinv].
    destruct (shapeObjs (getModel e) !! source) as [sourceObj|]; [|exact Hinv].
    destruct (shapeObjs (getModel e) !! shape) as [shapeObj|]; [|exact Hinv].
    destruct (activePlugin e) as [plugin|]; [|exact Hinv].
    destruct (negb (String.eqb (Shape.id sourceObj) (Shape.id shapeObj))) eqn:Hids;
      [|exact Hinv].
    apply negb_true_iff in Hids. apply String.eqb_neq in Hids.
    unfold bindO at 1.
    destruct (Plugin.isValid _); [|exact Hinv].
    unfold allocConnection.
    set (connection := Connection.setTargetShape _ _).
    unfold bindO, newCommand, newAddConnectionCommand, getModel.
    cbn [setModel setWorld world model connObjs]. rewrite lookup_insert_eq.
    cbn [mbind option_bind]. unfold alloc.
    cbn [setModel setWorld world model connObjs nextRef cmdObjs shapeObjs diagram now].
    unfold commandManager_execute, CommandManager.execute.
    cbn [Command.execute host world commandManager setWorld setModel]. unfold Commands.run.
    cbn [cmdObjs model]. rewrite lookup_insert_eq.
    unfold execute. cbn [body]. unfold act, addConnection.
    cbn [connObjs]. rewrite lookup_insert_eq.
    cbn [stateOf putHistory resetConnectionState update setController world model snd fst
         setDiagram setConnections setConnObjs connObjs diagram connections].
    intros k r c. unfold getConnection.
    unfold setDiagram, setConnections, setConnObjs.
    cbn [diagram connections connObjs]. rewrite get_set.
    set (c' := link _ _).
    assert (Hc' : Connection.shapeId (Connection.source c')
                  <> Connection.shapeId (Connection.target c')).
    { subst c'. destruct (link_fields (diagram (model (world e)))
        (Connection.setDiagramType (type (diagram (model (world e)))) connection))
        as (_ & -> & -> & _).
      subst connection. cbn. by apply or_null_differ. }
    destruct (decide (r = nextRef (model (world e)))) as [->|Hne].
    + rewrite lookup_insert_eq. intros _ [= <-]. exact Hc'.
    + rewrite lookup_insert_ne by done. rewrite lookup_insert_ne by done.
      destruct (String.eqb (Connection.id c') k); [congruence|].
      apply Hinv.
  - intros shapeId shape source sourceObj shapeObj Htarget Hshape Hsource Hso Hsh Hid.
    unfold handleConnectorToolClick. rewrite Htarget, Hshape, Hsource, Hso, Hsh, Hid.
    rewrite String.eqb_refl. by destruct (activePlugin e).
Qed.
End ConnectorFacts.

Lemma connector_never_links_a_shape_to_itself_witness :
  let e0 := InteractionController.step Scenario.editor
              (InteractionController.ToolSelected "association") in
  let e1 := stateOf (InteractionController.handleConnectorToolClick
                       (InteractionController.onShapeElement "A") e0) in
  let e2 := stateOf (InteractionController.handleConnectorToolClick
                       (InteractionController.onShapeElement "B") e1) in
  noSelfLoops (InteractionController.getModel e2).
Proof.
  intros e0 e1 e2.
  apply (connector_never_links_a_shape_to_itself (InteractionController.onShapeElement "B") e1).
  apply (connector_never_links_a_shape_to_itself (InteractionController.onShapeElement "A") e0).
  intros k r c Hk Hc. apply get_In in Hk. vm_compute in Hk.
  destruct Hk as [[= <- <-]|[]]. vm_compute in Hc. injection Hc as <-.
  vm_compute. discriminate.
Defined.
